(** * Print-production toolkit: imposition, cover geometry, cost estimator

    Shallow embedding of the computational core of the repository, followed
    by its verification.

    - [Imposition]: the pagination inside [imposePdf]
      (apps/admin/hooks/usePdfImposition.ts): which input page each slot of
      each side of each press sheet receives, and the booklet spine marks.
    - [Preview]: the preview's [getPageMappingForSheet].
    - [CollateCut]: cutting and stacking the sheets of a collate-cut job.
    - [Cover]: the spine computation of [BookSpineCalculator] with the PPI
      and caliper catalogs.
    - [Shipping]: the box catalog, [getCarrierCost] and [calculateShipping],
      in exact arithmetic; [Double], [Shipping64]: the packer once more in
      binary64 doubles.
    - [Cost]: [calculateCosts] and its helpers.
    - [Properties], [Examples]: the predicates the theorems are stated with,
      and sample jobs.
    - [Finishing]: the leaves of the printed sheets and the order in which
      the finished piles are read; [SheetCount]: the sheet count as a
      number, the division by an empty grid included.
    - [Chunking]: how [imposePdf] splits a large job into parts.
    - [Layout]: sheet orientation and slot positions of [imposePdf], the
      alternate rotation and the side of the spine.
    - [Creep]: the booklet creep offsets.
    - [Marks]: [drawCropMarks] and the neighbour flags it is called with.
    - [PreviewPanel]: the preview's own slot positions, sheet size, sheet
      count and the input pages it asks to cache; [PageCache]: its cache of
      rendered pages.
    - [Fit], [Calculator]: the estimator's fit test and the warnings and
      box options of the calculator form.
    - [CoverTemplate]: the guides of the exported cover template.
    - [Presets]: saving, deleting and loading imposition presets.

    Conventions.  Page counts, sheet indices and slot indices are JavaScript
    numbers that only ever hold integers: they are embedded as [Z].  Lengths,
    weights, prices and rates are embedded as exact rationals [Q], so that
    [Shipping] and [Cost] compute without the rounding of IEEE doubles; what
    is proved of them is order, sign and structure.  Where a result depends
    on that rounding, the packer's weight limit, the code is embedded a
    second time over the primitive binary64 floats ([Shipping64]).  Where the
    source can divide by zero (the book spine is 0 for every job that is not
    perfect bound) the extended values Infinity and NaN are modelled
    explicitly by [Num.num]. *)

From Stdlib Require Import ZArith QArith Qround List Bool Lia Lqa String Ascii DecimalString.
From Stdlib Require PrimFloat FloatOps SpecFloat Uint63.
Import ListNotations.

Local Open Scope Z_scope.

(** ** JavaScript arrays of nullable entries *)

Module JsArray.

(** [for (let i = 0; i < n; i++)]: the indices visited. *)
Definition seqZ (n : Z) : list Z := map Z.of_nat (seq 0 (Z.to_nat n)).

(** [arr[i]]: [undefined] (here [None]) out of range or at a hole. *)
Definition at_ {A} (arr : list (option A)) (i : Z) : option A :=
  if i <? 0 then None else nth (Z.to_nat i) arr None.

(** [Array(n).fill(null)] *)
Definition filled {A} (n : Z) : list (option A) := repeat None (Z.to_nat n).

(** [arr[i] = v] for [0 <= i]: overwrites in range, extends the array
    (leaving holes) beyond its end. *)
Fixpoint set_nat {A} (arr : list (option A)) (i : nat) (v : option A)
  : list (option A) :=
  match i, arr with
  | O, [] => [v]
  | O, _ :: tl => v :: tl
  | S j, [] => None :: set_nat [] j v
  | S j, x :: tl => x :: set_nat tl j v
  end.

Definition set {A} (arr : list (option A)) (i : Z) (v : option A) :=
  set_nat arr (Z.to_nat i) v.

(** [arr.slice(a, b)] for [0 <= a], [0 <= b]. *)
Definition slice {A} (arr : list A) (a b : Z) : list A :=
  firstn (Z.to_nat b - Z.to_nat a) (skipn (Z.to_nat a) arr).

(** [arr.some(p => p)] *)
Definition some {A} (arr : list (option A)) : bool :=
  existsb (fun p => match p with Some _ => true | None => false end) arr.

End JsArray.
Import JsArray.

(** [Math.ceil(a / b)] on integers, for a positive divisor [b]. *)
Definition ceil_div (a b : Z) : Z := - ((- a) / b).

Inductive ImpositionType := stack | repeat_ | collateCut | booklet.
Inductive ReadingDirection := ltr | rtl.

Definition isBooklet (t : ImpositionType) : bool :=
  match t with booklet => true | _ => false end.

(** [(impositionType === 'stack' || impositionType === 'collateCut')] *)
Definition isStackOrCollate (t : ImpositionType) : bool :=
  match t with stack | collateCut => true | _ => false end.

(** The work-and-turn reversal, as both the engine and the preview write it:
    [for (row...) reversedRows.push(...slice(row*columns,(row+1)*columns).reverse())] *)
Definition reverseRows {A} (columns rows : Z) (pages : list A) : list A :=
  flat_map (fun row => rev (slice pages (row * columns) ((row + 1) * columns)))
           (seqZ rows).

(** ** The rendering engine: pagination inside [imposePdf] *)

Module Imposition.

(** [inputPages[i]]: a page is identified with its zero-based index. *)
Definition inputPages (numInputPages i : Z) : option Z :=
  if (0 <=? i) && (i <? numInputPages) then Some i else None.

(** One side of a rendered booklet sheet: the pages drawn, as
    [(slotIndex, page)], and the spine markings, as
    [(slotIndex, isSpineOnLeft)]. *)
Record SheetSide := { draws : list (Z * Z); spineMarks : list (Z * bool) }.

Section Job.
Variables (impositionType : ImpositionType) (columns rows : Z)
          (isDuplex : bool) (readingDirection : ReadingDirection)
          (showSpineMarks : bool) (numInputPages : Z).

Definition slotsPerSheet : Z :=
  if isBooklet impositionType then 2 else columns * rows.

Definition paddedPageCount : Z :=
  if isBooklet impositionType then ceil_div numInputPages 4 * 4
  else numInputPages.

(** The sheet count, for a grid that has slots; [SheetCount] gives the
    number the engine computes when [columns * rows] is zero. *)
Definition totalPhysicalSheets : Z :=
  let t :=
    match impositionType with
    | booklet => paddedPageCount / 4
    | repeat_ => if isDuplex then ceil_div numInputPages 2 else numInputPages
    | stack =>
        ceil_div numInputPages (slotsPerSheet * (if isDuplex then 2 else 1))
    | collateCut =>
        let pagesPerLogicalStack := ceil_div numInputPages slotsPerSheet in
        if isDuplex then ceil_div pagesPerLogicalStack 2
        else pagesPerLogicalStack
    end in
  if (t =? 0) && (0 <? numInputPages) then 1 else t.

(** [pageIndex < numInputPages ? inputPages[pageIndex] : null] *)
Definition pageOrNull (pageIndex : Z) : option Z :=
  if pageIndex <? numInputPages then inputPages numInputPages pageIndex
  else None.

Section Sheet.
Variable physicalSheetIndex : Z.

Definition pageIndexFR := physicalSheetIndex * 2.
Definition pageIndexFL := paddedPageCount - physicalSheetIndex * 2 - 1.
Definition pageIndexBL := physicalSheetIndex * 2 + 1.
Definition pageIndexBR := paddedPageCount - physicalSheetIndex * 2 - 2.

(** [totalSlotsPerColumn] of the collate-cut branches. *)
Definition collateSlotsPerColumn (duplex : bool) : Z :=
  let pagesPerLogicalStack := ceil_div numInputPages slotsPerSheet in
  let totalSheetsForMode :=
    if duplex then ceil_div pagesPerLogicalStack 2
    else pagesPerLogicalStack in
  totalSheetsForMode * (if duplex then 2 else 1).

Definition pagesForFront : list (option Z) :=
  match impositionType with
  | booklet =>
      [inputPages numInputPages pageIndexFL;
       inputPages numInputPages pageIndexFR]
  | stack =>
      let baseInputIndexForSheet :=
        physicalSheetIndex * slotsPerSheet * (if isDuplex then 2 else 1) in
      map (fun i => pageOrNull
                      (baseInputIndexForSheet + (if isDuplex then i * 2 else i)))
          (seqZ slotsPerSheet)
  | repeat_ =>
      let masterPageFront :=
        pageOrNull (physicalSheetIndex * (if isDuplex then 2 else 1)) in
      map (fun _ => masterPageFront) (seqZ slotsPerSheet)
  | collateCut =>
      let totalSlotsPerColumn := collateSlotsPerColumn isDuplex in
      let pageOffsets :=
        map (fun i => i * totalSlotsPerColumn) (seqZ slotsPerSheet) in
      let logicalPageIndexFront :=
        physicalSheetIndex * (if isDuplex then 2 else 1) in
      map (fun off => pageOrNull (logicalPageIndexFront + off)) pageOffsets
  end.

(** The back-side array; the non-booklet branches sit inside
    [if (isDuplex)] in the source. *)
Definition pagesForBack : list (option Z) :=
  match impositionType with
  | booklet =>
      [inputPages numInputPages pageIndexBL;
       inputPages numInputPages pageIndexBR]
  | stack =>
      let baseInputIndexForSheet := physicalSheetIndex * slotsPerSheet * 2 in
      map (fun i => pageOrNull (baseInputIndexForSheet + i * 2 + 1))
          (seqZ slotsPerSheet)
  | repeat_ =>
      let masterPageBack := pageOrNull (physicalSheetIndex * 2 + 1) in
      map (fun _ => masterPageBack) (seqZ slotsPerSheet)
  | collateCut =>
      let totalSlotsPerColumn := collateSlotsPerColumn true in
      let pageOffsets :=
        map (fun i => i * totalSlotsPerColumn) (seqZ slotsPerSheet) in
      let logicalPageIndexBack := physicalSheetIndex * 2 + 1 in
      map (fun off => pageOrNull (logicalPageIndexBack + off)) pageOffsets
  end.

Definition pagesForBackToRender : list (option Z) :=
  if isStackOrCollate impositionType && (1 <? columns)
  then reverseRows columns rows pagesForBack
  else pagesForBack.

(** The placement loops: [(slotIndex, page)] for every [drawPage]. *)
Definition drawSlots (pages : list (option Z)) (n : Z) : list (Z * Z) :=
  flat_map (fun slotIndex =>
              match at_ pages slotIndex with
              | Some p => [(slotIndex, p)]
              | None => []
              end) (seqZ n).

Definition drawnFront : list (Z * Z) :=
  if isBooklet impositionType
  then drawSlots pagesForFront (Z.of_nat (List.length pagesForFront))
  else drawSlots pagesForFront slotsPerSheet.

(** [None]: the sheet has no back side (simplex, not a booklet). *)
Definition drawnBack : option (list (Z * Z)) :=
  if isBooklet impositionType
  then Some (drawSlots pagesForBack (Z.of_nat (List.length pagesForBack)))
  else if isDuplex
       then Some (if some pagesForBack
                  then drawSlots pagesForBackToRender slotsPerSheet
                  else [])
       else None.

(** Booklet spine marking of the slot [i] of either side:
    [readingDirection === 'ltr' ? !isLeftPage : isLeftPage]
    with [isLeftPage = (i === 0)]. *)
Definition isSpineOnLeft (i : Z) : bool :=
  let isLeftPage := i =? 0 in
  match readingDirection with
  | ltr => negb isLeftPage
  | rtl => isLeftPage
  end.

(** [if (showSpineMarks) drawSpineSlugText(..., isSpineOnLeft, ...)]
    inside the booklet placement loop: one mark per drawn page. *)
Definition bookletSpineMarks (pages : list (option Z)) : list (Z * bool) :=
  if showSpineMarks
  then map (fun d => (fst d, isSpineOnLeft (fst d)))
           (drawSlots pages (Z.of_nat (List.length pages)))
  else [].

(** Everything the booklet branch puts on one side of a sheet. *)
Definition bookletFront : SheetSide :=
  {| draws := drawSlots pagesForFront (Z.of_nat (List.length pagesForFront));
     spineMarks := bookletSpineMarks pagesForFront |}.

Definition bookletBack : SheetSide :=
  {| draws := drawSlots pagesForBack (Z.of_nat (List.length pagesForBack));
     spineMarks := bookletSpineMarks pagesForBack |}.
End Sheet.
End Job.

(** Which page a list of draw commands puts on slot [s]. *)
Definition pageAtSlot (draws : list (Z * Z)) (s : Z) : option Z :=
  option_map snd (find (fun d => fst d =? s) draws).

End Imposition.

(** ** The preview: [getPageMappingForSheet] *)

Module Preview.

Section Mapping.
Variables (physicalSheet0Based : Z) (isSheetSideFront : bool)
          (impositionType : ImpositionType) (columns rows : Z)
          (isDocumentDuplex : bool) (totalInputPdfPages : Z).

Definition slotsPerSheet : Z := columns * rows.

(** [for (i...) if (pageIndex(i) < total) pageIndicesForSlots[i] = pageIndex(i)] *)
Definition fillSlots (pageIndex : Z -> Z) (init : list (option Z))
  : list (option Z) :=
  fold_left (fun arr i =>
               if pageIndex i <? totalInputPdfPages
               then set arr i (Some (pageIndex i)) else arr)
            (seqZ slotsPerSheet) init.

Definition bookletIndices : Z * Z :=
  let paddedPageCount := ceil_div totalInputPdfPages 4 * 4 in
  if isSheetSideFront
  then (paddedPageCount - physicalSheet0Based * 2 - 1, physicalSheet0Based * 2)
  else (physicalSheet0Based * 2 + 1, paddedPageCount - physicalSheet0Based * 2 - 2).

Definition inRange (p : Z) : bool := (0 <=? p) && (p <? totalInputPdfPages).

Definition pageIndicesForSlots : list (option Z) :=
  let init := filled slotsPerSheet in
  match impositionType with
  | booklet =>
      let '(p0, p1) := bookletIndices in
      let a0 := if inRange p0 then set init 0 (Some p0) else init in
      if inRange p1 then set a0 1 (Some p1) else a0
  | stack =>
      let baseInputIndexForSheet :=
        physicalSheet0Based * slotsPerSheet * (if isDocumentDuplex then 2 else 1) in
      let pageOffset := if isSheetSideFront then 0 else 1 in
      fillSlots (fun i => baseInputIndexForSheet
                          + (if isDocumentDuplex then i * 2 + pageOffset else i))
                init
  | repeat_ =>
      let masterPageIndex :=
        physicalSheet0Based * (if isDocumentDuplex then 2 else 1)
        + (if isSheetSideFront then 0 else 1) in
      if masterPageIndex <? totalInputPdfPages
      then fold_left (fun arr i => set arr i (Some masterPageIndex))
                     (seqZ slotsPerSheet) init
      else init
  | collateCut =>
      let pagesPerLogicalStack := ceil_div totalInputPdfPages slotsPerSheet in
      let totalSheetsForMode :=
        if isDocumentDuplex then ceil_div pagesPerLogicalStack 2
        else pagesPerLogicalStack in
      let totalSlotsPerColumn :=
        totalSheetsForMode * (if isDocumentDuplex then 2 else 1) in
      let pageOffsets :=
        map (fun i => i * totalSlotsPerColumn) (seqZ slotsPerSheet) in
      let logicalPageIndex :=
        physicalSheet0Based * (if isDocumentDuplex then 2 else 1)
        + (if isSheetSideFront then 0 else 1) in
      fillSlots (fun slotIndex => logicalPageIndex + nth (Z.to_nat slotIndex) pageOffsets 0)
                init
  end.

Definition getPageMappingForSheet : list (option Z) :=
  if (slotsPerSheet =? 0) || (totalInputPdfPages =? 0)
  then filled slotsPerSheet
  else if negb isSheetSideFront && isDocumentDuplex
          && isStackOrCollate impositionType && (1 <? columns)
       then reverseRows columns rows pageIndicesForSlots
       else pageIndicesForSlots.
End Mapping.

End Preview.

(** ** Finishing a collate-cut job: cutting the sheets and stacking the piles *)

Module CollateCut.

(** A blank leaf carries no page. *)
Definition dropBlank (p : option Z) : list Z :=
  match p with Some x => [x] | None => [] end.

Section Job.
Variables (columns rows : Z) (isDuplex : bool) (numInputPages : Z).

(** The back-side slot that lies behind front slot [i] once the sheet is
    turned over its vertical axis: same row, mirrored column. *)
Definition behind (i : Z) : Z :=
  (i / columns) * columns + (columns - 1 - i mod columns).

(** The pile cut out at slot [i]: the sheets from top to bottom, the front
    of each sheet before its back. *)
Definition pile (i : Z) : list (option Z) :=
  flat_map
    (fun k =>
       Imposition.pageAtSlot
         (Imposition.drawnFront collateCut columns rows isDuplex numInputPages k) i
       :: match Imposition.drawnBack collateCut columns rows isDuplex numInputPages k with
          | Some back => [Imposition.pageAtSlot back (behind i)]
          | None => []
          end)
    (seqZ (Imposition.totalPhysicalSheets collateCut columns rows isDuplex numInputPages)).

(** The piles stacked in slot order, blank leaves dropped. *)
Definition stacked : list Z :=
  flat_map dropBlank (flat_map pile (seqZ (columns * rows))).
End Job.

End CollateCut.

(** ** JavaScript numbers in the estimator *)

Module Num.

(** [x <= y], [x < y], [x === y] on finite numbers. *)
Definition Qleb (x y : Q) : bool := Qle_bool x y.
Definition Qltb (x y : Q) : bool := negb (Qle_bool y x).
Definition Qeqb (x y : Q) : bool := Qeq_bool x y.

(** [Math.floor], [Math.ceil] and [Math.max] on finite numbers. *)
Definition floorQ (x : Q) : Q := inject_Z (Qfloor x).
Definition ceilQ (x : Q) : Q := inject_Z (Qceiling x).
Definition maxQ (x y : Q) : Q := if Qleb x y then y else x.

(** [x % y] for a finite [x] and a non-zero [y]: the remainder of the
    division truncated towards zero. *)
Definition truncQ (x : Q) : Z := if Qltb x 0 then Qceiling x else Qfloor x.
Definition remQ (x y : Q) : Q := (x - y * inject_Z (truncQ (x / y)))%Q.

(** A number that may have left the finite range.  The sign of zero is not
    tracked: every zero divisor is taken to be [+0], which is what the
    estimator produces (the literal [0] and sums of non-negative products). *)
Inductive num := Fin (q : Q) | PInf | NInf | NaN.

Definition sign (q : Q) : comparison := (0 ?= q)%Q.

Definition div (a b : num) : num :=
  match a, b with
  | NaN, _ | _, NaN => NaN
  | Fin x, Fin y =>
      if Qeqb y 0
      then match sign x with Eq => NaN | Lt => PInf | Gt => NInf end
      else Fin (x / y)
  | Fin _, (PInf | NInf) => Fin 0
  | PInf, Fin y => if Qltb y 0 then NInf else PInf
  | NInf, Fin y => if Qltb y 0 then PInf else NInf
  | (PInf | NInf), (PInf | NInf) => NaN
  end.

Definition mul (a b : num) : num :=
  match a, b with
  | NaN, _ | _, NaN => NaN
  | Fin x, Fin y => Fin (x * y)
  | Fin x, PInf | PInf, Fin x =>
      match sign x with Eq => NaN | Lt => PInf | Gt => NInf end
  | Fin x, NInf | NInf, Fin x =>
      match sign x with Eq => NaN | Lt => NInf | Gt => PInf end
  | PInf, PInf | NInf, NInf => PInf
  | PInf, NInf | NInf, PInf => NInf
  end.

Definition add (a b : num) : num :=
  match a, b with
  | NaN, _ | _, NaN => NaN
  | Fin x, Fin y => Fin (x + y)
  | PInf, NInf | NInf, PInf => NaN
  | PInf, _ | _, PInf => PInf
  | NInf, _ | _, NInf => NInf
  end.

Definition floor (a : num) : num :=
  match a with Fin x => Fin (floorQ x) | _ => a end.

Definition ceil (a : num) : num :=
  match a with Fin x => Fin (ceilQ x) | _ => a end.

(** [a < b]: false as soon as one side is NaN. *)
Definition lt (a b : num) : bool :=
  match a, b with
  | NaN, _ | _, NaN => false
  | Fin x, Fin y => Qltb x y
  | NInf, (Fin _ | PInf) => true
  | Fin _, PInf => true
  | _, _ => false
  end.

Definition gt (a b : num) : bool := lt b a.

(** [a <= b] *)
Definition le (a b : num) : bool :=
  match a, b with
  | NaN, _ | _, NaN => false
  | _, _ => negb (lt b a)
  end.

(** [a === b] *)
Definition eqb (a b : num) : bool :=
  match a, b with
  | Fin x, Fin y => Qeqb x y
  | PInf, PInf | NInf, NInf => true
  | _, _ => false
  end.

(** [Math.max(a, b)] and [Math.min(a, b)]: NaN is contagious. *)
Definition max2 (a b : num) : num :=
  match a, b with
  | NaN, _ | _, NaN => NaN
  | _, _ => if lt a b then b else a
  end.

Definition min2 (a b : num) : num :=
  match a, b with
  | NaN, _ | _, NaN => NaN
  | _, _ => if lt b a then b else a
  end.

(** [Math.max(...xs)], which is [-Infinity] on no argument. *)
Definition max (xs : list num) : num := fold_left max2 xs NInf.

(** The value of a number known to be finite. *)
Definition finite (a : num) : Q := match a with Fin x => x | _ => 0 end.

End Num.

(** ** The cover engine: [BookSpineCalculator] and its catalogs *)

Module Cover.

Inductive InteriorPaperTypeKey := int_opaque | int_gloss | int_silk.
Inductive InteriorPaperWeightKey := w60 | w80 | w100.
Inductive CoverPaperTypeKey := cov_silk | cov_gloss.
Inductive CoverPaperWeightKey := c100 | c111 | c130.

(** Pages per inch of the interior stocks. *)
Definition INTERIOR_PAPER_PPI (t : InteriorPaperTypeKey)
  (w : InteriorPaperWeightKey) : Q :=
  match t, w with
  | int_opaque, w60 => 500 | int_opaque, w80 => 400 | int_opaque, w100 => 330
  | int_gloss, w60 => 540  | int_gloss, w80 => 430  | int_gloss, w100 => 360
  | int_silk, w60 => 530   | int_silk, w80 => 420   | int_silk, w100 => 350
  end.

(** Caliper, in inches, of one sheet of the cover stocks. *)
Definition COVER_PAPER_THICKNESS (t : CoverPaperTypeKey)
  (w : CoverPaperWeightKey) : Q :=
  match t, w with
  | cov_silk, c100 => 95 # 10000
  | cov_silk, c111 => 110 # 10000
  | cov_silk, c130 => 135 # 10000
  | cov_gloss, c100 => 90 # 10000
  | cov_gloss, c111 => 105 # 10000
  | cov_gloss, c130 => 130 # 10000
  end.

Record CalculatedDimensions := {
  spineWidthInches : Q;
  interiorBlockThicknessInches : Q;
  fullCoverWidthInches : Q;
  fullCoverHeightInches : Q;
  selectedInteriorPPI : Q;
  selectedCoverThicknessInches : Q
}.

(** The effect that recomputes [calculatedDimensions]; [None] is the state
    [null] it sets when an input is not positive. *)
Definition calculatedDimensions
  (interiorPaperType : InteriorPaperTypeKey)
  (interiorPaperWeight : InteriorPaperWeightKey)
  (coverPaperType : CoverPaperTypeKey)
  (coverPaperWeight : CoverPaperWeightKey)
  (numInteriorPages finishedBookWidth finishedBookHeight coverBleed : Q)
  : option CalculatedDimensions :=
  if Num.Qleb numInteriorPages 0 || Num.Qleb finishedBookWidth 0
     || Num.Qleb finishedBookHeight 0
  then None
  else
    let ppi := INTERIOR_PAPER_PPI interiorPaperType interiorPaperWeight in
    let coverThickness := COVER_PAPER_THICKNESS coverPaperType coverPaperWeight in
    if Num.Qeqb ppi 0 then None
    else
      let interiorBlockThickness := (numInteriorPages / ppi)%Q in
      let spine := (interiorBlockThickness + coverThickness * 2)%Q in
      let fullCoverW := (2 * finishedBookWidth + spine + 2 * coverBleed)%Q in
      let fullCoverH := (finishedBookHeight + 2 * coverBleed)%Q in
      Some {| spineWidthInches := spine;
              interiorBlockThicknessInches := interiorBlockThickness;
              fullCoverWidthInches := fullCoverW;
              fullCoverHeightInches := fullCoverH;
              selectedInteriorPPI := ppi;
              selectedCoverThicknessInches := coverThickness |}.

End Cover.

(** ** Shipping: the box catalog, the carrier rates and the packer *)

Module Shipping.

(** [height: number | number[]]; the depths of a multi-depth box are whole
    inches in the catalog and are kept as integers, so that the template
    string of a flattened box name is their decimal numeral. *)
Inductive BoxHeight := Single (h : Q) | MultiDepth (hs : list Z).

Record ShippingBox := {
  name : string;
  width : Q;
  length : Q;
  height : BoxHeight;
  cost : Q
}.

Definition shippingBoxes : list ShippingBox :=
  [ {| name := "Standard Small Box (11.75x8.75x4.75)";
       width := 1175 # 100; length := 875 # 100;
       height := Single (475 # 100); cost := 175 # 100 |};
    {| name := "Standard Medium Box (11.25x8.75x9.5)";
       width := 1125 # 100; length := 875 # 100;
       height := Single (95 # 10); cost := 250 # 100 |};
    {| name := "Standard Large Box (12x9x10)";
       width := 12; length := 9; height := Single 10; cost := 3 |};
    {| name := "Large Multi-Depth Box (12.25x9.25x12)";
       width := 1225 # 100; length := 925 # 100;
       height := MultiDepth [12; 10; 8; 6]%Z; cost := 350 # 100 |} ].

Definition MAX_WEIGHT_PER_BOX_LBS : Q := 40.

Definition getCarrierCost (totalWeightLbs : Q) : Q :=
  if Num.Qleb totalWeightLbs 0 then 0
  else if Num.Qleb totalWeightLbs 1 then 950 # 100
  else if Num.Qleb totalWeightLbs 5 then 12
  else if Num.Qleb totalWeightLbs 10 then 15
  else if Num.Qleb totalWeightLbs 20 then 20
  else if Num.Qleb totalWeightLbs 30 then 28
  else if Num.Qleb totalWeightLbs 40 then 35
  else if Num.Qleb totalWeightLbs 50 then 42
  else (42 + (totalWeightLbs - 50) * (75 # 100))%Q.

(** A box with one height, after [flatMap]. *)
Record FlatBox := {
  flatName : string;
  flatWidth : Q;
  flatLength : Q;
  flatHeight : Q;
  flatCost : Q
}.

Definition doubleQuote : string := String (ascii_of_nat 34) EmptyString.

(** The template string of a flattened name: the box name, a space, then in
    parentheses the depth followed by the inch mark. *)
Definition depthName (boxName : string) (h : Z) : string :=
  (boxName ++ " (" ++ NilZero.string_of_int (Z.to_int h) ++ doubleQuote ++ ")")%string.

Definition flatten (box : ShippingBox) : list FlatBox :=
  match height box with
  | MultiDepth hs =>
      map (fun h => {| flatName := depthName (name box) h;
                       flatWidth := width box; flatLength := length box;
                       flatHeight := inject_Z h; flatCost := cost box |}) hs
  | Single h =>
      [ {| flatName := name box; flatWidth := width box;
           flatLength := length box; flatHeight := h; flatCost := cost box |} ]
  end.

Definition flatBoxes : list FlatBox := flat_map flatten shippingBoxes.

(** The first box of the catalog, which has a single height. *)
Definition standardSmallBox : FlatBox :=
  {| flatName := "Standard Small Box (11.75x8.75x4.75)";
     flatWidth := 1175 # 100; flatLength := 875 # 100;
     flatHeight := 475 # 100; flatCost := 175 # 100 |}.

Record ShippingBreakdown := {
  boxName : string;
  boxCount : Num.num;
  booksPerBox : Num.num;
  totalWeightLbs : Q
}.

Record BestOption := {
  bestCost : Num.num;
  bestBreakdown : option ShippingBreakdown
}.

(** [[a, b, c].sort((x, y) => y - x)]: descending order. *)
Fixpoint insertDesc (x : Q) (l : list Q) : list Q :=
  match l with
  | [] => [x]
  | y :: tl => if Num.Qleb y x then x :: l else y :: insertDesc x tl
  end.

Definition sortDesc (l : list Q) : list Q := fold_right insertDesc [] l.

Section Packer.
Variables (quantity bookWidth bookLength bookSpine bookWeightLbs : Q)
          (overrideBoxName : option string).

(** [Math.floor(X / x)] for a box side [X] and a book side [x], the
    quotient unrounded; [Shipping64.across] rounds it as the code does. *)
Definition across (X x : Q) : Num.num := Num.floor (Num.div (Num.Fin X) (Num.Fin x)).

(** The six axis orientations of the book in the box. *)
Definition orientations (box : FlatBox) : list Num.num :=
  let w := bookWidth in let l := bookLength in let s := bookSpine in
  let W := flatWidth box in let L := flatLength box in let H := flatHeight box in
  [ Num.mul (Num.mul (across W w) (across L l)) (across H s);
    Num.mul (Num.mul (across W w) (across L s)) (across H l);
    Num.mul (Num.mul (across W l) (across L w)) (across H s);
    Num.mul (Num.mul (across W l) (across L s)) (across H w);
    Num.mul (Num.mul (across W s) (across L w)) (across H l);
    Num.mul (Num.mul (across W s) (across L l)) (across H w) ].

(** [bookDims[i] > boxDims[i]] for some [i]: a single book cannot fit. *)
Definition tooLarge (box : FlatBox) : bool :=
  let bookDims := sortDesc [bookWidth; bookLength; bookSpine] in
  let boxDims := sortDesc [flatWidth box; flatLength box; flatHeight box] in
  Num.Qltb (nth 0%nat boxDims 0%Q) (nth 0%nat bookDims 0%Q)
  || Num.Qltb (nth 1%nat boxDims 0%Q) (nth 1%nat bookDims 0%Q)
  || Num.Qltb (nth 2%nat boxDims 0%Q) (nth 2%nat bookDims 0%Q).

(** One round of [for (const box of boxesToConsider)], quotients and
    products unrounded. *)
Definition considerBox (bestOption : BestOption) (box : FlatBox) : BestOption :=
  if tooLarge box then bestOption
  else
    let booksPerBox := Num.max (orientations box) in
    if Num.eqb booksPerBox (Num.Fin 0) then bestOption
    else
      let maxBooksByWeight :=
        Num.floor (Num.div (Num.Fin MAX_WEIGHT_PER_BOX_LBS) (Num.Fin bookWeightLbs)) in
      if Num.gt maxBooksByWeight (Num.Fin 0)
      then
        let booksPerBox := Num.min2 booksPerBox maxBooksByWeight in
        let boxCount := Num.ceil (Num.div (Num.Fin quantity) booksPerBox) in
        let handlingCost := Num.mul boxCount (Num.Fin (flatCost box)) in
        let totalWeightLbs := (quantity * bookWeightLbs)%Q in
        let carrierCost := getCarrierCost totalWeightLbs in
        let totalCost := Num.add handlingCost (Num.Fin carrierCost) in
        if Num.lt totalCost (bestCost bestOption)
        then {| bestCost := totalCost;
                bestBreakdown :=
                  Some {| boxName := flatName box; boxCount := boxCount;
                          booksPerBox := booksPerBox;
                          totalWeightLbs := totalWeightLbs |} |}
        else bestOption
      else bestOption.

(** [overrideBoxName ? flatBoxes.filter(...) : flatBoxes]; the empty string
    is falsy. *)
Definition boxesToConsider : list FlatBox :=
  match overrideBoxName with
  | Some n =>
      if String.eqb n "" then flatBoxes
      else filter (fun box => String.eqb (flatName box) n) flatBoxes
  | None => flatBoxes
  end.

Record ShippingResult := {
  shippingCost : Num.num;
  breakdown : option ShippingBreakdown
}.

Definition calculateShipping : ShippingResult :=
  if Num.Qleb quantity 0 || Num.Qleb bookWeightLbs 0
  then {| shippingCost := Num.Fin 0; breakdown := None |}
  else
    let bestOption :=
      fold_left considerBox boxesToConsider
                {| bestCost := Num.PInf; bestBreakdown := None |} in
    {| shippingCost := if Num.eqb (bestCost bestOption) Num.PInf
                       then Num.Fin 0 else bestCost bestOption;
       breakdown := bestBreakdown bestOption |}.
End Packer.

End Shipping.

(** ** The cost estimator: [calculateCosts] *)

Module Cost.

Local Open Scope Q_scope.

Inductive PaperType := Coated | Uncoated.

Record PaperStock := {
  name : string;
  gsm : Q;
  type : PaperType;
  finish : string;
  parentWidth : Q;
  parentHeight : Q;
  sku : option string;
  costPerSheet : Q;
  usage : string
}.

Inductive PrintColor := COLOR | BW.
Inductive BindingMethod := perfectBound | saddleStitch | noBinding.
Inductive LaminationType := gloss | matte | noLamination.

Record JobDetails := {
  bookTitle : string;
  quantity : Q;
  finishedWidth : Q;
  finishedHeight : Q;
  bwPages : Q;
  bwPaperSku : option string;
  colorPages : Q;
  colorPaperSku : option string;
  hasCover : bool;
  coverPaperSku : option string;
  coverPrintColor : PrintColor;
  coverPrintsOnBothSides : bool;
  laminationType : LaminationType;
  bindingMethod : BindingMethod;
  laborRate : Q;
  markupPercent : Q;
  spoilagePercent : Q;
  calculateShipping : bool;
  overrideShippingBoxName : option string
}.

Record LaborTimeBreakdown := {
  printingTimeMins : Q;
  laminatingTimeMins : Q;
  bindingTimeMins : Q;
  setupTimeMins : Q;
  trimmingTimeMins : Q;
  wastageTimeMins : Q
}.

Record CostBreakdown := {
  bwPaperCost : Q; colorPaperCost : Q; coverPaperCost : Q;
  bwClickCost : Q; colorClickCost : Q; coverClickCost : Q;
  laminationCost : Q; laborCost : Q; shippingCost : Q; subtotal : Q;
  markupAmount : Q; totalCost : Q; pricePerUnit : Q;
  bwPressSheets : Q; colorPressSheets : Q; coverPressSheets : Q;
  bwImposition : Q; colorImposition : Q; coverImposition : Q;
  totalClicks : Q; productionTimeHours : Q;
  laborTimeBreakdown : LaborTimeBreakdown;
  shippingBreakdown : option Shipping.ShippingBreakdown;
  error : option string
}.

(** Production constants *)
Definition COLOR_CLICK_COST : Q := 39 # 1000.
Definition BW_CLICK_COST : Q := 9 # 1000.
Definition GLOSS_LAMINATE_COST_PER_COVER : Q := 30 # 100.
Definition MATTE_LAMINATE_COST_PER_COVER : Q := 60 # 100.
Definition PRINTING_SPEED_SPM : Q := 15.
Definition LAMINATING_SPEED_MPM : Q := 5.
Definition PERFECT_BINDER_SETUP_MINS : Q := 15.
Definition PERFECT_BINDER_SPEED_BPH : Q := 300.
Definition SADDLE_STITCHER_SETUP_MINS : Q := 10.
Definition SADDLE_STITCHER_SPEED_BPH : Q := 400.
Definition BASE_PREP_TIME_MINS : Q := 20.
Definition WASTAGE_FACTOR : Q := 15 # 100.
Definition BINDING_INEFFICIENCY_FACTOR : Q := 120 # 100.
Definition TRIMMING_SETUP_MINS : Q := 10.
Definition TRIMMING_BOOKS_PER_CYCLE : Q := 250.
Definition TRIMMING_CYCLE_TIME_MINS : Q := 5.

(** Conversion constants *)
Definition SQ_INCH_TO_SQ_METER : Q := 64516 # 100000000.
Definition GRAMS_TO_LBS : Q := 220462 # 100000000.

Definition calculateImposition (parentW parentH jobW jobH : Q) : Q :=
  if Num.Qleb jobW 0 || Num.Qleb jobH 0 then 0
  else
    let fit1 := Num.floorQ (parentW / jobW) * Num.floorQ (parentH / jobH) in
    let fit2 := Num.floorQ (parentW / jobH) * Num.floorQ (parentH / jobW) in
    Num.maxQ fit1 fit2.

Definition getPaperThicknessInches (paper : PaperStock) : Q :=
  let caliperFactor := match type paper with Coated => 9 # 10 | Uncoated => 13 # 10 end in
  let caliperMicrons := gsm paper * caliperFactor in
  caliperMicrons / 25400.

Definition emptyLaborBreakdown : LaborTimeBreakdown :=
  {| printingTimeMins := 0; laminatingTimeMins := 0; bindingTimeMins := 0;
     setupTimeMins := 0; trimmingTimeMins := 0; wastageTimeMins := 0 |}.

Definition createEmptyCostBreakdown (error : option string) : CostBreakdown :=
  {| error := error;
     bwPaperCost := 0; colorPaperCost := 0; coverPaperCost := 0;
     bwClickCost := 0; colorClickCost := 0; coverClickCost := 0;
     laminationCost := 0; laborCost := 0; shippingCost := 0; subtotal := 0;
     markupAmount := 0; totalCost := 0; pricePerUnit := 0;
     bwPressSheets := 0; colorPressSheets := 0; coverPressSheets := 0;
     bwImposition := 0; colorImposition := 0; coverImposition := 0;
     totalClicks := 0; productionTimeHours := 0;
     laborTimeBreakdown := emptyLaborBreakdown;
     shippingBreakdown := None |}.

(** [x > 0 ? x : 0] *)
Definition positivePart (x : Q) : Q := if Num.Qltb 0 x then x else 0.

(** [p.sku === sku], on nullable strings. *)
Definition skuEqb (a b : option string) : bool :=
  match a, b with
  | Some x, Some y => String.eqb x y
  | None, None => true
  | _, _ => false
  end.

Definition saddleStitchError : string :=
  "Saddle stitch requires the total interior page count to be a multiple of 4.".
Definition bwFitError : string :=
  "Finished size does not fit on the B/W interior paper.".
Definition colorFitError : string :=
  "Finished size does not fit on the Color interior paper.".
Definition coverFitError : string :=
  "Full cover spread (including spine) does not fit on the selected cover paper.".

Section Estimate.
(** The paper catalog [paperData] is not part of the sources at hand: the
    estimator is embedded over an arbitrary catalog.  A local constant of
    [calculateCosts] that shares its name with a field of [CostBreakdown]
    carries the suffix [Of] here. *)
Variable paperData : list PaperStock.
Variable details : JobDetails.

Definition findPaper (s : option string) : option PaperStock :=
  find (fun p => skuEqb (sku p) s) paperData.

Definition bwPaper := findPaper (bwPaperSku details).
Definition colorPaper := findPaper (colorPaperSku details).
Definition coverPaper := findPaper (coverPaperSku details).

Definition totalInteriorPages : Q :=
  positivePart (bwPages details) + positivePart (colorPages details).

Definition spoilageMultiplier : Q :=
  1 + (if Num.Qeqb (spoilagePercent details) 0 then 0 else spoilagePercent details) / 100.

Definition paperImposition (paper : option PaperStock) : Q :=
  match paper with
  | Some p => calculateImposition (parentWidth p) (parentHeight p)
                (finishedWidth details) (finishedHeight details)
  | None => 0
  end.

Definition bwImpositionOf : Q := paperImposition bwPaper.
Definition colorImpositionOf : Q := paperImposition colorPaper.

(** [spineWidth] after the [if (hasCover && coverPaper)] block. *)
Definition spineWidth : Q :=
  match hasCover details, coverPaper, bindingMethod details with
  | true, Some _, perfectBound =>
      let bwLeaves := Num.ceilQ (positivePart (bwPages details) / 2) in
      let colorLeaves := Num.ceilQ (positivePart (colorPages details) / 2) in
      let bwPaperThickness :=
        match bwPaper with
        | Some p => if Num.Qltb 0 (bwPages details)
                    then getPaperThicknessInches p else 0
        | None => 0
        end in
      let colorPaperThickness :=
        match colorPaper with
        | Some p => if Num.Qltb 0 (colorPages details)
                    then getPaperThicknessInches p else 0
        | None => 0
        end in
      bwLeaves * bwPaperThickness + colorLeaves * colorPaperThickness
  | _, _, _ => 0
  end.

Definition coverImpositionOf : Q :=
  match hasCover details, coverPaper with
  | true, Some cp =>
      let coverSpreadWidth := finishedWidth details * 2 + spineWidth in
      let coverSpreadHeight := finishedHeight details in
      let maxPossibleImposition :=
        calculateImposition (parentWidth cp) (parentHeight cp)
          coverSpreadWidth coverSpreadHeight in
      if Num.Qleb 1 maxPossibleImposition then 1 else 0
  | _, _ => 0
  end.

Definition isSome {A} (o : option A) : bool :=
  match o with Some _ => true | None => false end.

(** The message of the first guard that rejects the job, if any. *)
Definition validationError : option string :=
  if match bindingMethod details with saddleStitch => true | _ => false end
     && Num.Qltb 0 totalInteriorPages
     && negb (Num.Qeqb (Num.remQ totalInteriorPages 4) 0)
  then Some saddleStitchError
  else if isSome bwPaper && Num.Qeqb bwImpositionOf 0 && Num.Qltb 0 (bwPages details)
  then Some bwFitError
  else if isSome colorPaper && Num.Qeqb colorImpositionOf 0
          && Num.Qltb 0 (colorPages details)
  then Some colorFitError
  else if hasCover details && isSome coverPaper && Num.Qeqb coverImpositionOf 0
  then Some coverFitError
  else None.

(** [Math.ceil((imposition > 0 ? Math.ceil(quantity * Math.ceil(pages / 2) / imposition) : 0)
     * spoilageMultiplier)], the product unrounded: where the double product
    lies just above an integer (100 sheets at 10 percent spoilage give
    110.00000000000001) the code counts one sheet more. *)
Definition interiorPressSheets (imposition pages : Q) : Q :=
  Num.ceilQ
    ((if Num.Qltb 0 imposition
      then Num.ceilQ (quantity details * Num.ceilQ (positivePart pages / 2) / imposition)
      else 0) * spoilageMultiplier).

Definition paperCostOf (paper : option PaperStock) (sheets : Q) : Q :=
  match paper with Some p => sheets * costPerSheet p | None => 0 end.

Definition bwPressSheetsOf : Q := interiorPressSheets bwImpositionOf (bwPages details).
Definition bwPaperCostOf : Q := paperCostOf bwPaper bwPressSheetsOf.
Definition bwClicks : Q := bwPressSheetsOf * 2.
Definition bwClickCostOf : Q := bwClicks * BW_CLICK_COST.

Definition colorPressSheetsOf : Q :=
  interiorPressSheets colorImpositionOf (colorPages details).
Definition colorPaperCostOf : Q := paperCostOf colorPaper colorPressSheetsOf.
Definition colorClicks : Q := colorPressSheetsOf * 2.
Definition colorClickCostOf : Q := colorClicks * COLOR_CLICK_COST.

Definition coverPressSheetsOf : Q :=
  if hasCover details
  then Num.ceilQ
         ((if Num.Qltb 0 coverImpositionOf
           then Num.ceilQ (quantity details / coverImpositionOf) else 0)
          * spoilageMultiplier)
  else 0.
Definition coverPaperCostOf : Q :=
  if hasCover details then paperCostOf coverPaper coverPressSheetsOf else 0.
Definition coverClicks : Q :=
  if hasCover details
  then coverPressSheetsOf * (if coverPrintsOnBothSides details then 2 else 1)
  else 0.
Definition coverClickCostOf : Q :=
  if hasCover details
  then coverClicks * (match coverPrintColor details with
                      | COLOR => COLOR_CLICK_COST
                      | BW => BW_CLICK_COST
                      end)
  else 0.

Definition laminated : bool :=
  match laminationType details with noLamination => false | _ => true end.

Definition laminationCostOf : Q :=
  if hasCover details && laminated && Num.Qltb 0 (quantity details)
  then (match laminationType details with
        | gloss => GLOSS_LAMINATE_COST_PER_COVER
        | _ => MATTE_LAMINATE_COST_PER_COVER
        end) * quantity details
  else 0.

Definition totalPressSheets : Q :=
  bwPressSheetsOf + colorPressSheetsOf + coverPressSheetsOf.
Definition printingTimeMinsOf : Q := totalPressSheets / PRINTING_SPEED_SPM.

Definition laminatingTimeMinsOf : Q :=
  match coverPaper with
  | Some cp =>
      if hasCover details && laminated && Num.Qltb 0 coverPressSheetsOf
      then
        let sheetLengthMeters := parentHeight cp * (254 # 10000) in
        (coverPressSheetsOf * sheetLengthMeters) / LAMINATING_SPEED_MPM
      else 0
  | None => 0
  end.

Definition bindingSetupMins : Q :=
  if Num.Qltb 0 (quantity details)
  then match bindingMethod details with
       | perfectBound => PERFECT_BINDER_SETUP_MINS
       | saddleStitch => SADDLE_STITCHER_SETUP_MINS
       | noBinding => 0
       end
  else 0.

Definition bindingTimeMinsOf : Q :=
  if Num.Qltb 0 (quantity details)
  then match bindingMethod details with
       | perfectBound =>
           (quantity details / (PERFECT_BINDER_SPEED_BPH / 60))
           * BINDING_INEFFICIENCY_FACTOR
       | saddleStitch =>
           (quantity details / (SADDLE_STITCHER_SPEED_BPH / 60))
           * BINDING_INEFFICIENCY_FACTOR
       | noBinding => 0
       end
  else 0.

Definition trimmingTimeMinsOf : Q :=
  if Num.Qltb 0 (quantity details)
  then TRIMMING_SETUP_MINS
       + Num.ceilQ (quantity details / TRIMMING_BOOKS_PER_CYCLE) * TRIMMING_CYCLE_TIME_MINS
  else 0.

Definition setupTimeMinsOf : Q := BASE_PREP_TIME_MINS + bindingSetupMins.
Definition totalProductionTimeMins : Q :=
  setupTimeMinsOf + printingTimeMinsOf + laminatingTimeMinsOf
  + bindingTimeMinsOf + trimmingTimeMinsOf.
Definition wastageTimeMinsOf : Q := totalProductionTimeMins * WASTAGE_FACTOR.
Definition totalTimeMins : Q := totalProductionTimeMins + wastageTimeMinsOf.
Definition productionTimeHoursOf : Q := totalTimeMins / 60.
Definition laborCostOf : Q := productionTimeHoursOf * laborRate details.

Definition subtotalOf : Q :=
  (bwPaperCostOf + colorPaperCostOf + coverPaperCostOf)
  + (bwClickCostOf + colorClickCostOf + coverClickCostOf)
  + laminationCostOf + laborCostOf.
Definition markupAmountOf : Q := subtotalOf * (markupPercent details / 100).

Definition calculateSingleBookWeightLbs : Q :=
  let finishedWidth := finishedWidth details in
  let finishedHeight := finishedHeight details in
  let g0 := 0 in
  let g1 :=
    match bwPaper with
    | Some p =>
        if Num.Qltb 0 (bwPages details)
        then
          let bwSheetAreaSqIn := finishedWidth * finishedHeight in
          let totalBwPaperAreaSqM :=
            (bwPages details / 2) * bwSheetAreaSqIn * SQ_INCH_TO_SQ_METER in
          g0 + totalBwPaperAreaSqM * gsm p
        else g0
    | None => g0
    end in
  let g2 :=
    match colorPaper with
    | Some p =>
        if Num.Qltb 0 (colorPages details)
        then
          let colorSheetAreaSqIn := finishedWidth * finishedHeight in
          let totalColorPaperAreaSqM :=
            (colorPages details / 2) * colorSheetAreaSqIn * SQ_INCH_TO_SQ_METER in
          g1 + totalColorPaperAreaSqM * gsm p
        else g1
    | None => g1
    end in
  let g3 :=
    match coverPaper with
    | Some p =>
        if hasCover details
        then
          let coverSpreadWidth := finishedWidth * 2 + spineWidth in
          let coverAreaSqIn := coverSpreadWidth * finishedHeight in
          let coverAreaSqM := coverAreaSqIn * SQ_INCH_TO_SQ_METER in
          g2 + coverAreaSqM * gsm p
        else g2
    | None => g2
    end in
  g3 * GRAMS_TO_LBS.

Definition shippingResult : Shipping.ShippingResult :=
  if calculateShipping details
  then Shipping.calculateShipping (quantity details) (finishedWidth details)
         (finishedHeight details) spineWidth calculateSingleBookWeightLbs
         (overrideShippingBoxName details)
  else {| Shipping.shippingCost := Num.Fin 0; Shipping.breakdown := None |}.

(** The packer's cost is always a finite number (lemma
    [calculateShipping_cost_finite] below). *)
Definition shippingCostOf : Q := Num.finite (Shipping.shippingCost shippingResult).

Definition totalCostOf : Q := subtotalOf + markupAmountOf + shippingCostOf.
Definition pricePerUnitOf : Q :=
  if Num.Qltb 0 (quantity details) then totalCostOf / quantity details else 0.
Definition totalClicksOf : Q := bwClicks + colorClicks + coverClicks.

Definition calculateCosts : CostBreakdown :=
  match validationError with
  | Some msg => createEmptyCostBreakdown (Some msg)
  | None =>
      {| bwPaperCost := bwPaperCostOf; colorPaperCost := colorPaperCostOf;
         coverPaperCost := coverPaperCostOf;
         bwClickCost := bwClickCostOf; colorClickCost := colorClickCostOf;
         coverClickCost := coverClickCostOf;
         laminationCost := laminationCostOf; laborCost := laborCostOf;
         shippingCost := shippingCostOf; subtotal := subtotalOf;
         markupAmount := markupAmountOf; totalCost := totalCostOf;
         pricePerUnit := pricePerUnitOf;
         bwPressSheets := bwPressSheetsOf; colorPressSheets := colorPressSheetsOf;
         coverPressSheets := coverPressSheetsOf;
         bwImposition := bwImpositionOf; colorImposition := colorImpositionOf;
         coverImposition := coverImpositionOf;
         totalClicks := totalClicksOf; productionTimeHours := productionTimeHoursOf;
         laborTimeBreakdown :=
           {| printingTimeMins := printingTimeMinsOf;
              laminatingTimeMins := laminatingTimeMinsOf;
              bindingTimeMins := bindingTimeMinsOf;
              setupTimeMins := setupTimeMinsOf;
              trimmingTimeMins := trimmingTimeMinsOf;
              wastageTimeMins := wastageTimeMinsOf |};
         shippingBreakdown := Shipping.breakdown shippingResult;
         error := None |}
  end.
End Estimate.

End Cost.

(** ** Properties stated about the estimator *)

Module Properties.

Local Open Scope Q_scope.

(** What a count of books along the axes of a box can be when the box sides
    are positive and the book sides are not negative: a non-negative number,
    [Infinity] (a zero book side), or [NaN] (zero times [Infinity]). *)
Inductive count : Num.num -> Prop :=
| count_fin q : 0 <= q -> count (Num.Fin q)
| count_inf : count Num.PInf
| count_nan : count Num.NaN.

Section Plan.
Variables (quantity w l s weight : Q).

(** The three properties of a packing plan: it covers the quantity, the
    book fits the box in one of the six orientations, and a full box stays
    within the weight limit. *)
Definition soundPlan (b : Shipping.ShippingBreakdown) : Prop :=
  exists (n c : Q) (box : Shipping.FlatBox) (o : Num.num),
    Shipping.booksPerBox b = Num.Fin n
    /\ Shipping.boxCount b = Num.Fin c
    /\ quantity <= n * c
    /\ In box Shipping.flatBoxes
    /\ Shipping.flatName box = Shipping.boxName b
    /\ In o (Shipping.orientations w l s box)
    /\ Num.lt (Num.Fin 0) o = true
    /\ Num.le (Num.Fin n) o = true
    /\ n * weight <= Shipping.MAX_WEIGHT_PER_BOX_LBS.

Definition soundBest (best : Shipping.BestOption) : Prop :=
  match Shipping.bestBreakdown best with
  | Some b => soundPlan b
  | None => True
  end.
End Plan.

(** What one box costs for [q] books of the given weight when [n] of them
    go in a box: handling plus carrier. *)
Definition boxTotal (weight : Q) (box : Shipping.FlatBox) (n q : Q) : Q :=
  Num.ceilQ (q / n) * Shipping.flatCost box + Shipping.getCarrierCost (q * weight).

(** Two running minima of the packer, the first not above the second. *)
Definition costsOrdered (c c' : Num.num) : Prop :=
  (c = Num.PInf /\ c' = Num.PInf)
  \/ (exists x x', c = Num.Fin x /\ c' = Num.Fin x' /\ 0 <= x /\ x <= x').

(** A catalog whose stocks have physical values. *)
Definition goodCatalog (paperData : list Cost.PaperStock) : Prop :=
  forall p, In p paperData ->
    0 <= Cost.gsm p /\ 0 <= Cost.parentHeight p /\ 0 <= Cost.costPerSheet p.

(** An admissible job: no numeric field is negative and the estimator
    accepts it. *)
Definition admissible (paperData : list Cost.PaperStock) (d : Cost.JobDetails) : Prop :=
  0 <= Cost.quantity d /\ 0 <= Cost.finishedWidth d /\ 0 <= Cost.finishedHeight d
  /\ 0 <= Cost.bwPages d /\ 0 <= Cost.colorPages d
  /\ 0 <= Cost.laborRate d /\ 0 <= Cost.markupPercent d
  /\ 0 <= Cost.spoilagePercent d
  /\ Cost.error (Cost.calculateCosts paperData d) = None.

(** [d'] is [d] with none of quantity, page counts, markup, labor rate and
    spoilage lowered, every other field being the same. *)
Definition grows (d d' : Cost.JobDetails) : Prop :=
  Cost.bookTitle d' = Cost.bookTitle d
  /\ Cost.finishedWidth d' = Cost.finishedWidth d
  /\ Cost.finishedHeight d' = Cost.finishedHeight d
  /\ Cost.bwPaperSku d' = Cost.bwPaperSku d
  /\ Cost.colorPaperSku d' = Cost.colorPaperSku d
  /\ Cost.hasCover d' = Cost.hasCover d
  /\ Cost.coverPaperSku d' = Cost.coverPaperSku d
  /\ Cost.coverPrintColor d' = Cost.coverPrintColor d
  /\ Cost.coverPrintsOnBothSides d' = Cost.coverPrintsOnBothSides d
  /\ Cost.laminationType d' = Cost.laminationType d
  /\ Cost.bindingMethod d' = Cost.bindingMethod d
  /\ Cost.calculateShipping d' = Cost.calculateShipping d
  /\ Cost.overrideShippingBoxName d' = Cost.overrideShippingBoxName d
  /\ Cost.quantity d <= Cost.quantity d'
  /\ Cost.bwPages d <= Cost.bwPages d'
  /\ Cost.colorPages d <= Cost.colorPages d'
  /\ Cost.markupPercent d <= Cost.markupPercent d'
  /\ Cost.laborRate d <= Cost.laborRate d'
  /\ Cost.spoilagePercent d <= Cost.spoilagePercent d'.

(** The page counts are untouched whenever shipping is part of the total. *)
Definition pagesFixedWhenShipping (d d' : Cost.JobDetails) : Prop :=
  Cost.calculateShipping d = true ->
  Cost.bwPages d' = Cost.bwPages d /\ Cost.colorPages d' = Cost.colorPages d.

End Properties.

(** ** Sample data *)

Module Examples.

(** A one-stock catalog (the repository's [paperData] is not among the
    sources at hand). *)
Definition catalog : list Cost.PaperStock :=
  [ {| Cost.name := "100# Uncoated Text 13x19"; Cost.gsm := 148;
       Cost.type := Cost.Uncoated; Cost.finish := "Smooth";
       Cost.parentWidth := 13; Cost.parentHeight := 19;
       Cost.sku := Some "UT100-1319"%string;
       Cost.costPerSheet := 12 # 100; Cost.usage := "Text" |} ].

(** [quantity] unbound copies of an 8 x 9 in book of [pages] black-and-white
    pages on that stock, shipped. *)
Definition textBlock (quantity pages : Q) : Cost.JobDetails :=
  {| Cost.bookTitle := "Text block"; Cost.quantity := quantity;
     Cost.finishedWidth := 8; Cost.finishedHeight := 9;
     Cost.bwPages := pages; Cost.bwPaperSku := Some "UT100-1319"%string;
     Cost.colorPages := 0; Cost.colorPaperSku := None;
     Cost.hasCover := false; Cost.coverPaperSku := None;
     Cost.coverPrintColor := Cost.BW; Cost.coverPrintsOnBothSides := false;
     Cost.laminationType := Cost.noLamination;
     Cost.bindingMethod := Cost.noBinding;
     Cost.laborRate := 30; Cost.markupPercent := 20; Cost.spoilagePercent := 5;
     Cost.calculateShipping := true; Cost.overrideShippingBoxName := None |}.

End Examples.

(** ** Reading an imposed job back, leaf by leaf *)

Module Finishing.

Section Job.
Variables (impositionType : ImpositionType) (columns rows : Z)
          (isDuplex : bool) (numInputPages : Z).

Definition frontPage (k s : Z) : option Z :=
  Imposition.pageAtSlot
    (Imposition.drawnFront impositionType columns rows isDuplex numInputPages k) s.

(** The page on slot [s] of the back of sheet [k]; nothing when the sheet
    has no back or nothing was drawn there. *)
Definition backPage (k s : Z) : option Z :=
  match Imposition.drawnBack impositionType columns rows isDuplex numInputPages k with
  | Some back => Imposition.pageAtSlot back s
  | None => None
  end.

(** The leaf cut out of sheet [k] at slot [i]: its front, then (when the
    sheet has a back) the back-side slot that lies behind it. *)
Definition leaf (k i : Z) : list (option Z) :=
  frontPage k i
  :: match Imposition.drawnBack impositionType columns rows isDuplex numInputPages k with
     | Some back => [Imposition.pageAtSlot back (CollateCut.behind columns i)]
     | None => []
     end.

Definition sheets : list Z :=
  seqZ (Imposition.totalPhysicalSheets impositionType columns rows isDuplex
          numInputPages).

(** The pile of leaves cut at slot [i], top sheet first. *)
Definition pile (i : Z) : list (option Z) := flat_map (fun k => leaf k i) sheets.

(** All leaves, sheet after sheet and on each sheet slot after slot. *)
Definition sheetBySheet : list (option Z) :=
  flat_map (fun k => flat_map (leaf k)
                       (seqZ (Imposition.slotsPerSheet impositionType columns rows)))
           sheets.

(** A booklet folded and nested, sheet 0 outermost, read from the first
    page: the right front and left back of every sheet going inwards, then
    the right back and left front of every sheet coming back out. *)
Definition bookletReading : list (option Z) :=
  flat_map (fun k => [frontPage k 1; backPage k 0]) sheets
  ++ flat_map (fun k => [backPage k 1; frontPage k 0]) (rev sheets).
End Job.

End Finishing.

(** ** Splitting a large job into parts *)

Module Chunking.

Definition MAX_PAGES_PER_CHUNK_REPEAT : Z := 50.
Definition MAX_PAGES_PER_CHUNK_GENERAL : Z := 100.

Section Run.
Variables (impositionType : ImpositionType) (isDuplex isLargeFile : bool)
          (totalPhysicalSheets : Z).

Definition pageLimit : Z :=
  match impositionType with
  | repeat_ => MAX_PAGES_PER_CHUNK_REPEAT
  | _ => MAX_PAGES_PER_CHUNK_GENERAL
  end.

(** [isDuplex ? Math.floor(pageLimit / 2) : pageLimit] *)
Definition sheetsPerChunk : Z := if isDuplex then pageLimit / 2 else pageLimit.

Definition needsChunking : bool := isLargeFile.

Definition totalChunks : Z :=
  if needsChunking then ceil_div totalPhysicalSheets sheetsPerChunk else 1.

Definition chunkStartSheet (chunkIndex : Z) : Z := chunkIndex * sheetsPerChunk.

Definition chunkEndSheet (chunkIndex : Z) : Z :=
  if needsChunking
  then Z.min (chunkStartSheet chunkIndex + sheetsPerChunk) totalPhysicalSheets
  else totalPhysicalSheets.

(** The sheets the inner loop of one part visits,
    [for (s = chunkStartSheet; s < chunkEndSheet; s++)]. *)
Definition chunkSheets (chunkIndex : Z) : list Z :=
  map (fun j => chunkStartSheet chunkIndex + j)
      (seqZ (chunkEndSheet chunkIndex - chunkStartSheet chunkIndex)).

(** The parts the outer loop produces, in order. *)
Definition chunks : list (list Z) := map chunkSheets (seqZ totalChunks).

(** Pages a sheet adds to the output document: its front, and a back for
    booklets and duplex jobs. *)
Definition pdfPagesPerSheet : Z :=
  if isBooklet impositionType || isDuplex then 2 else 1.
End Run.

End Chunking.

(** ** Sheet size and slot positions *)

Module Layout.

Local Open Scope Q_scope.

Inductive SheetOrientation := auto | portrait | landscape.
Inductive RowOffsetType := none | half.
Inductive AlternateRotationType := noRotation | altCol | altRow.

Record SheetConfig := {
  name : string;
  longSideInches : Q;
  shortSideInches : Q
}.

Definition INCH_TO_POINTS : Q := 72.

Definition SHEET_SIZES : list SheetConfig :=
  [ {| name := "11 x 17 Paper"; longSideInches := 17; shortSideInches := 11 |};
    {| name := "12 x 18 Paper"; longSideInches := 18; shortSideInches := 12 |};
    {| name := "12.5 x 19 Paper"; longSideInches := 19; shortSideInches := 125 # 10 |};
    {| name := "13 x 19 Paper"; longSideInches := 19; shortSideInches := 13 |} ].

Record Position := { x : Q; y : Q }.

(** A computation of the engine that may [throw new Error(message)]. *)
Inductive Outcome (A : Type) :=
| Done (value : A)
| Thrown (message : string).
Arguments Done {A} value.
Arguments Thrown {A} message.

Definition isHalf (r : RowOffsetType) : bool :=
  match r with half => true | none => false end.

Definition autoOrientationError : string :=
  "Auto-orientation failed: Content block too large for selected paper.".

Definition invalidDimensionsError : string :=
  "Reference page has invalid dimensions.".

(** The message of the template string
    [Content (${columns}x${rows} grid) too large for sheet.] *)
Definition tooLargeError (cols rws : Z) : string :=
  ("Content (" ++ NilZero.string_of_int (Z.to_int cols) ++ "x"
   ++ NilZero.string_of_int (Z.to_int rws) ++ " grid) too large for sheet.")%string.

Section Plan.
Variables (selectedSheet : SheetConfig) (sheetOrientation : SheetOrientation)
          (uploadedDocPageWidthRef uploadedDocPageHeightRef : Q)
          (columns rows : Z)
          (horizontalGutterPoints verticalGutterPoints : Q)
          (rowOffsetType : RowOffsetType) (impositionType : ImpositionType).

Definition paperLongSidePoints : Q := longSideInches selectedSheet * INCH_TO_POINTS.
Definition paperShortSidePoints : Q := shortSideInches selectedSheet * INCH_TO_POINTS.

(** [(cell * n) + (Math.max(0, n - 1) * gutter)], widened by half a step
    when alternate rows are offset; the engine computes it once for the
    automatic orientation and once for the layout. *)
Definition blockWidth (cols rws : Z) : Q :=
  let w := uploadedDocPageWidthRef * inject_Z cols
           + inject_Z (Z.max 0 (cols - 1)) * horizontalGutterPoints in
  if isHalf rowOffsetType && (1 <? rws)%Z
  then w + (uploadedDocPageWidthRef + horizontalGutterPoints) / 2
  else w.

Definition blockHeight (rws : Z) : Q :=
  uploadedDocPageHeightRef * inject_Z rws
  + inject_Z (Z.max 0 (rws - 1)) * verticalGutterPoints.

(** [actualSheetWidthPoints, actualSheetHeightPoints] *)
Definition actualSheet : Outcome (Q * Q) :=
  match sheetOrientation with
  | portrait => Done (paperShortSidePoints, paperLongSidePoints)
  | landscape => Done (paperLongSidePoints, paperShortSidePoints)
  | auto =>
      let contentBlockRenderWidth := blockWidth columns rows in
      let contentBlockRenderHeight := blockHeight rows in
      let canFitLandscape :=
        Num.Qleb contentBlockRenderWidth paperLongSidePoints
        && Num.Qleb contentBlockRenderHeight paperShortSidePoints in
      let canFitPortrait :=
        Num.Qleb contentBlockRenderWidth paperShortSidePoints
        && Num.Qleb contentBlockRenderHeight paperLongSidePoints in
      if canFitLandscape && canFitPortrait
      then
        let wider :=
          Num.gt (Num.div (Num.Fin contentBlockRenderWidth) (Num.Fin paperLongSidePoints))
                 (Num.div (Num.Fin contentBlockRenderHeight) (Num.Fin paperShortSidePoints)) in
        Done (if wider then paperLongSidePoints else paperShortSidePoints,
              if wider then paperShortSidePoints else paperLongSidePoints)
      else if canFitLandscape
      then Done (paperLongSidePoints, paperShortSidePoints)
      else if canFitPortrait
      then Done (paperShortSidePoints, paperLongSidePoints)
      else Thrown autoOrientationError
  end.

Definition layoutCellWidth : Q := uploadedDocPageWidthRef.
Definition layoutCellHeight : Q := uploadedDocPageHeightRef.
Definition currentColumnsForLayout : Z :=
  if isBooklet impositionType then 2%Z else columns.
Definition currentRowsForLayout : Z :=
  if isBooklet impositionType then 1%Z else rows.

Definition startXBlock (actualSheetWidthPoints : Q) : Q :=
  (actualSheetWidthPoints
   - blockWidth currentColumnsForLayout currentRowsForLayout) / 2.

Definition startYBlock (actualSheetHeightPoints : Q) : Q :=
  (actualSheetHeightPoints - blockHeight currentRowsForLayout) / 2.

(** The body of the two nested loops: the position pushed for one cell. *)
Definition slotPosition (actualSheetWidthPoints actualSheetHeightPoints : Q)
           (row col : Z) : Position :=
  let xPos := startXBlock actualSheetWidthPoints
              + inject_Z col * (layoutCellWidth + horizontalGutterPoints) in
  let yPos := startYBlock actualSheetHeightPoints
              + inject_Z (currentRowsForLayout - 1 - row)
                * (layoutCellHeight + verticalGutterPoints) in
  {| x := if isHalf rowOffsetType && negb (Z.rem row 2 =? 0)%Z
          then xPos + (layoutCellWidth + horizontalGutterPoints) / 2
          else xPos;
     y := yPos |}.

Definition slotPositions (actualSheetWidthPoints actualSheetHeightPoints : Q)
  : Outcome (list Position) :=
  if Num.Qltb (startXBlock actualSheetWidthPoints) 0
     || Num.Qltb (startYBlock actualSheetHeightPoints) 0
  then Thrown (tooLargeError currentColumnsForLayout currentRowsForLayout)
  else Done (flat_map
               (fun row =>
                  map (slotPosition actualSheetWidthPoints actualSheetHeightPoints row)
                      (seqZ currentColumnsForLayout))
               (seqZ currentRowsForLayout)).

(** Step 3 of [imposePdf] as a whole: the sheet size, then the slots. *)
Definition plan : Outcome (Q * Q * list Position) :=
  match actualSheet with
  | Thrown message => Thrown message
  | Done (w, h) =>
      match slotPositions w h with
      | Thrown message => Thrown message
      | Done positions => Done (w, h, positions)
      end
  end.

(** For a document that has pages: the check of the reference page that
    [imposePdf] makes as soon as it has read the page size, followed by
    step 3. *)
Definition sizedPlan : Outcome (Q * Q * list Position) :=
  if Num.Qleb uploadedDocPageWidthRef 0 || Num.Qleb uploadedDocPageHeightRef 0
  then Thrown invalidDimensionsError
  else plan.
End Plan.

(** [row = Math.floor(slotIndex / columns)], [col = slotIndex % columns] and
    the alternate rotation of the non-booklet placement loops. *)
Definition shouldRotate (alternateRotationType : AlternateRotationType)
           (columns slotIndex : Z) : bool :=
  let row := (slotIndex / columns)%Z in
  let col := Z.rem slotIndex columns in
  match alternateRotationType with
  | altCol => negb (Z.rem col 2 =? 0)%Z
  | altRow => negb (Z.rem row 2 =? 0)%Z
  | noRotation => false
  end.

(** [finalSpineIsLeft] of a slot of the front, and of the back. *)
Definition finalSpineIsLeft (isFront : bool) (readingDirection : ReadingDirection)
           (rotated : bool) : bool :=
  let isLtr := match readingDirection with ltr => true | rtl => false end in
  let baseSpineIsLeft := if isFront then isLtr else negb isLtr in
  if rotated then negb baseSpineIsLeft else baseSpineIsLeft.

End Layout.

(** ** Booklet creep *)

Module Creep.

Local Open Scope Q_scope.

Section Booklet.
Variables (paddedPageCount : Z) (creepInches : Q).




End Booklet.

End Creep.

(** ** The preview panel beside the mapping *)

Module PreviewPanel.

Local Open Scope Q_scope.

Record SlotResult := {
  positions : list Layout.Position;
  error : option string
}.

Definition calculateSlotPositions
           (columns rows : Z) (layoutCellWidth layoutCellHeight : Q)
           (hGutterPoints vGutterPoints : Q)
           (actualSheetWidthPoints actualSheetHeightPoints : Q)
           (rowOffsetType : Layout.RowOffsetType) : SlotResult :=
  let totalRequiredWidth0 :=
    layoutCellWidth * inject_Z columns
    + inject_Z (Z.max 0 (columns - 1)) * hGutterPoints in
  let totalRequiredWidth :=
    if Layout.isHalf rowOffsetType && (1 <? rows)%Z
    then totalRequiredWidth0 + (layoutCellWidth + hGutterPoints) / 2
    else totalRequiredWidth0 in
  let totalRequiredHeight :=
    layoutCellHeight * inject_Z rows
    + inject_Z (Z.max 0 (rows - 1)) * vGutterPoints in
  let startXBlock := (actualSheetWidthPoints - totalRequiredWidth) / 2 in
  let startYBlock := (actualSheetHeightPoints - totalRequiredHeight) / 2 in
  if Num.Qltb startXBlock 0 || Num.Qltb startYBlock 0
     || Num.Qltb actualSheetWidthPoints totalRequiredWidth
     || Num.Qltb actualSheetHeightPoints totalRequiredHeight
  then {| positions := [];
          error := Some (Layout.tooLargeError columns rows) |}
  else
    {| positions :=
         flat_map
           (fun row =>
              map (fun col =>
                     let xPos := startXBlock
                                 + inject_Z col * (layoutCellWidth + hGutterPoints) in
                     let yPos := startYBlock
                                 + inject_Z (rows - 1 - row)
                                   * (layoutCellHeight + vGutterPoints) in
                     {| Layout.x :=
                          if Layout.isHalf rowOffsetType && negb (Z.rem row 2 =? 0)%Z
                          then xPos + (layoutCellWidth + hGutterPoints) / 2
                          else xPos;
                        Layout.y := yPos |})
                  (seqZ columns))
           (seqZ rows);
       error := None |}.

(** The sheet size the main preview draws on; [None] when it reports that the
    content is too large for the automatic orientation. *)
Definition sheetSize (selectedSheet : Layout.SheetConfig)
           (sheetOrientation : Layout.SheetOrientation)
           (columns rows : Z) (layoutCellWidth layoutCellHeight : Q)
           (hGutterPoints vGutterPoints : Q)
           (rowOffsetType : Layout.RowOffsetType) : option (Q * Q) :=
  let paperLongSidePoints :=
    Layout.longSideInches selectedSheet * Layout.INCH_TO_POINTS in
  let paperShortSidePoints :=
    Layout.shortSideInches selectedSheet * Layout.INCH_TO_POINTS in
  match sheetOrientation with
  | Layout.portrait => Some (paperShortSidePoints, paperLongSidePoints)
  | Layout.landscape => Some (paperLongSidePoints, paperShortSidePoints)
  | Layout.auto =>
      let cWidth0 :=
        layoutCellWidth * inject_Z columns
        + inject_Z (Z.max 0 (columns - 1)) * hGutterPoints in
      let cWidth :=
        if Layout.isHalf rowOffsetType && (1 <? rows)%Z
        then cWidth0 + (layoutCellWidth + hGutterPoints) / 2
        else cWidth0 in
      let cHeight :=
        layoutCellHeight * inject_Z rows
        + inject_Z (Z.max 0 (rows - 1)) * vGutterPoints in
      let fitL := Num.Qleb cWidth paperLongSidePoints
                  && Num.Qleb cHeight paperShortSidePoints in
      let fitP := Num.Qleb cWidth paperShortSidePoints
                  && Num.Qleb cHeight paperLongSidePoints in
      if fitL && fitP
      then
        let wider :=
          Num.gt (Num.div (Num.Fin cWidth) (Num.Fin paperLongSidePoints))
                 (Num.div (Num.Fin cHeight) (Num.Fin paperShortSidePoints)) in
        Some (if wider then paperLongSidePoints else paperShortSidePoints,
              if wider then paperShortSidePoints else paperLongSidePoints)
      else if fitL then Some (paperLongSidePoints, paperShortSidePoints)
      else if fitP then Some (paperShortSidePoints, paperLongSidePoints)
      else None
  end.

(** The messages the main preview paints instead of a sheet: the page
    information holds no usable page size ([Invalid input dims.]); the
    bleed does not leave a trim area ([Bleed (...) too large.]); no
    orientation fits ([Content too large (auto)]); the slots do not fit
    the sheet ([Layout too large.]). *)
Inductive Message :=
| InvalidInputDims
| BleedTooLarge
| ContentTooLargeAuto
| LayoutTooLarge.

Inductive Shown :=
| Drawn (sheet : Q * Q * list Layout.Position)
| Refused (message : Message).

(** What the main preview lays out for the props it receives, once the
    document is loaded and its page information carries no error: the
    booklet override of the grid, the checks of the page size and of the
    bleed, the sheet size, then the slots. *)
Definition layout (selectedSheet : Layout.SheetConfig)
           (sheetOrientation : Layout.SheetOrientation)
           (impositionType : ImpositionType) (propColumns propRows : Z)
           (uploadedPageFullWidth uploadedPageFullHeight : Q)
           (bleedPoints hGutterPoints vGutterPoints : Q)
           (rowOffsetType : Layout.RowOffsetType) : Shown :=
  let isBookletMode := isBooklet impositionType in
  let columns := if isBookletMode then 2%Z else propColumns in
  let rows := if isBookletMode then 1%Z else propRows in
  if Num.Qleb uploadedPageFullWidth 0 || Num.Qleb uploadedPageFullHeight 0
  then Refused InvalidInputDims
  else if Num.Qltb uploadedPageFullWidth (2 * bleedPoints)
          || Num.Qltb uploadedPageFullHeight (2 * bleedPoints)
  then Refused BleedTooLarge
  else
    match sheetSize selectedSheet sheetOrientation columns rows
            uploadedPageFullWidth uploadedPageFullHeight
            hGutterPoints vGutterPoints rowOffsetType with
    | None => Refused ContentTooLargeAuto
    | Some (w, h) =>
        let r := calculateSlotPositions columns rows
                   uploadedPageFullWidth uploadedPageFullHeight
                   hGutterPoints vGutterPoints w h rowOffsetType in
        match error r with
        | Some _ => Refused LayoutTooLarge
        | None => Drawn (w, h, positions r)
        end
    end.

Local Open Scope Z_scope.

(** The sheet count of the navigation, [totalPhysicalSheetsPreview]. *)
Definition totalPhysicalSheetsPreview (numPages : Z)
           (impositionType : ImpositionType) (columns rows : Z)
           (isDuplex : bool) : Z :=
  if numPages <=? 0 then 0
  else
    let finish totalSheets := Z.max totalSheets (if 0 <? numPages then 1 else 0) in
    match impositionType with
    | booklet =>
        let paddedPageCount := ceil_div numPages 4 * 4 in
        finish (paddedPageCount / 4)
    | _ =>
        let slotsPerSheet := columns * rows in
        if slotsPerSheet =? 0 then 0
        else
          match impositionType with
          | repeat_ => finish (if isDuplex then ceil_div numPages 2 else numPages)
          | stack =>
              let slotsPerPhysicalSheet := slotsPerSheet * (if isDuplex then 2 else 1) in
              finish (ceil_div numPages slotsPerPhysicalSheet)
          | _ =>
              let pagesPerLogicalStack := ceil_div numPages slotsPerSheet in
              finish (if isDuplex then ceil_div pagesPerLogicalStack 2
                      else pagesPerLogicalStack)
          end
    end.

(** [indices.add(pageIndex)] on a JavaScript [Set], kept in insertion
    order. *)
Definition setAdd (indices : list Z) (pageIndex : Z) : list Z :=
  if existsb (Z.eqb pageIndex) indices then indices else indices ++ [pageIndex].

Definition getInputPdfPageIndicesForSheet
           (physicalSheet0Based : Z) (isSheetSideFront : bool)
           (impositionType : ImpositionType) (columns rows : Z)
           (isDocumentDuplex : bool) (totalInputPdfPages : Z) : list Z :=
  if totalInputPdfPages =? 0 then []
  else
    let slotsPerSheet := columns * rows in
    if slotsPerSheet =? 0 then []
    else
      match impositionType with
      | booklet =>
          let paddedPageCount := ceil_div totalInputPdfPages 4 * 4 in
          let sheetSidePageIndices :=
            if isSheetSideFront
            then [paddedPageCount - physicalSheet0Based * 2 - 1;
                  physicalSheet0Based * 2]
            else [physicalSheet0Based * 2 + 1;
                  paddedPageCount - physicalSheet0Based * 2 - 2] in
          fold_left (fun indices pageIndex =>
                       if (0 <=? pageIndex) && (pageIndex <? totalInputPdfPages)
                       then setAdd indices pageIndex else indices)
                    sheetSidePageIndices []
      | _ =>
          let pageMapping :=
            Preview.getPageMappingForSheet physicalSheet0Based isSheetSideFront
              impositionType columns rows isDocumentDuplex totalInputPdfPages in
          fold_left (fun indices entry =>
                       match entry with
                       | Some pageIndex => setAdd indices pageIndex
                       | None => indices
                       end)
                    pageMapping []
      end.

End PreviewPanel.

(** ** Predicates on jobs and stocks used by the theorems on the estimator *)

Module Fit.

Local Open Scope Q_scope.

(** A piece of [w] by [h] fits the parent sheet of a stock as given or
    turned by a quarter turn. *)
Definition fitsSheet (p : Cost.PaperStock) (w h : Q) : Prop :=
  0 < w /\ 0 < h
  /\ ((w <= Cost.parentWidth p /\ h <= Cost.parentHeight p)
      \/ (h <= Cost.parentWidth p /\ w <= Cost.parentHeight p)).

(** The parent sheets of the catalog have positive sides. *)
Definition positiveSheets (paperData : list Cost.PaperStock) : Prop :=
  forall p, In p paperData -> 0 < Cost.parentWidth p /\ 0 < Cost.parentHeight p.

(** A job growing in nothing: [Properties.grows] is reflexive. *)
Definition sameJob (d : Cost.JobDetails) : Prop := Properties.grows d d.

End Fit.

(** ** The estimating calculator's form *)

Module Calculator.

Local Open Scope Q_scope.

Definition multipleOfFourWarning : string :=
  "Warning: Page count must be a multiple of 4 for saddle stitching.".
Definition overEightyWarning : string :=
  "Warning: Saddle stitching may not be suitable for books over 80 pages.".

(** [bindingWarning]; [(details.bwPages || 0)] is the page count itself for
    a field that holds a number. *)
Definition bindingWarning (details : Cost.JobDetails) : option string :=
  match Cost.bindingMethod details with
  | Cost.saddleStitch =>
      let totalPages := Cost.bwPages details + Cost.colorPages details in
      if Num.Qltb 0 totalPages && negb (Num.Qeqb (Num.remQ totalPages 4) 0)
      then Some multipleOfFourWarning
      else if Num.Qltb 80 totalPages then Some overEightyWarning
      else None
  | _ => None
  end.

(** The names offered in the box drop-down for one catalog entry; the
    template string of a multi-depth box is written out here as it is in the
    component. *)
Definition boxOptions (box : Shipping.ShippingBox) : list string :=
  match Shipping.height box with
  | Shipping.MultiDepth hs =>
      map (fun h => (Shipping.name box ++ " (" ++ NilZero.string_of_int (Z.to_int h)
                     ++ Shipping.doubleQuote ++ ")")%string) hs
  | Shipping.Single _ => [Shipping.name box]
  end.

Definition allBoxOptions : list string :=
  flat_map boxOptions Shipping.shippingBoxes.

(** [parsedValue = value === 'automatic' ? null : value] of the box
    drop-down. *)
Definition overrideOfOption (value : string) : option string :=
  if String.eqb value "automatic" then None else Some value.

End Calculator.

(** ** The cover template of the spine calculator *)

Module CoverTemplate.

Local Open Scope Q_scope.

Record Rect := { x : Q; y : Q; width : Q; height : Q }.


Section Template.
Variables (calculatedDimensions : Cover.CalculatedDimensions)
          (coverBleed finishedBookWidth finishedBookHeight : Q).


Definition bleedPts : Q := coverBleed * Layout.INCH_TO_POINTS.
Definition bookWidthPts : Q := finishedBookWidth * Layout.INCH_TO_POINTS.
Definition bookHeightPts : Q := finishedBookHeight * Layout.INCH_TO_POINTS.
Definition spineWidthPts : Q :=
  Cover.spineWidthInches calculatedDimensions * Layout.INCH_TO_POINTS.

Definition trimBox : Rect :=
  {| x := bleedPts; y := bleedPts;
     width := bookWidthPts * 2 + spineWidthPts; height := bookHeightPts |}.
Definition leftSpineX : Q := x trimBox + bookWidthPts.
Definition rightSpineX : Q := leftSpineX + spineWidthPts.



Definition centerBackX : Q := x trimBox + bookWidthPts / 2.
Definition centerFrontX : Q := rightSpineX + bookWidthPts / 2.
End Template.

End CoverTemplate.

(** ** Saved imposition presets *)

Module Presets.

Section Hook.
(** The settings of a preset are carried as they are; [toLowerCase] and
    [trim] are the string methods of the language, taken as given. *)
Variable ImpositionSettings : Type.
Variables (toLowerCase trim : string -> string).

Record ImpositionPreset := { settings : ImpositionSettings; name : string }.

(** [p => p.name.toLowerCase() === name.toLowerCase()] *)
Definition sameName (n : string) (p : ImpositionPreset) : bool :=
  String.eqb (toLowerCase (name p)) (toLowerCase n).

(** [currentPresets.findIndex(...)]: [None] stands for [-1]. *)
Fixpoint findIndex (f : ImpositionPreset -> bool) (l : list ImpositionPreset)
  : option nat :=
  match l with
  | [] => None
  | p :: tl => if f p then Some O
               else match findIndex f tl with
                    | Some i => Some (S i)
                    | None => None
                    end
  end.

(** [updated = [...l]; updated[i] = v] for an index inside the array. *)
Fixpoint replaceAt (l : list ImpositionPreset) (i : nat) (v : ImpositionPreset)
  : list ImpositionPreset :=
  match l, i with
  | [], _ => []
  | _ :: tl, O => v :: tl
  | p :: tl, S j => p :: replaceAt tl j v
  end.

(** The new state of [presets] after [savePreset(name, settings)]; a blank
    name raises an alert and leaves the state alone. *)
Definition savePreset (n : string) (s : ImpositionSettings)
           (currentPresets : list ImpositionPreset) : list ImpositionPreset :=
  if String.eqb (trim n) "" then currentPresets
  else
    let newPreset := {| settings := s; name := n |} in
    match findIndex (sameName n) currentPresets with
    | Some existingIndex => replaceAt currentPresets existingIndex newPreset
    | None => currentPresets ++ [newPreset]
    end.

Definition deletePreset (n : string) (currentPresets : list ImpositionPreset)
  : list ImpositionPreset :=
  filter (fun p => negb (sameName n p)) currentPresets.

(** [presets.find(p => p.name === presetName)], which matches the name
    exactly. *)
Definition findPreset (presetName : string) (presets : list ImpositionPreset)
  : option ImpositionPreset :=
  find (fun p => String.eqb (name p) presetName) presets.

(** [handleLoadPreset(presetName)]: the preset whose settings are applied to
    the form, if any.  The name [custom] is the entry of the drop-down for
    settings that belong to no preset: for it the function returns before it
    looks the name up. *)
Definition handleLoadPreset (presetName : string) (presets : list ImpositionPreset)
  : option ImpositionPreset :=
  if String.eqb presetName "custom" then None
  else findPreset presetName presets.

(** [handleDeletePreset()] for the active preset name, the user having
    confirmed: nothing is deleted while the active name is [custom]. *)
Definition handleDeletePreset (activePresetName : string)
           (presets : list ImpositionPreset) : list ImpositionPreset :=
  if String.eqb activePresetName "custom" then presets
  else deletePreset activePresetName presets.
End Hook.

End Presets.

(** ** Crop marks *)

Module Marks.

Local Open Scope Q_scope.






Section Sheet.
(** One side of a sheet in the non-booklet placement loops. *)
Variables (slotPositions : list Layout.Position)
          (layoutCellWidth layoutCellHeight bleedPoints : Q)
          (columns rows : Z).




End Sheet.


End Marks.

(** ** The preview's cache of rendered pages *)

Module PageCache.

Definition MAX_PAGE_CACHE_SIZE : nat := 20.

(** The three refs of the component: the keys of [pageRenderCacheRef] (a
    [Map], in insertion order; the canvases it holds play no part in the
    bookkeeping), the array [pageRenderLruRef] and the set
    [pinnedPagesRef]. *)
Record State := {
  pageRenderCache : list Z;
  pageRenderLru : list Z;
  pinnedPages : list Z
}.

Definition empty : State :=
  {| pageRenderCache := []; pageRenderLru := []; pinnedPages := [] |}.

(** [map.has(k)], [map.set(k, v)] or [set.add(k)], and [delete(k)], on the
    keys. *)
Definition has (keys : list Z) (k : Z) : bool := existsb (Z.eqb k) keys.
Definition add (keys : list Z) (k : Z) : list Z :=
  if has keys k then keys else keys ++ [k].
Definition delete (keys : list Z) (k : Z) : list Z :=
  filter (fun q => negb (q =? k)%Z) keys.

(** [i = arr.indexOf(k); if (i !== -1) arr.splice(i, 1)] *)
Fixpoint removeFirst (arr : list Z) (k : Z) : list Z :=
  match arr with
  | [] => []
  | q :: tl => if (q =? k)%Z then tl else q :: removeFirst tl k
  end.

(** Moving a page to the recent end of the LRU array. *)
Definition touch (arr : list Z) (k : Z) : list Z := removeFirst arr k ++ [k].

(** The branch of [getCachedPage] for a page the cache has. *)
Definition hit (st : State) (pageIndex : Z) : State :=
  {| pageRenderCache := pageRenderCache st;
     pageRenderLru := touch (pageRenderLru st) pageIndex;
     pinnedPages := pinnedPages st |}.

(** The eviction loop: the first page of the LRU array that is not pinned
    is spliced out; [None] when every page of the array is pinned. *)
Fixpoint evictUnpinned (pinned lru : list Z) : option (Z * list Z) :=
  match lru with
  | [] => None
  | oldestPageIndex :: tl =>
      if has pinned oldestPageIndex
      then match evictUnpinned pinned tl with
           | Some (evicted, tl') => Some (evicted, oldestPageIndex :: tl')
           | None => None
           end
      else Some (oldestPageIndex, tl)
  end.

(** [if (cache.size >= MAX_PAGE_CACHE_SIZE) { ... }]: evict one page that
    is not pinned, or else shift the oldest page out, pinned or not. *)
Definition makeRoom (st : State) : State :=
  if (MAX_PAGE_CACHE_SIZE <=? List.length (pageRenderCache st))%nat
  then
    match evictUnpinned (pinnedPages st) (pageRenderLru st) with
    | Some (oldestPageIndex, lru') =>
        {| pageRenderCache := delete (pageRenderCache st) oldestPageIndex;
           pageRenderLru := lru';
           pinnedPages := pinnedPages st |}
    | None =>
        match pageRenderLru st with
        | oldestPageIndex :: rest =>
            {| pageRenderCache := delete (pageRenderCache st) oldestPageIndex;
               pageRenderLru := rest;
               pinnedPages := delete (pinnedPages st) oldestPageIndex |}
        | [] => st
        end
    end
  else st.

(** What [getCachedPage] does once a page has been rendered, from the size
    check to the return: no [await] separates these statements, so they run
    as one step. *)
Definition store (st : State) (pageIndex : Z) : State :=
  let st1 := makeRoom st in
  if (List.length (pageRenderCache st1) <? MAX_PAGE_CACHE_SIZE)%nat
  then {| pageRenderCache := add (pageRenderCache st1) pageIndex;
          pageRenderLru := pageRenderLru st1 ++ [pageIndex];
          pinnedPages := pinnedPages st1 |}
  else st1.

Definition pin (st : State) (pageIndex : Z) : State :=
  {| pageRenderCache := pageRenderCache st;
     pageRenderLru := pageRenderLru st;
     pinnedPages := add (pinnedPages st) pageIndex |}.

Definition unpin (st : State) (pageIndex : Z) : State :=
  {| pageRenderCache := pageRenderCache st;
     pageRenderLru := pageRenderLru st;
     pinnedPages := delete (pinnedPages st) pageIndex |}.

(** The steps the component takes on the cache.  Renderings overlap: a
    rendering started for a page that was missing may complete, and store
    the page, after any number of other steps, also when the page has been
    stored by another rendering in between. *)
Inductive step (st : State) : State -> Prop :=
| step_hit pageIndex :
    has (pageRenderCache st) pageIndex = true -> step st (hit st pageIndex)
| step_store pageIndex : step st (store st pageIndex)
| step_pin pageIndex : step st (pin st pageIndex)
| step_unpin pageIndex : step st (unpin st pageIndex)
| step_pin_cached pageIndex :
    has (pageRenderCache st) pageIndex = true ->
    step st (hit (pin st pageIndex) pageIndex)
| step_clear : step st empty.

Inductive reachable : State -> Prop :=
| reachable_empty : reachable empty
| reachable_step st st' : reachable st -> step st st' -> reachable st'.

End PageCache.

(** ** JavaScript numbers as binary64 doubles *)

Module Double.
Import PrimFloat.

(** The double of an integer [z] with [|z| < 2^53], which holds it exactly. *)
Definition ofZ (z : Z) : float :=
  if (z <? 0)%Z then opp (of_uint63 (Uint63.of_Z (- z)))
  else of_uint63 (Uint63.of_Z z).

(** The double nearest to the rational [n / d], for [n] and [d] that doubles
    hold exactly: one correctly rounded division.  This is the value of a
    decimal literal of the source with the digits [n] and the scale [d]. *)
Definition ofQ (q : Q) : float := div (ofZ (Qnum q)) (ofZ (Z.pos (Qden q))).

(** [Math.floor(x)]: infinities, NaN and zeros are returned as they are. *)
Definition floor (x : float) : float :=
  match FloatOps.Prim2SF x with
  | SpecFloat.S754_finite s m e =>
      if (0 <=? e)%Z then x
      else
        let d := (2 ^ (- e))%Z in
        let q := (Z.pos m / d)%Z in
        if s then (if (Z.pos m mod d =? 0)%Z then ofZ (- q) else ofZ (- (q + 1)))
        else ofZ q
  | _ => x
  end.

(** [Math.ceil(x)] *)
Definition ceil (x : float) : float := opp (floor (opp x)).

(** [Math.max(a, b)] and [Math.min(a, b)]: NaN is contagious, and [+0]
    counts as larger than [-0]. *)
Definition max2 (a b : float) : float :=
  if is_nan a || is_nan b then nan
  else if ltb a b then b
  else if ltb b a then a
  else if is_zero a then add a b else a.

Definition min2 (a b : float) : float :=
  if is_nan a || is_nan b then nan
  else if ltb b a then b
  else if ltb a b then a
  else if is_zero a then opp (add (opp a) (opp b)) else a.

(** [Math.max(...xs)], which is [-Infinity] on no argument. *)
Definition max (xs : list float) : float := fold_left max2 xs neg_infinity.

(** The rational a finite double stands for. *)
Definition exact (x : float) : option Q :=
  match FloatOps.Prim2SF x with
  | SpecFloat.S754_zero _ => Some 0%Q
  | SpecFloat.S754_finite s m e =>
      let v := if (0 <=? e)%Z then inject_Z (Z.pos m * 2 ^ e)
               else (Z.pos m # Pos.pow 2 (Z.to_pos (- e)))%Q in
      Some (if s then (- v)%Q else v)
  | _ => None
  end.

End Double.

(** ** The packer in double arithmetic *)

(** [calculateShipping] once more, statement by statement as in [Shipping],
    with every number a double and every operation rounded as the language
    rounds it. *)
Module Shipping64.
Import PrimFloat.

Record FlatBox := {
  flatName : string;
  flatWidth : float;
  flatLength : float;
  flatHeight : float;
  flatCost : float
}.

(** The catalog of [Shipping], its decimal literals read as doubles. *)
Definition ofFlatBox (box : Shipping.FlatBox) : FlatBox :=
  {| flatName := Shipping.flatName box;
     flatWidth := Double.ofQ (Shipping.flatWidth box);
     flatLength := Double.ofQ (Shipping.flatLength box);
     flatHeight := Double.ofQ (Shipping.flatHeight box);
     flatCost := Double.ofQ (Shipping.flatCost box) |}.

Definition flatBoxes : list FlatBox := map ofFlatBox Shipping.flatBoxes.

Definition MAX_WEIGHT_PER_BOX_LBS : float := 40%float.

Definition getCarrierCost (totalWeightLbs : float) : float :=
  if leb totalWeightLbs 0%float then 0%float
  else if leb totalWeightLbs 1%float then 9.5%float
  else if leb totalWeightLbs 5%float then 12%float
  else if leb totalWeightLbs 10%float then 15%float
  else if leb totalWeightLbs 20%float then 20%float
  else if leb totalWeightLbs 30%float then 28%float
  else if leb totalWeightLbs 40%float then 35%float
  else if leb totalWeightLbs 50%float then 42%float
  else add 42%float (mul (sub totalWeightLbs 50%float) 0.75%float).

Record ShippingBreakdown := {
  boxName : string;
  boxCount : float;
  booksPerBox : float;
  totalWeightLbs : float
}.

Record BestOption := {
  bestCost : float;
  bestBreakdown : option ShippingBreakdown
}.

(** [[a, b, c].sort((x, y) => y - x)]: descending order. *)
Fixpoint insertDesc (x : float) (l : list float) : list float :=
  match l with
  | [] => [x]
  | y :: tl => if leb y x then x :: l else y :: insertDesc x tl
  end.

Definition sortDesc (l : list float) : list float := fold_right insertDesc [] l.

Section Packer.
Variables (quantity bookWidth bookLength bookSpine bookWeightLbs : float)
          (overrideBoxName : option string).

(** [Math.floor(X / x)] for a box side [X] and a book side [x]. *)
Definition across (X x : float) : float := Double.floor (div X x).

Definition orientations (box : FlatBox) : list float :=
  let w := bookWidth in let l := bookLength in let s := bookSpine in
  let W := flatWidth box in let L := flatLength box in let H := flatHeight box in
  [ mul (mul (across W w) (across L l)) (across H s);
    mul (mul (across W w) (across L s)) (across H l);
    mul (mul (across W l) (across L w)) (across H s);
    mul (mul (across W l) (across L s)) (across H w);
    mul (mul (across W s) (across L w)) (across H l);
    mul (mul (across W s) (across L l)) (across H w) ].

(** [bookDims[i] > boxDims[i]] for some [i]. *)
Definition tooLarge (box : FlatBox) : bool :=
  let bookDims := sortDesc [bookWidth; bookLength; bookSpine] in
  let boxDims := sortDesc [flatWidth box; flatLength box; flatHeight box] in
  ltb (nth 0%nat boxDims 0%float) (nth 0%nat bookDims 0%float)
  || ltb (nth 1%nat boxDims 0%float) (nth 1%nat bookDims 0%float)
  || ltb (nth 2%nat boxDims 0%float) (nth 2%nat bookDims 0%float).

(** One round of [for (const box of boxesToConsider)]. *)
Definition considerBox (bestOption : BestOption) (box : FlatBox) : BestOption :=
  if tooLarge box then bestOption
  else
    let booksPerBox := Double.max (orientations box) in
    if eqb booksPerBox 0%float then bestOption
    else
      let maxBooksByWeight := Double.floor (div MAX_WEIGHT_PER_BOX_LBS bookWeightLbs) in
      if ltb 0%float maxBooksByWeight
      then
        let booksPerBox := Double.min2 booksPerBox maxBooksByWeight in
        let boxCount := Double.ceil (div quantity booksPerBox) in
        let handlingCost := mul boxCount (flatCost box) in
        let totalWeightLbs := mul quantity bookWeightLbs in
        let carrierCost := getCarrierCost totalWeightLbs in
        let totalCost := add handlingCost carrierCost in
        if ltb totalCost (bestCost bestOption)
        then {| bestCost := totalCost;
                bestBreakdown :=
                  Some {| boxName := flatName box; boxCount := boxCount;
                          booksPerBox := booksPerBox;
                          totalWeightLbs := totalWeightLbs |} |}
        else bestOption
      else bestOption.

Definition boxesToConsider : list FlatBox :=
  match overrideBoxName with
  | Some n =>
      if String.eqb n "" then flatBoxes
      else filter (fun box => String.eqb (flatName box) n) flatBoxes
  | None => flatBoxes
  end.

Record ShippingResult := {
  shippingCost : float;
  breakdown : option ShippingBreakdown
}.

Definition calculateShipping : ShippingResult :=
  if leb quantity 0%float || leb bookWeightLbs 0%float
  then {| shippingCost := 0%float; breakdown := None |}
  else
    let bestOption :=
      fold_left considerBox boxesToConsider
                {| bestCost := infinity; bestBreakdown := None |} in
    {| shippingCost := if eqb (bestCost bestOption) infinity
                       then 0%float else bestCost bestOption;
       breakdown := bestBreakdown bestOption |}.
End Packer.

End Shipping64.

(** ** The sheet count as the number the engine computes *)

(** [Imposition.totalPhysicalSheets] is the engine's sheet count on a grid
    that has slots.  On a grid without slots ([columns * rows = 0]) the
    quotients of the stack and collate-cut branches are divisions by zero,
    which the language answers by Infinity or NaN: here the count is computed
    once more as a number that can leave the finite range. *)
Module SheetCount.

Definition ofZ (z : Z) : Num.num := Num.Fin (inject_Z z).

Definition totalPhysicalSheets (impositionType : ImpositionType)
           (columns rows : Z) (isDuplex : bool) (numInputPages : Z) : Num.num :=
  let slotsPerSheet := Imposition.slotsPerSheet impositionType columns rows in
  let n := ofZ numInputPages in
  let t :=
    match impositionType with
    | booklet =>
        let paddedPageCount := Num.mul (Num.ceil (Num.div n (ofZ 4))) (ofZ 4) in
        Num.div paddedPageCount (ofZ 4)
    | repeat_ => if isDuplex then Num.ceil (Num.div n (ofZ 2)) else n
    | stack =>
        Num.ceil (Num.div n (ofZ (slotsPerSheet * (if isDuplex then 2 else 1))))
    | collateCut =>
        let pagesPerLogicalStack := Num.ceil (Num.div n (ofZ slotsPerSheet)) in
        if isDuplex then Num.ceil (Num.div pagesPerLogicalStack (ofZ 2))
        else pagesPerLogicalStack
    end in
  if Num.eqb t (ofZ 0) && (0 <? numInputPages)%Z then ofZ 1 else t.

End SheetCount.

(** * Verification *)

(** ** Index arithmetic and array lemmas *)

(** Boolean comparisons on [Z] turned into propositions, and case splits on
    the comparisons that guard the goal. *)
Ltac zbool :=
  repeat match goal with
    | H : (_ <? _) = true |- _ => apply Z.ltb_lt in H
    | H : (_ <? _) = false |- _ => apply Z.ltb_ge in H
    | H : (_ <=? _) = true |- _ => apply Z.leb_le in H
    | H : (_ <=? _) = false |- _ => apply Z.leb_gt in H
    | H : (_ =? _) = true |- _ => apply Z.eqb_eq in H
    | H : (_ =? _) = false |- _ => apply Z.eqb_neq in H
    end.

Ltac zcases :=
  repeat match goal with
    | |- context [?a <? ?b] => destruct (Z.ltb_spec a b)
    | |- context [?a <=? ?b] => destruct (Z.leb_spec a b)
    | |- context [?a =? ?b] => destruct (Z.eqb_spec a b)
    end; cbn [andb orb negb]; try reflexivity; try lia.

Lemma seqZ_length n : List.length (seqZ n) = Z.to_nat n.
Proof. unfold seqZ. now rewrite length_map, length_seq. Qed.

Lemma nth_map_seqZ {A} (f : Z -> A) n k d :
  (k < Z.to_nat n)%nat -> nth k (map f (seqZ n)) d = f (Z.of_nat k).
Proof.
  intros Hk. unfold seqZ. rewrite map_map.
  rewrite (nth_indep _ d (f (Z.of_nat 0))) by now rewrite length_map, length_seq.
  rewrite (map_nth (fun x => f (Z.of_nat x))).
  now rewrite seq_nth.
Qed.

Lemma in_seqZ n i : In i (seqZ n) <-> 0 <= i < n.
Proof.
  unfold seqZ. rewrite in_map_iff. split.
  - intros (k & <- & Hk). apply in_seq in Hk. lia.
  - intros Hi. exists (Z.to_nat i). split; [lia|]. apply in_seq. lia.
Qed.

Lemma seqZ_succ n : 0 <= n -> seqZ (n + 1) = seqZ n ++ [n].
Proof.
  intros Hn. unfold seqZ.
  replace (Z.to_nat (n + 1)) with (S (Z.to_nat n)) by lia.
  rewrite seq_S, map_app. simpl. f_equal. f_equal. lia.
Qed.

Lemma seqZ_nonpos n : n <= 0 -> seqZ n = [].
Proof. intros Hn. unfold seqZ. now replace (Z.to_nat n) with 0%nat by lia. Qed.

Lemma at_map_seqZ {A} (f : Z -> option A) n i :
  at_ (map f (seqZ n)) i = if (0 <=? i) && (i <? n) then f i else None.
Proof.
  unfold at_.
  destruct (i <? 0) eqn:Hneg.
  - apply Z.ltb_lt in Hneg.
    replace (0 <=? i) with false by (symmetry; apply Z.leb_gt; lia). reflexivity.
  - apply Z.ltb_ge in Hneg.
    replace (0 <=? i) with true by (symmetry; apply Z.leb_le; lia). simpl.
    destruct (i <? n) eqn:Hlt.
    + apply Z.ltb_lt in Hlt. rewrite nth_map_seqZ by lia. f_equal. lia.
    + apply Z.ltb_ge in Hlt. apply nth_overflow.
      rewrite length_map, seqZ_length. lia.
Qed.

Lemma nth_flat_map_rows {A B} (f : A -> list B) (C : nat) (xs : list A) :
  (forall x, In x xs -> List.length (f x) = C) ->
  forall r c dx d, (r < List.length xs)%nat -> (c < C)%nat ->
    nth (r * C + c) (flat_map f xs) d = nth c (f (nth r xs dx)) d.
Proof.
  induction xs as [|x xs IH]; intros Hlen r c dx d Hr Hc; simpl in *; [lia|].
  destruct r as [|r].
  - simpl. rewrite app_nth1; [reflexivity|]. rewrite Hlen by auto. exact Hc.
  - rewrite app_nth2 by (rewrite Hlen by auto; simpl; lia).
    rewrite Hlen by auto.
    replace (S r * C + c - C)%nat with (r * C + c)%nat by (simpl; lia).
    apply IH; auto. lia.
Qed.

Lemma slice_length {A} (l : list A) a b :
  (Z.to_nat b <= List.length l)%nat ->
  List.length (slice l a b) = (Z.to_nat b - Z.to_nat a)%nat.
Proof. intros H. unfold slice. rewrite length_firstn, length_skipn. lia. Qed.

Lemma nth_slice {A} (l : list A) a b j d :
  (j < Z.to_nat b - Z.to_nat a)%nat ->
  nth j (slice l a b) d = nth (Z.to_nat a + j) l d.
Proof.
  intros Hj. unfold slice. rewrite nth_firstn.
  replace (j <? Z.to_nat b - Z.to_nat a)%nat with true
    by (symmetry; apply Nat.ltb_lt; exact Hj).
  apply nth_skipn.
Qed.

(** Work-and-turn: slot [(r, c)] of the reversed array holds what slot
    [(r, columns - 1 - c)] of the original array held. *)
Lemma reverseRows_nth {A} (columns rows : Z) (l : list A) r c d :
  List.length l = Z.to_nat (rows * columns) ->
  0 <= r < rows -> 0 <= c < columns ->
  nth (Z.to_nat (r * columns + c)) (reverseRows columns rows l) d
  = nth (Z.to_nat (r * columns + (columns - 1 - c))) l d.
Proof.
  intros Hlen Hr Hc. unfold reverseRows.
  assert (Hrow : forall x, In x (seqZ rows) ->
            List.length (rev (slice l (x * columns) ((x + 1) * columns)))
            = Z.to_nat columns).
  { intros x Hx. apply in_seqZ in Hx. rewrite length_rev, slice_length; nia. }
  replace (Z.to_nat (r * columns + c))
    with (Z.to_nat r * Z.to_nat columns + Z.to_nat c)%nat by nia.
  rewrite (nth_flat_map_rows _ (Z.to_nat columns) _ Hrow _ _ 0 d)
    by (rewrite ?seqZ_length; lia).
  replace (nth (Z.to_nat r) (seqZ rows) 0) with r.
  2:{ pose proof (nth_map_seqZ (fun z => z) rows (Z.to_nat r) 0) as E.
      rewrite map_id in E. rewrite E by lia. lia. }
  rewrite rev_nth by (rewrite slice_length; nia).
  rewrite slice_length by nia.
  rewrite nth_slice by nia.
  f_equal. nia.
Qed.

Lemma reverseRows_length {A} (columns rows : Z) (l : list A) :
  0 <= columns -> 0 <= rows ->
  List.length l = Z.to_nat (rows * columns) ->
  List.length (reverseRows columns rows l) = Z.to_nat (rows * columns).
Proof.
  intros Hc Hr Hlen. unfold reverseRows.
  rewrite length_flat_map.
  assert (H : forall n, 0 <= n <= rows ->
            list_sum (map (fun x => List.length
                (rev (slice l (x * columns) ((x + 1) * columns)))) (seqZ n))
            = Z.to_nat (n * columns)).
  { intros n [Hn0 Hn]. revert Hn. pattern n.
    apply natlike_ind; [reflexivity| |exact Hn0].
    intros x Hx IH Hle. unfold Z.succ. rewrite seqZ_succ by exact Hx.
    rewrite map_app, list_sum_app, IH by lia. simpl.
    rewrite length_rev, slice_length by nia. nia. }
  apply H. lia.
Qed.

Lemma find_app_first {A} (f : A -> bool) l1 l2 :
  find f (l1 ++ l2) = match find f l1 with Some x => Some x | None => find f l2 end.
Proof. induction l1 as [|x l1 IH]; simpl; [reflexivity|]. now destruct (f x). Qed.

Lemma pageAtSlot_drawSlots pages n s :
  Imposition.pageAtSlot (Imposition.drawSlots pages n) s
  = if (0 <=? s) && (s <? n) then at_ pages s else None.
Proof.
  destruct (Z.le_gt_cases 0 n) as [Hn|Hn].
  - revert s. pattern n. apply natlike_ind; [| |exact Hn].
    + intros s. simpl. zcases.
    + intros x Hx IH s. unfold Z.succ.
      unfold Imposition.drawSlots, Imposition.pageAtSlot in *.
      rewrite seqZ_succ, flat_map_app, find_app_first by exact Hx.
      specialize (IH s).
      destruct (find (fun d : Z * Z => fst d =? s)
                  (flat_map (fun slotIndex : Z =>
                     match at_ pages slotIndex with
                     | Some p => [(slotIndex, p)]
                     | None => []
                     end) (seqZ x))) as [d|] eqn:Hfind.
      * simpl in IH |- *. rewrite IH.
        destruct (0 <=? s) eqn:E1, (s <? x) eqn:E2; simpl in *; try discriminate.
        now replace (s <? x + 1) with true by (symmetry; apply Z.ltb_lt; lia).
      * simpl in IH. simpl flat_map. rewrite app_nil_r.
        destruct (Z.eq_dec s x) as [->|Hne].
        -- replace (0 <=? x) with true by (symmetry; apply Z.leb_le; lia).
           replace (x <? x + 1) with true by (symmetry; apply Z.ltb_lt; lia).
           simpl. destruct (at_ pages x) as [p|]; simpl; [|reflexivity].
           now rewrite Z.eqb_refl.
        -- assert (Hnone : find (fun d : Z * Z => fst d =? s)
                     match at_ pages x with
                     | Some p => [(x, p)]
                     | None => []
                     end = None).
           { destruct (at_ pages x); simpl; [|reflexivity].
             now replace (x =? s) with false by (symmetry; apply Z.eqb_neq; lia). }
           rewrite Hnone. simpl.
           destruct (0 <=? s) eqn:E1; simpl in *; [|reflexivity].
           destruct (s <? x) eqn:E2.
           ++ now replace (s <? x + 1) with true by (symmetry; apply Z.ltb_lt; lia).
           ++ now replace (s <? x + 1) with false by (symmetry; apply Z.ltb_ge; lia).
  - unfold Imposition.drawSlots. rewrite seqZ_nonpos by lia. simpl.
    zcases.
Qed.

Lemma ceil_div_spec a b : 0 < b -> a <= b * ceil_div a b < a + b.
Proof.
  intros Hb. unfold ceil_div.
  pose proof (Z.div_mod (- a) b ltac:(lia)) as E.
  pose proof (Z.mod_pos_bound (- a) b Hb) as B.
  nia.
Qed.

(** ** Booklet pagination *)

(** C1. Booklet mode, [P] input pages, [padded = 4 * ceil(P / 4)]: on every
    signature [k] in [0 .. padded/4 - 1] the engine draws page
    [padded - 2k - 1] on the left slot and page [2k] on the right slot of the
    front, page [2k + 1] on the left and [padded - 2k - 2] on the right of the
    back, a slot whose index is [>= P] staying blank; the preview mapping
    agrees; and the four indices add up to [2 * padded - 2]. *)
Theorem booklet_signature_assignment
  (columns rows : Z) (isDuplex : bool) (P k : Z) :
  0 < P ->
  let padded := 4 * ceil_div P 4 in
  0 <= k <= padded / 4 - 1 ->
  let page i := if i <? P then Some i else None in
  Imposition.paddedPageCount booklet P = padded
  /\ Imposition.totalPhysicalSheets booklet columns rows isDuplex P = padded / 4
  /\ Imposition.pageAtSlot (Imposition.drawnFront booklet columns rows isDuplex P k) 0
     = page (padded - 2 * k - 1)
  /\ Imposition.pageAtSlot (Imposition.drawnFront booklet columns rows isDuplex P k) 1
     = page (2 * k)
  /\ (exists back,
        Imposition.drawnBack booklet columns rows isDuplex P k = Some back
        /\ Imposition.pageAtSlot back 0 = page (2 * k + 1)
        /\ Imposition.pageAtSlot back 1 = page (padded - 2 * k - 2))
  /\ Preview.getPageMappingForSheet k true booklet 2 1 isDuplex P
     = [page (padded - 2 * k - 1); page (2 * k)]
  /\ Preview.getPageMappingForSheet k false booklet 2 1 isDuplex P
     = [page (2 * k + 1); page (padded - 2 * k - 2)]
  /\ Imposition.pageIndexFL booklet P k + Imposition.pageIndexFR k
     + Imposition.pageIndexBL k + Imposition.pageIndexBR booklet P k
     = 2 * padded - 2.
Proof.
  intros HP padded Hk page.
  pose proof (ceil_div_spec P 4 ltac:(lia)) as Hc.
  assert (Hdiv : padded / 4 = ceil_div P 4)
    by (unfold padded; rewrite Z.mul_comm; apply Z.div_mul; lia).
  assert (Hpad : Imposition.paddedPageCount booklet P = padded)
    by (unfold Imposition.paddedPageCount, padded; cbn [isBooklet]; lia).
  rewrite Hdiv in Hk.
  assert (Hpd : padded = 4 * ceil_div P 4) by reflexivity.
  clearbody padded.
  split; [exact Hpad|].
  split.
  { unfold Imposition.totalPhysicalSheets. rewrite Hpad, Hdiv. zcases. }
  assert (Hfront : Imposition.pagesForFront booklet columns rows isDuplex P k
                   = [page (padded - 2 * k - 1); page (2 * k)]).
  { unfold Imposition.pagesForFront, Imposition.pageIndexFL, Imposition.pageIndexFR.
    rewrite Hpad. unfold Imposition.inputPages, page.
    f_equal; [|f_equal]; zcases; f_equal; lia. }
  assert (Hback : Imposition.pagesForBack booklet columns rows P k
                  = [page (2 * k + 1); page (padded - 2 * k - 2)]).
  { unfold Imposition.pagesForBack, Imposition.pageIndexBL, Imposition.pageIndexBR.
    rewrite Hpad. unfold Imposition.inputPages, page.
    f_equal; [|f_equal]; zcases; f_equal; lia. }
  unfold Imposition.drawnFront, Imposition.drawnBack. simpl isBooklet. cbv iota.
  rewrite Hfront, Hback.
  split; [now rewrite pageAtSlot_drawSlots|].
  split; [now rewrite pageAtSlot_drawSlots|].
  split.
  { eexists. split; [reflexivity|]. now rewrite !pageAtSlot_drawSlots. }
  unfold Preview.getPageMappingForSheet, Preview.pageIndicesForSlots,
    Preview.bookletIndices, Preview.slotsPerSheet, Preview.inRange.
  replace (P =? 0) with false by (symmetry; apply Z.eqb_neq; lia).
  replace (ceil_div P 4 * 4) with padded by lia.
  change (2 * 1) with 2. change (2 =? 0) with false.
  cbn [orb negb andb isStackOrCollate]. rewrite andb_false_r.
  replace (k * 2) with (2 * k) by lia. unfold page.
  split; [|split].
  - zcases; reflexivity.
  - zcases; reflexivity.
  - unfold Imposition.pageIndexFL, Imposition.pageIndexFR,
      Imposition.pageIndexBL, Imposition.pageIndexBR. rewrite Hpad. lia.
Qed.

Lemma booklet_signature_assignment_witness :
  Imposition.pageAtSlot (Imposition.drawnFront booklet 2 1 true 14 0) 0 = None
  /\ Imposition.pageAtSlot (Imposition.drawnFront booklet 2 1 true 14 3) 1 = Some 6.
Proof.
  destruct (booklet_signature_assignment 2 1 true 14 0 ltac:(lia)
              ltac:(vm_compute; split; discriminate))
    as (_ & _ & H0 & _).
  destruct (booklet_signature_assignment 2 1 true 14 3 ltac:(lia)
              ltac:(vm_compute; split; discriminate))
    as (_ & _ & _ & H1 & _).
  split; [exact H0 | exact H1].
Defined.

(** C4, as the specification states it, fails: with sixteen pages the first
    sheet's front carries page 15 on slot 0 and page 0 on slot 1 under either
    reading direction, so right-to-left does not hand the left slot what
    left-to-right gave the right slot. *)
Lemma rtl_swaps_booklet_slots_counterexample :
  Imposition.pageAtSlot
    (Imposition.draws (Imposition.bookletFront booklet 2 1 true rtl true 16 0)) 0
  = Some 15
  /\ Imposition.pageAtSlot
       (Imposition.draws (Imposition.bookletFront booklet 2 1 true ltr true 16 0)) 1
     = Some 0
  /\ Imposition.pageAtSlot
       (Imposition.draws (Imposition.bookletFront booklet 2 1 true rtl true 16 0)) 0
     <> Imposition.pageAtSlot
          (Imposition.draws (Imposition.bookletFront booklet 2 1 true ltr true 16 0)) 1.
Proof. repeat split; try reflexivity. vm_compute. discriminate. Qed.

(** C4, amended.  In booklet mode the reading direction leaves the
    page-to-slot assignment of both sides untouched; it only flips, on every
    drawn slot, the side that carries the spine marking. *)
Theorem rtl_only_flips_booklet_spine
  (columns rows : Z) (isDuplex showSpineMarks : bool) (P k : Z) :
  let flip := map (fun m : Z * bool => (fst m, negb (snd m))) in
  let front d := Imposition.bookletFront booklet columns rows isDuplex d showSpineMarks P k in
  let back d := Imposition.bookletBack booklet columns rows d showSpineMarks P k in
  Imposition.draws (front rtl) = Imposition.draws (front ltr)
  /\ Imposition.draws (back rtl) = Imposition.draws (back ltr)
  /\ Imposition.spineMarks (front rtl) = flip (Imposition.spineMarks (front ltr))
  /\ Imposition.spineMarks (back rtl) = flip (Imposition.spineMarks (back ltr)).
Proof.
  intros flip front back. unfold front, back, flip.
  unfold Imposition.bookletFront, Imposition.bookletBack,
    Imposition.bookletSpineMarks. cbn [Imposition.draws Imposition.spineMarks].
  repeat split; destruct showSpineMarks; try reflexivity;
    rewrite map_map; apply map_ext; intros [i p]; cbn [fst snd];
    unfold Imposition.isSpineOnLeft; now rewrite ?negb_involutive.
Qed.

(** ** Work-and-turn and the back-side guard *)

Lemma some_false_iff {A} (l : list (option A)) :
  some l = false <-> forall x, In x l -> x = None.
Proof.
  unfold some. split.
  - intros H x Hx. destruct x as [a|]; [|reflexivity].
    assert (Hex : existsb (fun p : option A =>
                    match p with Some _ => true | None => false end) l = true)
      by (apply existsb_exists; exists (Some a); auto).
    congruence.
  - intros H. destruct (existsb _ l) eqn:E; [|reflexivity].
    apply existsb_exists in E. destruct E as (x & Hx & Hs).
    rewrite (H x Hx) in Hs. discriminate.
Qed.

Lemma at_in_or_none {A} (l : list (option A)) i :
  at_ l i = None \/ In (at_ l i) l.
Proof.
  unfold at_. destruct (i <? 0); [now left|].
  destruct (Nat.lt_ge_cases (Z.to_nat i) (List.length l)) as [H|H].
  - right. now apply nth_In.
  - left. now apply nth_overflow.
Qed.

Lemma some_false_at {A} (l : list (option A)) i :
  some l = false -> at_ l i = None.
Proof.
  intros H. destruct (at_in_or_none l i) as [E|E]; [exact E|].
  exact (proj1 (some_false_iff l) H _ E).
Qed.

Lemma in_slice {A} (l : list A) a b x : In x (slice l a b) -> In x l.
Proof.
  unfold slice. intros H.
  rewrite <- (firstn_skipn (Z.to_nat a) l). apply in_or_app. right.
  rewrite <- (firstn_skipn (Z.to_nat b - Z.to_nat a) (skipn (Z.to_nat a) l)).
  apply in_or_app. now left.
Qed.

Lemma in_reverseRows {A} columns rows (l : list A) x :
  In x (reverseRows columns rows l) -> In x l.
Proof.
  unfold reverseRows. rewrite in_flat_map. intros (r & _ & Hx).
  apply in_rev in Hx. eapply in_slice; eassumption.
Qed.

Lemma some_false_reverseRows {A} columns rows (l : list (option A)) :
  some l = false -> some (reverseRows columns rows l) = false.
Proof.
  rewrite !some_false_iff. intros H x Hx. apply H.
  eapply in_reverseRows; eassumption.
Qed.

Lemma at_reverseRows {A} (columns rows : Z) (l : list (option A)) r c :
  List.length l = Z.to_nat (columns * rows) ->
  0 <= r < rows -> 0 <= c < columns ->
  at_ (reverseRows columns rows l) (r * columns + c)
  = at_ l (r * columns + (columns - 1 - c)).
Proof.
  intros Hlen Hr Hc. unfold at_.
  replace (r * columns + c <? 0) with false by (symmetry; apply Z.ltb_ge; nia).
  replace (r * columns + (columns - 1 - c) <? 0) with false
    by (symmetry; apply Z.ltb_ge; nia).
  apply reverseRows_nth; auto. now rewrite Z.mul_comm.
Qed.

(** What the engine draws on the back of a duplex, non-booklet sheet is,
    slot by slot, the array [pagesForBackToRender]. *)
Lemma drawnBack_duplex (t : ImpositionType) columns rows P k :
  isBooklet t = false ->
  exists back,
    Imposition.drawnBack t columns rows true P k = Some back
    /\ forall s,
         Imposition.pageAtSlot back s
         = if (0 <=? s) && (s <? columns * rows)
           then at_ (Imposition.pagesForBackToRender t columns rows P k) s
           else None.
Proof.
  intros Hb. unfold Imposition.drawnBack. rewrite Hb.
  eexists. split; [reflexivity|]. intros s.
  destruct (some (Imposition.pagesForBack t columns rows P k)) eqn:Hsome.
  - rewrite pageAtSlot_drawSlots. unfold Imposition.slotsPerSheet. now rewrite Hb.
  - destruct ((0 <=? s) && (s <? columns * rows)); [|reflexivity].
    symmetry. apply some_false_at. unfold Imposition.pagesForBackToRender.
    destruct (isStackOrCollate t && (1 <? columns)); [|exact Hsome].
    now apply some_false_reverseRows.
Qed.

(** ** Stack pagination *)

(** C3. Stack mode, [S = columns * rows].  With duplex on and
    [base = k * S * 2], front slot [i] of sheet [k] receives page
    [base + 2i] and the computed back assignment gives slot [i] page
    [base + 2i + 1] (no page is placed for an index beyond the document);
    when [columns > 1] the back assignments are reversed within each row
    before they are placed.  With duplex off slot [i] receives [k * S + i]. *)
Theorem stack_pagination (columns rows P k i : Z) :
  0 <= k -> 0 <= i < columns * rows ->
  let S := columns * rows in
  let base := k * S * 2 in
  let page j := if j <? P then Some j else None in
  Imposition.pageAtSlot (Imposition.drawnFront stack columns rows true P k) i
  = page (base + 2 * i)
  /\ at_ (Imposition.pagesForBack stack columns rows P k) i
     = page (base + 2 * i + 1)
  /\ Imposition.pagesForBackToRender stack columns rows P k
     = (if 1 <? columns
        then reverseRows columns rows (Imposition.pagesForBack stack columns rows P k)
        else Imposition.pagesForBack stack columns rows P k)
  /\ (1 < columns -> forall r c, 0 <= r < rows -> 0 <= c < columns ->
        at_ (Imposition.pagesForBackToRender stack columns rows P k) (r * columns + c)
        = page (base + 2 * (r * columns + (columns - 1 - c)) + 1))
  /\ (exists back,
        Imposition.drawnBack stack columns rows true P k = Some back
        /\ forall s, 0 <= s < S ->
             Imposition.pageAtSlot back s
             = at_ (Imposition.pagesForBackToRender stack columns rows P k) s)
  /\ Imposition.pageAtSlot (Imposition.drawnFront stack columns rows false P k) i
     = page (k * S + i).
Proof.
  intros Hk Hi S base page.
  assert (Hpage : forall j, 0 <= j -> Imposition.pageOrNull P j = page j).
  { intros j Hj. unfold Imposition.pageOrNull, Imposition.inputPages, page. zcases. }
  assert (Hback : forall s, 0 <= s < S ->
            at_ (Imposition.pagesForBack stack columns rows P k) s
            = page (base + 2 * s + 1)).
  { intros s Hs. unfold Imposition.pagesForBack, Imposition.slotsPerSheet.
    cbn [isBooklet]. rewrite at_map_seqZ. fold S.
    replace ((0 <=? s) && (s <? S)) with true by (symmetry; zcases).
    rewrite Hpage by nia. f_equal. unfold base. lia. }
  split.
  { unfold Imposition.drawnFront. cbn [isBooklet].
    rewrite pageAtSlot_drawSlots. unfold Imposition.slotsPerSheet. cbn [isBooklet].
    fold S. replace ((0 <=? i) && (i <? S)) with true by (symmetry; zcases).
    unfold Imposition.pagesForFront, Imposition.slotsPerSheet. cbn [isBooklet].
    rewrite at_map_seqZ. fold S.
    replace ((0 <=? i) && (i <? S)) with true by (symmetry; zcases).
    rewrite Hpage by nia. f_equal. unfold base. lia. }
  split; [apply Hback; exact Hi|].
  split; [reflexivity|].
  split.
  { intros Hcol r c Hr Hc. unfold Imposition.pagesForBackToRender.
    cbn [isStackOrCollate andb].
    replace (1 <? columns) with true by (symmetry; apply Z.ltb_lt; lia).
    rewrite at_reverseRows; auto.
    - apply Hback. unfold S. nia.
    - unfold Imposition.pagesForBack, Imposition.slotsPerSheet. cbn [isBooklet].
      now rewrite length_map, seqZ_length. }
  split.
  { destruct (drawnBack_duplex stack columns rows P k eq_refl) as (back & Hb & Hs).
    exists back. split; [exact Hb|]. intros s Hin. rewrite Hs. fold S. zcases. }
  unfold Imposition.drawnFront. cbn [isBooklet].
  rewrite pageAtSlot_drawSlots. unfold Imposition.slotsPerSheet. cbn [isBooklet].
  fold S. replace ((0 <=? i) && (i <? S)) with true by (symmetry; zcases).
  unfold Imposition.pagesForFront, Imposition.slotsPerSheet. cbn [isBooklet].
  rewrite at_map_seqZ. fold S.
  replace ((0 <=? i) && (i <? S)) with true by (symmetry; zcases).
  rewrite Hpage by nia. f_equal. lia.
Qed.

Lemma stack_pagination_witness :
  Imposition.pageAtSlot (Imposition.drawnFront stack 2 2 true 16 1) 3 = Some 14
  /\ at_ (Imposition.pagesForBackToRender stack 2 2 16 1) (1 * 2 + 0) = Some 15.
Proof.
  destruct (stack_pagination 2 2 16 1 3 ltac:(lia) ltac:(lia))
    as (H1 & _ & _ & H4 & _).
  split; [exact H1|].
  exact (H4 ltac:(lia) 1 0 ltac:(lia) ltac:(lia)).
Defined.

(** ** The preview mapping against the engine *)

Lemma set_nat_app {A} (l1 l2 : list (option A)) x v :
  set_nat (l1 ++ x :: l2) (List.length l1) v = l1 ++ v :: l2.
Proof. induction l1 as [|y l1 IH]; simpl; [reflexivity|]. now rewrite IH. Qed.

(** A loop that conditionally assigns [arr[i]] for [i = 0 .. n-1] on an array
    of [n] nulls builds the array of the assigned values. *)
Lemma fold_set_filled (h : Z -> option Z) (n : Z) :
  fold_left (fun arr i => match h i with
                          | Some v => set arr i (Some v)
                          | None => arr
                          end) (seqZ n) (filled n)
  = map h (seqZ n).
Proof.
  destruct (Z.le_gt_cases 0 n) as [Hn|Hn].
  2:{ rewrite seqZ_nonpos by lia. unfold filled.
      now replace (Z.to_nat n) with 0%nat by lia. }
  assert (H : forall m, 0 <= m -> m <= n ->
            fold_left (fun arr i => match h i with
                                    | Some v => set arr i (Some v)
                                    | None => arr
                                    end) (seqZ m) (filled n)
            = map h (seqZ m) ++ repeat None (Z.to_nat (n - m))).
  { intros m Hm. pattern m. apply natlike_ind; [| |exact Hm].
    - intros _. simpl. unfold filled. f_equal. lia.
    - intros x Hx IH Hle. unfold Z.succ. rewrite seqZ_succ by exact Hx.
      rewrite fold_left_app, IH by lia. simpl.
      replace (Z.to_nat (n - x)) with (S (Z.to_nat (n - (x + 1)))) by lia.
      rewrite map_app. simpl. rewrite <- app_assoc. simpl.
      destruct (h x) as [v|]; [|reflexivity].
      unfold set. replace (Z.to_nat x) with (List.length (map h (seqZ x)))
        by (rewrite length_map, seqZ_length; reflexivity).
      apply set_nat_app. }
  rewrite H by lia. rewrite Z.sub_diag. simpl. apply app_nil_r.
Qed.

Lemma fold_left_ext_in {A B} (f g : A -> B -> A) (l : list B) :
  (forall a b, In b l -> f a b = g a b) ->
  forall a, fold_left f l a = fold_left g l a.
Proof.
  induction l as [|b l IH]; intros H a; simpl; [reflexivity|].
  rewrite H by (now left). apply IH. intros; apply H; now right.
Qed.

Lemma fillSlots_spec (cols rws P : Z) (f : Z -> Z) :
  Preview.fillSlots cols rws P f (filled (cols * rws))
  = map (fun i => if f i <? P then Some (f i) else None) (seqZ (cols * rws)).
Proof.
  unfold Preview.fillSlots, Preview.slotsPerSheet.
  rewrite <- fold_set_filled. apply fold_left_ext_in.
  intros a b _. now destruct (f b <? P).
Qed.

Lemma ceil_div_pos a b : 0 < a -> 0 < b -> 0 < ceil_div a b.
Proof. intros Ha Hb. pose proof (ceil_div_spec a b Hb). nia. Qed.

Lemma at_out_of_range {A} (l : list (option A)) s :
  s < 0 \/ Z.of_nat (List.length l) <= s -> at_ l s = None.
Proof.
  intros H. unfold at_. destruct (Z.ltb_spec s 0); [reflexivity|].
  apply nth_overflow. lia.
Qed.

(** The arrays of the two implementations, side by side. *)
Lemma preview_array_front (t : ImpositionType) columns rows isDuplex P k :
  isBooklet t = false -> 0 <= k -> 0 < columns -> 0 < rows -> 0 < P ->
  Preview.pageIndicesForSlots k true t columns rows isDuplex P
  = Imposition.pagesForFront t columns rows isDuplex P k.
Proof.
  intros Hb Hk Hc Hr HP.
  assert (HS : 0 < columns * rows) by nia.
  unfold Preview.pageIndicesForSlots, Imposition.pagesForFront,
    Preview.slotsPerSheet, Imposition.slotsPerSheet.
  destruct t; try discriminate; cbn [isBooklet].
  - rewrite fillSlots_spec. apply map_ext_in. intros i Hi. apply in_seqZ in Hi.
    unfold Imposition.pageOrNull, Imposition.inputPages.
    destruct isDuplex; rewrite ?Z.add_0_r; zcases; nia.
  - unfold Imposition.pageOrNull, Imposition.inputPages.
    rewrite Z.add_0_r.
    destruct (Z.ltb_spec (k * (if isDuplex then 2 else 1)) P).
    + replace (0 <=? k * (if isDuplex then 2 else 1)) with true
        by (symmetry; apply Z.leb_le; destruct isDuplex; lia).
      cbn [andb].
      exact (fold_set_filled (fun _ => Some (k * (if isDuplex then 2 else 1)))
               (columns * rows)).
    + unfold filled. rewrite <- (seqZ_length (columns * rows)).
      clear. induction (seqZ (columns * rows)); simpl; congruence.
  - rewrite fillSlots_spec, map_map. apply map_ext_in. intros i Hi.
    apply in_seqZ in Hi.
    rewrite nth_map_seqZ by lia. rewrite Z2Nat.id by lia.
    unfold Imposition.collateSlotsPerColumn, Imposition.slotsPerSheet.
    cbn [isBooklet]. rewrite Z.add_0_r.
    unfold Imposition.pageOrNull, Imposition.inputPages.
    pose proof (ceil_div_pos P (columns * rows) HP HS) as Hc1.
    pose proof (ceil_div_pos _ 2 Hc1 ltac:(lia)) as Hc2.
    destruct isDuplex; zcases; nia.
Qed.

Lemma preview_array_back (t : ImpositionType) columns rows P k :
  isBooklet t = false -> 0 <= k -> 0 < columns -> 0 < rows -> 0 < P ->
  Preview.pageIndicesForSlots k false t columns rows true P
  = Imposition.pagesForBack t columns rows P k.
Proof.
  intros Hb Hk Hc Hr HP.
  assert (HS : 0 < columns * rows) by nia.
  unfold Preview.pageIndicesForSlots, Imposition.pagesForBack,
    Preview.slotsPerSheet, Imposition.slotsPerSheet.
  destruct t; try discriminate; cbn [isBooklet].
  - rewrite fillSlots_spec. apply map_ext_in. intros i Hi. apply in_seqZ in Hi.
    unfold Imposition.pageOrNull, Imposition.inputPages.
    rewrite Z.add_assoc. zcases; nia.
  - unfold Imposition.pageOrNull, Imposition.inputPages.
    destruct (Z.ltb_spec (k * 2 + 1) P).
    + replace (0 <=? k * 2 + 1) with true by (symmetry; apply Z.leb_le; lia).
      cbn [andb].
      exact (fold_set_filled (fun _ => Some (k * 2 + 1)) (columns * rows)).
    + unfold filled. rewrite <- (seqZ_length (columns * rows)).
      clear. induction (seqZ (columns * rows)); simpl; congruence.
  - rewrite fillSlots_spec, map_map. apply map_ext_in. intros i Hi.
    apply in_seqZ in Hi.
    rewrite nth_map_seqZ by lia. rewrite Z2Nat.id by lia.
    unfold Imposition.collateSlotsPerColumn, Imposition.slotsPerSheet.
    cbn [isBooklet].
    unfold Imposition.pageOrNull, Imposition.inputPages.
    pose proof (ceil_div_pos P (columns * rows) HP HS) as Hc1.
    pose proof (ceil_div_pos _ 2 Hc1 ltac:(lia)) as Hc2.
    zcases; nia.
Qed.

Lemma preview_booklet_slots columns rows isDuplex P k (front : bool) s :
  0 < columns -> 0 < rows ->
  at_ (Preview.pageIndicesForSlots k front booklet columns rows isDuplex P) s
  = if (0 <=? s) && (s <? 2)
    then at_ (if front
              then Imposition.pagesForFront booklet columns rows isDuplex P k
              else Imposition.pagesForBack booklet columns rows P k) s
    else None.
Proof.
  intros Hc Hr.
  assert (HS : (0 < Z.to_nat (columns * rows))%nat) by nia.
  unfold Preview.pageIndicesForSlots, Preview.bookletIndices, Preview.inRange,
    Preview.slotsPerSheet, Imposition.pagesForFront, Imposition.pagesForBack,
    Imposition.pageIndexFL, Imposition.pageIndexFR, Imposition.pageIndexBL,
    Imposition.pageIndexBR, Imposition.paddedPageCount, Imposition.inputPages,
    filled.
  cbn [isBooklet].
  destruct (Z.to_nat (columns * rows)) as [|[|n]]; [lia| |];
    destruct front; cbv beta iota zeta;
    repeat match goal with
      | |- context [if (?x && ?y) then _ else _] => destruct (x && y) eqn:?
      end;
    cbn [repeat set set_nat Z.to_nat Pos.to_nat Pos.iter_op Nat.add];
    try (unfold at_; destruct (Z.ltb_spec s 0); [reflexivity|];
         destruct (Z.to_nat s) as [|[|m]] eqn:Es; cbn [nth];
         try reflexivity; try apply nth_repeat; try (now destruct m);
         match goal with
         | H : (0 <=? s) && (s <? 2) = _ |- _ =>
             apply andb_false_iff in H || apply andb_true_iff in H;
             destruct H; zbool; lia
         end).
Qed.

(** C10. For every sheet index, side the engine draws, imposition type, grid,
    duplex flag and non-empty document, the preview's
    [getPageMappingForSheet] (work-and-turn reversal included) names, on every
    slot, exactly the page the engine's placement loop draws there. *)
Theorem preview_mapping_matches_engine
  (t : ImpositionType) (columns rows : Z) (isDuplex : bool) (P k : Z)
  (front : bool) (drawn : list (Z * Z)) :
  0 <= k -> 0 < columns -> 0 < rows -> 0 < P ->
  (if front then Some (Imposition.drawnFront t columns rows isDuplex P k)
   else Imposition.drawnBack t columns rows isDuplex P k) = Some drawn ->
  forall s,
    Imposition.pageAtSlot drawn s
    = at_ (Preview.getPageMappingForSheet k front t columns rows isDuplex P) s.
Proof.
  intros Hk Hc Hr HP Hdrawn s.
  assert (HS : 0 < columns * rows) by nia.
  unfold Preview.getPageMappingForSheet, Preview.slotsPerSheet.
  replace (columns * rows =? 0) with false by (symmetry; apply Z.eqb_neq; lia).
  replace (P =? 0) with false by (symmetry; apply Z.eqb_neq; lia).
  cbn [orb].
  destruct (isBooklet t) eqn:Hb.
  - destruct t; try discriminate. cbn [isStackOrCollate].
    rewrite andb_false_r. cbn [andb].
    rewrite preview_booklet_slots by assumption.
    destruct front.
    + injection Hdrawn as <-. unfold Imposition.drawnFront. cbn [isBooklet].
      now rewrite pageAtSlot_drawSlots.
    + unfold Imposition.drawnBack in Hdrawn. cbn [isBooklet] in Hdrawn.
      injection Hdrawn as <-. now rewrite pageAtSlot_drawSlots.
  - destruct front.
    + injection Hdrawn as <-. cbn [negb andb].
      rewrite preview_array_front by assumption.
      unfold Imposition.drawnFront. rewrite Hb.
      rewrite pageAtSlot_drawSlots. unfold Imposition.slotsPerSheet. rewrite Hb.
      destruct ((0 <=? s) && (s <? columns * rows)) eqn:Hin; [reflexivity|].
      symmetry. apply at_out_of_range.
      assert (Hlen : List.length (Imposition.pagesForFront t columns rows isDuplex P k)
                     = Z.to_nat (columns * rows)).
      { unfold Imposition.pagesForFront, Imposition.slotsPerSheet.
        destruct t; try discriminate; cbn [isBooklet];
          now rewrite ?length_map, seqZ_length. }
      rewrite Hlen. apply andb_false_iff in Hin. destruct Hin; zbool; lia.
    + destruct isDuplex.
      2:{ unfold Imposition.drawnBack in Hdrawn. rewrite Hb in Hdrawn.
          discriminate. }
      destruct (drawnBack_duplex t columns rows P k Hb) as (back & Hback & Hs).
      rewrite Hback in Hdrawn. injection Hdrawn as <-.
      rewrite Hs. cbn [negb andb].
      rewrite preview_array_back by assumption.
      change (if isStackOrCollate t && (1 <? columns)
              then reverseRows columns rows (Imposition.pagesForBack t columns rows P k)
              else Imposition.pagesForBack t columns rows P k)
        with (Imposition.pagesForBackToRender t columns rows P k).
      destruct ((0 <=? s) && (s <? columns * rows)) eqn:Hin; [reflexivity|].
      symmetry. apply at_out_of_range.
      assert (Hlen : List.length (Imposition.pagesForBack t columns rows P k)
                     = Z.to_nat (columns * rows)).
      { unfold Imposition.pagesForBack, Imposition.slotsPerSheet.
        destruct t; try discriminate; cbn [isBooklet];
          now rewrite ?length_map, seqZ_length. }
      assert (Hlen' : List.length (Imposition.pagesForBackToRender t columns rows P k)
                      = Z.to_nat (columns * rows)).
      { unfold Imposition.pagesForBackToRender.
        destruct (isStackOrCollate t && (1 <? columns)); [|exact Hlen].
        rewrite (Z.mul_comm columns rows).
        apply reverseRows_length; lia. }
      rewrite Hlen'. apply andb_false_iff in Hin. destruct Hin; zbool; lia.
Qed.

Lemma preview_mapping_matches_engine_witness :
  Imposition.pageAtSlot [(0, 5); (1, 1)] 0
  = at_ (Preview.getPageMappingForSheet 0 false collateCut 2 1 true 8) 0.
Proof.
  exact (preview_mapping_matches_engine collateCut 2 1 true 8 0 false
           [(0, 5); (1, 1)] ltac:(lia) ltac:(lia) ltac:(lia) ltac:(lia)
           eq_refl 0).
Defined.

(** ** Collate-cut reconstruction *)

Lemma flat_map_ext_in {A B} (f g : A -> list B) (l : list A) :
  (forall x, In x l -> f x = g x) -> flat_map f l = flat_map g l.
Proof.
  induction l as [|x l IH]; intros H; simpl; [reflexivity|].
  rewrite H by (now left). f_equal. apply IH. intros; apply H; now right.
Qed.

Lemma seqZ_add a b :
  0 <= a -> 0 <= b -> seqZ (a + b) = seqZ a ++ map (fun j => a + j) (seqZ b).
Proof.
  intros Ha Hb. pattern b. apply natlike_ind; [| |exact Hb].
  - rewrite Z.add_0_r. simpl. now rewrite app_nil_r.
  - intros x Hx IH. unfold Z.succ. rewrite Z.add_assoc.
    rewrite !seqZ_succ by lia. rewrite IH, map_app, app_assoc. reflexivity.
Qed.

Lemma flat_map_pairs {A} (f : Z -> A) n :
  0 <= n ->
  flat_map (fun k => [f (2 * k); f (2 * k + 1)]) (seqZ n) = map f (seqZ (2 * n)).
Proof.
  intros Hn. pattern n. apply natlike_ind; [reflexivity| |exact Hn].
  intros x Hx IH. unfold Z.succ. rewrite seqZ_succ, flat_map_app, IH by lia.
  replace (2 * (x + 1)) with (2 * x + 1 + 1) by lia.
  rewrite !seqZ_succ, !map_app by lia. simpl. now rewrite <- app_assoc.
Qed.

Lemma flat_map_singletons {A B} (f : A -> B) l :
  flat_map (fun k => [f k]) l = map f l.
Proof. induction l; simpl; congruence. Qed.

Lemma flat_map_piles {A} (f : Z -> A) S T :
  0 <= S -> 0 <= T ->
  flat_map (fun i => map (fun j => f (i * T + j)) (seqZ T)) (seqZ S)
  = map f (seqZ (S * T)).
Proof.
  intros HS HT. pattern S. apply natlike_ind; [reflexivity| |exact HS].
  intros x Hx IH. unfold Z.succ. rewrite seqZ_succ, flat_map_app, IH by lia.
  replace ((x + 1) * T) with (x * T + T) by lia.
  rewrite seqZ_add, map_app, map_map by nia. simpl. now rewrite app_nil_r.
Qed.

Lemma dropBlank_pages P N :
  0 <= P <= N ->
  flat_map CollateCut.dropBlank (map (fun j => if j <? P then Some j else None) (seqZ N))
  = seqZ P.
Proof.
  intros H. replace N with (P + (N - P)) by lia.
  rewrite seqZ_add, map_app, flat_map_app, map_map by lia.
  assert (H1 : forall l, (forall x, In x l -> x < P) ->
            flat_map CollateCut.dropBlank (map (fun j => if j <? P then Some j else None) l) = l).
  { induction l as [|x l IH]; intros Hl; simpl; [reflexivity|].
    replace (x <? P) with true
      by (symmetry; apply Z.ltb_lt; apply Hl; now left).
    simpl. f_equal. apply IH. intros; apply Hl; now right. }
  assert (H2 : forall l, (forall x, In x l -> 0 <= x) ->
            flat_map CollateCut.dropBlank
              (map (fun x => if P + x <? P then Some (P + x) else None) l) = []).
  { induction l as [|x l IH]; intros Hl; simpl; [reflexivity|].
    replace (P + x <? P) with false
      by (symmetry; apply Z.ltb_ge; specialize (Hl x (or_introl eq_refl)); lia).
    simpl. apply IH. intros; apply Hl; now right. }
  rewrite H1, H2, app_nil_r; [reflexivity| |];
    intros x Hx; apply in_seqZ in Hx; lia.
Qed.

Section CollateCutReconstruction.
Variables (columns rows P : Z) (isDuplex : bool).
Hypotheses (Hc : 0 < columns) (Hr : 0 < rows) (HP : 0 < P).

Let S := columns * rows.
Let d : Z := if isDuplex then 2 else 1.
Let sheets := Imposition.totalPhysicalSheets collateCut columns rows isDuplex P.
Let T := Imposition.collateSlotsPerColumn collateCut columns rows P isDuplex.
Let page (j : Z) : option Z := if j <? P then Some j else None.

Lemma collate_S_pos : 0 < S.
Proof. unfold S. nia. Qed.

Lemma collate_sheets_pos : 0 < sheets.
Proof.
  unfold sheets, Imposition.totalPhysicalSheets, Imposition.slotsPerSheet.
  cbn [isBooklet]. fold S.
  pose proof (ceil_div_pos P S HP collate_S_pos) as H1.
  pose proof (ceil_div_pos _ 2 H1 ltac:(lia)) as H2.
  destruct isDuplex; zcases.
Qed.

Lemma collate_T_sheets : T = sheets * d.
Proof.
  pose proof (ceil_div_pos P S HP collate_S_pos) as H1.
  pose proof (ceil_div_pos _ 2 H1 ltac:(lia)) as H2.
  unfold T, sheets, d, Imposition.collateSlotsPerColumn,
    Imposition.totalPhysicalSheets, Imposition.slotsPerSheet.
  cbn [isBooklet]. fold S.
  destruct isDuplex; zcases.
Qed.

Lemma collate_capacity : P <= S * T.
Proof.
  unfold T, Imposition.collateSlotsPerColumn, Imposition.slotsPerSheet.
  cbn [isBooklet]. fold S.
  pose proof collate_S_pos as HS.
  pose proof (ceil_div_spec P S HS) as H1.
  pose proof (ceil_div_spec (ceil_div P S) 2 ltac:(lia)) as H2.
  destruct isDuplex; nia.
Qed.

Lemma pageOrNull_page j : 0 <= j -> Imposition.pageOrNull P j = page j.
Proof.
  intros Hj. unfold Imposition.pageOrNull, Imposition.inputPages, page. zcases.
Qed.

Lemma collate_front k i :
  0 <= k -> 0 <= i < S ->
  Imposition.pageAtSlot
    (Imposition.drawnFront collateCut columns rows isDuplex P k) i
  = page (i * T + k * d).
Proof.
  intros Hk Hi. pose proof collate_sheets_pos. pose proof collate_T_sheets.
  unfold Imposition.drawnFront. cbn [isBooklet].
  rewrite pageAtSlot_drawSlots. unfold Imposition.slotsPerSheet.
  cbn [isBooklet]. fold S.
  replace ((0 <=? i) && (i <? S)) with true by (symmetry; zcases).
  unfold Imposition.pagesForFront, Imposition.slotsPerSheet. cbn [isBooklet].
  rewrite map_map, at_map_seqZ. fold S T d.
  replace ((0 <=? i) && (i <? S)) with true by (symmetry; zcases).
  rewrite pageOrNull_page by (unfold d in *; destruct isDuplex; nia).
  f_equal. lia.
Qed.

Lemma behind_range i : 0 <= i < S -> 0 <= CollateCut.behind columns i < S.
Proof.
  intros Hi. unfold CollateCut.behind, S in *.
  pose proof (Z.div_mod i columns ltac:(lia)).
  pose proof (Z.mod_pos_bound i columns Hc).
  assert (0 <= i / columns) by (apply Z.div_pos; lia).
  assert (i / columns < rows) by (apply Z.div_lt_upper_bound; lia).
  nia.
Qed.

Lemma collate_back k i back :
  isDuplex = true ->
  0 <= k -> 0 <= i < S ->
  Imposition.drawnBack collateCut columns rows isDuplex P k = Some back ->
  Imposition.pageAtSlot back (CollateCut.behind columns i)
  = page (i * T + (k * 2 + 1)).
Proof.
  intros Hd Hk Hi Hback. pose proof collate_sheets_pos as Hsp.
  pose proof collate_T_sheets as HT. unfold d in HT. rewrite Hd in HT.
  assert (HTt : Imposition.collateSlotsPerColumn collateCut columns rows P true = T)
    by (unfold T; now rewrite Hd).
  rewrite Hd in Hback.
  destruct (drawnBack_duplex collateCut columns rows P k eq_refl)
    as (back' & Hb' & Hs).
  rewrite Hb' in Hback. injection Hback as <-.
  pose proof (behind_range i Hi) as Hbr. fold S in Hs.
  rewrite Hs. replace ((0 <=? CollateCut.behind columns i)
                       && (CollateCut.behind columns i <? S)) with true
    by (symmetry; zcases).
  assert (Hlen : List.length (Imposition.pagesForBack collateCut columns rows P k)
                 = Z.to_nat (columns * rows)).
  { unfold Imposition.pagesForBack, Imposition.slotsPerSheet. cbn [isBooklet].
    now rewrite !length_map, seqZ_length. }
  assert (Hat : at_ (Imposition.pagesForBack collateCut columns rows P k) i
                = page (i * T + (k * 2 + 1))).
  { unfold Imposition.pagesForBack, Imposition.slotsPerSheet. cbn [isBooklet].
    rewrite map_map, at_map_seqZ. fold S. rewrite HTt.
    replace ((0 <=? i) && (i <? S)) with true by (symmetry; zcases).
    rewrite pageOrNull_page by nia. f_equal. lia. }
  pose proof (Z.div_mod i columns ltac:(lia)) as Hdm.
  pose proof (Z.mod_pos_bound i columns Hc) as Hmb.
  assert (0 <= i / columns) by (apply Z.div_pos; lia).
  assert (i / columns < rows) by (apply Z.div_lt_upper_bound; unfold S in Hi; lia).
  unfold Imposition.pagesForBackToRender. cbn [isStackOrCollate andb].
  destruct (Z.ltb_spec 1 columns) as [Hgt|Hle].
  - unfold CollateCut.behind. rewrite at_reverseRows by (auto; lia).
    rewrite <- Hat. f_equal. lia.
  - assert (columns = 1) by lia. subst columns.
    unfold CollateCut.behind. rewrite <- Hat. f_equal.
    rewrite Z.mod_1_r, Z.div_1_r. lia.
Qed.

Lemma collate_pile i :
  0 <= i < S ->
  CollateCut.pile columns rows isDuplex P i
  = map (fun j => page (i * T + j)) (seqZ T).
Proof.
  intros Hi. unfold CollateCut.pile. fold sheets.
  pose proof collate_sheets_pos as Hsp. pose proof collate_T_sheets as HT.
  unfold d in HT.
  destruct (Bool.bool_dec isDuplex true) as [Hd|Hd];
    [|apply not_true_is_false in Hd]; rewrite Hd in HT.
  - rewrite (flat_map_ext_in _ (fun k => [page (i * T + 2 * k);
                                           page (i * T + (2 * k + 1))])).
    + rewrite (flat_map_pairs (fun j => page (i * T + j))) by lia.
      now replace (2 * sheets) with T by lia.
    + intros k Hk. apply in_seqZ in Hk. rewrite collate_front by lia.
      destruct (Imposition.drawnBack collateCut columns rows isDuplex P k)
        as [back|] eqn:Hb.
      * rewrite (collate_back k i back) by (auto; lia).
        unfold d. rewrite Hd. do 3 f_equal; lia.
      * unfold Imposition.drawnBack in Hb. rewrite Hd in Hb. discriminate.
  - rewrite (flat_map_ext_in _ (fun k => [page (i * T + k)])).
    + rewrite flat_map_singletons. now replace sheets with T by lia.
    + intros k Hk. apply in_seqZ in Hk. rewrite collate_front by lia.
      unfold Imposition.drawnBack. cbn [isBooklet].
      unfold d. rewrite Hd. do 2 f_equal. lia.
Qed.

Lemma collate_stacked : CollateCut.stacked columns rows isDuplex P = seqZ P.
Proof.
  unfold CollateCut.stacked. fold S.
  rewrite (flat_map_ext_in _ (fun i => map (fun j => page (i * T + j)) (seqZ T))).
  2:{ intros i Hi. apply in_seqZ in Hi. now apply collate_pile. }
  pose proof collate_S_pos. pose proof collate_sheets_pos.
  pose proof collate_T_sheets. pose proof collate_capacity.
  assert (0 <= T) by (unfold d in *; destruct isDuplex; nia).
  rewrite flat_map_piles by lia.
  apply dropBlank_pages. lia.
Qed.
End CollateCutReconstruction.

(** C2. Collate-cut mode, any non-empty document, grid and duplex flag:
    cutting the imposed sheets at every slot and stacking the piles in slot
    order (each pile from the top sheet down, front before back when duplex,
    the back of a pile being the mirrored back-side slot) gives back the pages
    [0, 1, ..., P - 1].  For eight pages, duplex, two columns and one row the
    front of sheet 0 carries pages (0, 4) and its back, reversed for
    work-and-turn, carries (5, 1). *)
Theorem collate_cut_reconstruction :
  (forall columns rows P isDuplex,
      0 < columns -> 0 < rows -> 0 < P ->
      CollateCut.stacked columns rows isDuplex P = seqZ P)
  /\ Imposition.drawnFront collateCut 2 1 true 8 0 = [(0, 0); (1, 4)]
  /\ Imposition.pagesForBack collateCut 2 1 8 0 = [Some 1; Some 5]
  /\ Imposition.drawnBack collateCut 2 1 true 8 0 = Some [(0, 5); (1, 1)]
  /\ CollateCut.pile 2 1 true 8 0 ++ CollateCut.pile 2 1 true 8 1
     = map Some [0; 1; 2; 3; 4; 5; 6; 7].
Proof.
  split.
  - intros columns rows P isDuplex Hc Hr HP. now apply collate_stacked.
  - repeat split; reflexivity.
Qed.

Lemma collate_cut_reconstruction_witness :
  CollateCut.stacked 3 2 true 17 = seqZ 17.
Proof.
  exact (proj1 collate_cut_reconstruction 3 2 17 true
           ltac:(lia) ltac:(lia) ltac:(lia)).
Defined.

(** ** Comparisons on rationals *)

Local Open Scope Q_scope.

Lemma Qleb_true x y : Num.Qleb x y = true <-> x <= y.
Proof. unfold Num.Qleb. apply Qle_bool_iff. Qed.

Lemma Qleb_false x y : Num.Qleb x y = false <-> y < x.
Proof.
  unfold Num.Qleb. split; intros H.
  - apply Qnot_le_lt. intros Hle. apply Qle_bool_iff in Hle. congruence.
  - destruct (Qle_bool x y) eqn:E; [|reflexivity].
    apply Qle_bool_iff in E. exfalso. exact (Qlt_not_le _ _ H E).
Qed.

Lemma Qltb_true x y : Num.Qltb x y = true <-> x < y.
Proof.
  unfold Num.Qltb. rewrite negb_true_iff. apply (Qleb_false y x).
Qed.

Lemma Qltb_false x y : Num.Qltb x y = false <-> y <= x.
Proof.
  unfold Num.Qltb. rewrite negb_false_iff. apply (Qleb_true y x).
Qed.

Lemma Qeqb_true x y : Num.Qeqb x y = true <-> x == y.
Proof. unfold Num.Qeqb. apply Qeq_bool_iff. Qed.

Lemma Qeqb_false x y : Num.Qeqb x y = false <-> ~ x == y.
Proof.
  unfold Num.Qeqb. split; intros H.
  - intros E. apply Qeq_bool_iff in E. congruence.
  - destruct (Qeq_bool x y) eqn:E; [|reflexivity].
    apply Qeq_bool_iff in E. contradiction.
Qed.

(** Comparisons in the context turned into propositions. *)
Ltac qbool :=
  repeat match goal with
    | H : Num.Qleb _ _ = true |- _ => apply Qleb_true in H
    | H : Num.Qleb _ _ = false |- _ => apply Qleb_false in H
    | H : Num.Qltb _ _ = true |- _ => apply Qltb_true in H
    | H : Num.Qltb _ _ = false |- _ => apply Qltb_false in H
    | H : Num.Qeqb _ _ = true |- _ => apply Qeqb_true in H
    | H : Num.Qeqb _ _ = false |- _ => apply Qeqb_false in H
    end.

(** ** Cover geometry *)

(** C6. For a positive page count [P] (and a positive finished trim), any
    interior stock with its catalog PPI and any cover stock with its catalog
    caliper [c], the cover engine computes spine = P / PPI + 2c, spread width
    = 2 * trim_w + spine + 2 * bleed and spread height = trim_h + 2 * bleed;
    96 pages of opaque 80# (400 PPI) under silk 100# cover (0.0095 in) give a
    spine of 0.259 in. *)
Theorem cover_spine_geometry :
  (forall it iw ct cw (P trimW trimH bleed : Q),
      0 < P -> 0 < trimW -> 0 < trimH ->
      exists dims,
        Cover.calculatedDimensions it iw ct cw P trimW trimH bleed = Some dims
        /\ Cover.spineWidthInches dims
           == P / Cover.INTERIOR_PAPER_PPI it iw
              + 2 * Cover.COVER_PAPER_THICKNESS ct cw
        /\ Cover.fullCoverWidthInches dims
           == 2 * trimW + Cover.spineWidthInches dims + 2 * bleed
        /\ Cover.fullCoverHeightInches dims == trimH + 2 * bleed)
  /\ Cover.INTERIOR_PAPER_PPI Cover.int_opaque Cover.w80 == 400
  /\ Cover.COVER_PAPER_THICKNESS Cover.cov_silk Cover.c100 == 95 # 10000
  /\ (exists dims,
        Cover.calculatedDimensions Cover.int_opaque Cover.w80 Cover.cov_silk
          Cover.c100 96 6 9 (125 # 1000) = Some dims
        /\ Cover.spineWidthInches dims == 259 # 1000).
Proof.
  split; [|split; [reflexivity|split; [reflexivity|]]].
  - intros it iw ct cw P trimW trimH bleed HP HW HH.
    unfold Cover.calculatedDimensions.
    rewrite (proj2 (Qleb_false P 0) HP), (proj2 (Qleb_false trimW 0) HW),
      (proj2 (Qleb_false trimH 0) HH).
    cbn [orb].
    replace (Num.Qeqb (Cover.INTERIOR_PAPER_PPI it iw) 0) with false
      by (destruct it, iw; reflexivity).
    eexists. split; [reflexivity|]. cbn.
    repeat split; try reflexivity. ring.
  - eexists. split; [reflexivity|]. reflexivity.
Qed.

Lemma cover_spine_geometry_witness :
  exists dims,
    Cover.calculatedDimensions Cover.int_gloss Cover.w60 Cover.cov_gloss
      Cover.c130 200 (55 # 10) (85 # 10) (125 # 1000) = Some dims
    /\ Cover.spineWidthInches dims
       == 200 / Cover.INTERIOR_PAPER_PPI Cover.int_gloss Cover.w60
          + 2 * Cover.COVER_PAPER_THICKNESS Cover.cov_gloss Cover.c130.
Proof.
  destruct (proj1 cover_spine_geometry Cover.int_gloss Cover.w60 Cover.cov_gloss
              Cover.c130 200 (55 # 10) (85 # 10) (125 # 1000)
              ltac:(reflexivity) ltac:(reflexivity) ltac:(reflexivity))
    as (dims & H1 & H2 & _).
  exists dims. split; [exact H1 | exact H2].
Defined.

(** ** The saddle-stitch guard *)

Lemma not_multiple_of_four (k n : Z) :
  (k mod 4 <> 0)%Z -> ~ inject_Z k == 4 * inject_Z n.
Proof.
  intros Hk H.
  assert (E : (k = 4 * n)%Z).
  { apply inject_Z_injective. rewrite H, inject_Z_mult. reflexivity. }
  subst k. apply Hk. rewrite Z.mul_comm. apply Z.mod_mul. lia.
Qed.

(** The estimator counts a page count that is not positive as zero, so that
    for page counts that are not negative its interior page count is their
    sum. *)
Lemma totalInteriorPages_sum (d : Cost.JobDetails) :
  0 <= Cost.bwPages d -> 0 <= Cost.colorPages d ->
  Cost.totalInteriorPages d == Cost.bwPages d + Cost.colorPages d.
Proof.
  intros Hbw Hcol. unfold Cost.totalInteriorPages, Cost.positivePart.
  destruct (Num.Qltb 0 (Cost.bwPages d)) eqn:E1,
           (Num.Qltb 0 (Cost.colorPages d)) eqn:E2; qbool; try reflexivity.
  - assert (Cost.colorPages d == 0) by (apply Qle_antisym; assumption).
    now rewrite H.
  - assert (Cost.bwPages d == 0) by (apply Qle_antisym; assumption).
    now rewrite H.
  - assert (Cost.bwPages d == 0) by (apply Qle_antisym; assumption).
    assert (Cost.colorPages d == 0) by (apply Qle_antisym; assumption).
    now rewrite H, H0.
Qed.

(** The guard on the page count the estimator computes. *)
Lemma saddle_stitch_rejected (paperData : list Cost.PaperStock) (d : Cost.JobDetails) :
  Cost.bindingMethod d = Cost.saddleStitch ->
  0 < Cost.totalInteriorPages d ->
  ~ (exists n : Z, Cost.totalInteriorPages d == 4 * inject_Z n) ->
  Cost.calculateCosts paperData d
  = Cost.createEmptyCostBreakdown (Some Cost.saddleStitchError).
Proof.
  intros Hbind Hpos Hmult.
  assert (Hrem : ~ Num.remQ (Cost.totalInteriorPages d) 4 == 0).
  { intros E. apply Hmult.
    exists (Num.truncQ (Cost.totalInteriorPages d / 4)).
    unfold Num.remQ in E. lra. }
  unfold Cost.calculateCosts, Cost.validationError. rewrite Hbind.
  rewrite (proj2 (Qltb_true _ _) Hpos), (proj2 (Qeqb_false _ _) Hrem).
  reflexivity.
Qed.

(** C5.  For every catalog and every job with saddle-stitch binding whose
    page counts are counts (neither is negative) and whose total interior
    page count [bwPages + colorPages] is positive and not a multiple of
    four, [calculateCosts] returns (it is a total function: nothing is
    thrown) the empty breakdown with the saddle-stitch message: every
    numeric field is zero and there is no packing plan. *)
Theorem saddle_stitch_guard (paperData : list Cost.PaperStock) (d : Cost.JobDetails) :
  Cost.bindingMethod d = Cost.saddleStitch ->
  0 <= Cost.bwPages d -> 0 <= Cost.colorPages d ->
  0 < Cost.bwPages d + Cost.colorPages d ->
  ~ (exists n : Z, Cost.bwPages d + Cost.colorPages d == 4 * inject_Z n) ->
  let r := Cost.calculateCosts paperData d in
  r = Cost.createEmptyCostBreakdown (Some Cost.saddleStitchError)
  /\ Cost.error r
     = Some "Saddle stitch requires the total interior page count to be a multiple of 4."%string
  /\ Cost.bwPaperCost r = 0 /\ Cost.colorPaperCost r = 0 /\ Cost.coverPaperCost r = 0
  /\ Cost.bwClickCost r = 0 /\ Cost.colorClickCost r = 0 /\ Cost.coverClickCost r = 0
  /\ Cost.laminationCost r = 0 /\ Cost.laborCost r = 0 /\ Cost.shippingCost r = 0
  /\ Cost.subtotal r = 0 /\ Cost.markupAmount r = 0 /\ Cost.totalCost r = 0
  /\ Cost.pricePerUnit r = 0
  /\ Cost.bwPressSheets r = 0 /\ Cost.colorPressSheets r = 0
  /\ Cost.coverPressSheets r = 0
  /\ Cost.bwImposition r = 0 /\ Cost.colorImposition r = 0
  /\ Cost.coverImposition r = 0
  /\ Cost.totalClicks r = 0 /\ Cost.productionTimeHours r = 0
  /\ Cost.laborTimeBreakdown r = Cost.emptyLaborBreakdown
  /\ Cost.shippingBreakdown r = None.
Proof.
  intros Hbind Hbw Hcol Hpos Hmult r.
  pose proof (totalInteriorPages_sum d Hbw Hcol) as Hsum.
  assert (Hr : r = Cost.createEmptyCostBreakdown (Some Cost.saddleStitchError)).
  { apply saddle_stitch_rejected; [exact Hbind| |].
    - now rewrite Hsum.
    - intros [n Hn]. apply Hmult. exists n. now rewrite <- Hsum. }
  rewrite Hr. repeat split.
Qed.

Lemma saddle_stitch_guard_witness :
  let d := {| Cost.bookTitle := ""; Cost.quantity := 100;
              Cost.finishedWidth := 55 # 10; Cost.finishedHeight := 85 # 10;
              Cost.bwPages := 18; Cost.bwPaperSku := None;
              Cost.colorPages := 0; Cost.colorPaperSku := None;
              Cost.hasCover := false; Cost.coverPaperSku := None;
              Cost.coverPrintColor := Cost.BW;
              Cost.coverPrintsOnBothSides := false;
              Cost.laminationType := Cost.noLamination;
              Cost.bindingMethod := Cost.saddleStitch;
              Cost.laborRate := 50; Cost.markupPercent := 35;
              Cost.spoilagePercent := 5;
              Cost.calculateShipping := false;
              Cost.overrideShippingBoxName := None |} in
  Cost.calculateCosts [] d
  = Cost.createEmptyCostBreakdown (Some Cost.saddleStitchError).
Proof.
  intros d.
  refine (proj1 (saddle_stitch_guard [] d eq_refl _ _ _ _)).
  - discriminate.
  - discriminate.
  - reflexivity.
  - intros [n H]. revert H. apply (not_multiple_of_four 18). discriminate.
Defined.

(** ** The packer on the standard small box *)

(** C8, as the specification states it, fails: for 500 books of
    5.5 x 8.5 x 0.25 in at 0.6 lb the packer's evaluation of the standard
    small box does not give 19 books per box, nor 27 boxes. *)
Lemma small_box_scenario_counterexample :
  In Shipping.standardSmallBox Shipping.flatBoxes
  /\ Num.eqb (Num.max (Shipping.orientations (55 # 10) (85 # 10) (25 # 100)
                         Shipping.standardSmallBox))
             (Num.Fin 19) = false
  /\ ~ (exists b,
          Shipping.breakdown
            (Shipping.calculateShipping 500 (55 # 10) (85 # 10) (25 # 100) (6 # 10)
               (Some (Shipping.flatName Shipping.standardSmallBox))) = Some b
          /\ (Num.eqb (Shipping.booksPerBox b) (Num.Fin 19) = true
              \/ Num.eqb (Shipping.boxCount b) (Num.Fin 27) = true)).
Proof.
  split; [now left|]. split; [reflexivity|].
  intros (b & Hb & H). vm_compute in Hb. injection Hb as <-.
  destruct H as [H|H]; vm_compute in H; discriminate.
Qed.

(** C8, amended.  For 500 books of 5.5 x 8.5 x 0.25 in at 0.6 lb the
    evaluation of the standard small box (11.75 x 8.75 x 4.75) yields 38
    books per box by orientation (2 x 1 x 19; the orientation worth 19 is
    not the best one), the weight cap floor(40 / 0.6) = 66 does not bind,
    the box count is ceil(500 / 38) = 14, and the carrier cost is the one
    of the rate table at the total weight of 300 lb, 42 + 250 * 0.75. *)
Theorem small_box_scenario :
  let quantity := 500 in
  let w := 55 # 10 in let l := 85 # 10 in let s := 25 # 100 in
  let weight := 6 # 10 in
  let r := Shipping.calculateShipping quantity w l s weight
             (Some (Shipping.flatName Shipping.standardSmallBox)) in
  In Shipping.standardSmallBox Shipping.flatBoxes
  /\ Shipping.orientations w l s Shipping.standardSmallBox
     = [Num.Fin 38; Num.Fin 0; Num.Fin 19; Num.Fin 0; Num.Fin 0; Num.Fin 0]
  /\ Num.max (Shipping.orientations w l s Shipping.standardSmallBox) = Num.Fin 38
  /\ Num.floor (Num.div (Num.Fin Shipping.MAX_WEIGHT_PER_BOX_LBS) (Num.Fin weight))
     = Num.Fin 66
  /\ Num.min2 (Num.Fin 38) (Num.Fin 66) = Num.Fin 38
  /\ Num.ceilQ (quantity / 38) = 14
  /\ quantity * weight == 300
  /\ Shipping.getCarrierCost (quantity * weight) == 42 + (300 - 50) * (75 # 100)
  /\ (exists b,
        Shipping.breakdown r = Some b
        /\ Shipping.boxName b = "Standard Small Box (11.75x8.75x4.75)"%string
        /\ Shipping.booksPerBox b = Num.Fin 38
        /\ Shipping.boxCount b = Num.Fin 14
        /\ Shipping.totalWeightLbs b == 300)
  /\ Num.eqb (Shipping.shippingCost r)
             (Num.Fin (14 * (175 # 100) + Shipping.getCarrierCost 300)) = true.
Proof.
  cbv zeta. split; [now left|].
  repeat split; try reflexivity.
  eexists. split; [vm_compute; reflexivity|]. repeat split; reflexivity.
Qed.

(** ** Soundness of the packing plan *)

Lemma sign_pos q : 0 < q -> Num.sign q = Lt.
Proof. intros H. unfold Num.sign. now apply Qlt_alt. Qed.

Lemma sign_zero q : q == 0 -> Num.sign q = Eq.
Proof. intros H. unfold Num.sign. apply Qeq_alt. now symmetry. Qed.

Lemma floorQ_nonneg x : 0 <= x -> 0 <= Num.floorQ x.
Proof.
  intros H. unfold Num.floorQ.
  change 0 with (inject_Z 0). rewrite <- Zle_Qle.
  rewrite <- (Qfloor_Z 0). now apply Qfloor_resp_le.
Qed.

Lemma across_count X x :
  0 < X -> 0 <= x -> Properties.count (Shipping.across X x).
Proof.
  intros HX Hx. unfold Shipping.across, Num.div.
  destruct (Num.Qeqb x 0) eqn:E; qbool.
  - rewrite (sign_pos X HX). constructor.
  - cbn. constructor. apply floorQ_nonneg.
    apply Qle_shift_div_l; [|lra].
    destruct (Qlt_le_dec 0 x) as [H|H]; [exact H|].
    exfalso. apply E. lra.
Qed.

Lemma mul_count a b :
  Properties.count a -> Properties.count b -> Properties.count (Num.mul a b).
Proof.
  intros [x Hx| |] [y Hy| |]; cbn [Num.mul]; try constructor.
  - nra.
  - destruct (Qlt_le_dec 0 x) as [H|H].
    + rewrite (sign_pos x H). constructor.
    + rewrite (sign_zero x) by lra. constructor.
  - destruct (Qlt_le_dec 0 y) as [H|H].
    + rewrite (sign_pos y H). constructor.
    + rewrite (sign_zero y) by lra. constructor.
Qed.

Lemma flatBoxes_positive box :
  In box Shipping.flatBoxes ->
  0 < Shipping.flatWidth box /\ 0 < Shipping.flatLength box
  /\ 0 < Shipping.flatHeight box /\ 0 <= Shipping.flatCost box.
Proof.
  intros H. cbv [Shipping.flatBoxes Shipping.shippingBoxes flat_map
                 Shipping.flatten Shipping.height map app] in H.
  cbn [In] in H.
  repeat (destruct H as [<-|H]; [cbn; repeat split; (reflexivity || discriminate)|]).
  contradiction.
Qed.

Section PackingPlan.
Variables (quantity w l s weight : Q) (overrideBoxName : option string).
Hypotheses (Hq : 0 < quantity) (Hweight : 0 < weight)
           (Hw : 0 <= w) (Hl : 0 <= l) (Hs : 0 <= s).

Lemma orientations_count box :
  In box Shipping.flatBoxes ->
  Forall Properties.count (Shipping.orientations w l s box).
Proof.
  intros Hin. destruct (flatBoxes_positive box Hin) as (HW & HL & HH & _).
  unfold Shipping.orientations.
  repeat constructor; repeat apply mul_count; apply across_count; assumption.
Qed.

Lemma max2_count a b :
  Properties.count a -> Properties.count b ->
  Properties.count (Num.max2 a b)
  /\ (Num.max2 a b = Num.NaN \/ Num.max2 a b = a \/ Num.max2 a b = b).
Proof.
  intros Ha Hb. unfold Num.max2.
  destruct Ha, Hb; cbn; try (split; [constructor|auto]; fail).
  destruct (Num.Qltb q q0); split; try (constructor; assumption); auto.
Qed.

Lemma fold_max2_count xs : forall acc,
  Properties.count acc -> Forall Properties.count xs ->
  let m := fold_left Num.max2 xs acc in
  Properties.count m /\ (m = Num.NaN \/ m = acc \/ In m xs).
Proof.
  induction xs as [|x xs IH]; intros acc Hacc Hxs; cbn.
  - split; auto.
  - inversion Hxs as [|? ? Hx Hxs']; subst.
    destruct (max2_count acc x Hacc Hx) as (Hc & Hm).
    destruct (IH (Num.max2 acc x) Hc Hxs') as (Hc' & Hm').
    split; [exact Hc'|].
    destruct Hm' as [E|[E|E]]; auto.
    rewrite E. destruct Hm as [E'|[E'|E']]; rewrite E' in *; auto.
Qed.

Lemma max_orientations box :
  In box Shipping.flatBoxes ->
  let m := Num.max (Shipping.orientations w l s box) in
  Properties.count m /\ (m = Num.NaN \/ In m (Shipping.orientations w l s box)).
Proof.
  intros Hin m. pose proof (orientations_count box Hin) as Hall.
  unfold m, Num.max.
  remember (Shipping.orientations w l s box) as xs eqn:Exs.
  destruct xs as [|x xs]; [discriminate|].
  inversion Hall as [|? ? Hx Hxs]; subst.
  cbn [fold_left].
  assert (E : Num.max2 Num.NInf x = x) by (destruct Hx; reflexivity).
  rewrite E.
  destruct (fold_max2_count xs x Hx Hxs) as (Hc & Hm).
  split; [exact Hc|]. cbn [In]. intuition.
Qed.

Lemma weight_cap :
  Num.floor (Num.div (Num.Fin Shipping.MAX_WEIGHT_PER_BOX_LBS) (Num.Fin weight))
  = Num.Fin (Num.floorQ (40 / weight))
  /\ Num.floorQ (40 / weight) * weight <= 40.
Proof.
  unfold Num.div. rewrite (proj2 (Qeqb_false weight 0)) by lra.
  split; [reflexivity|].
  pose proof (Qfloor_le (40 / weight)) as Hf. fold (Num.floorQ (40 / weight)) in Hf.
  assert (E : 40 / weight * weight == 40) by (field; lra).
  rewrite <- E at 2. apply Qmult_le_compat_r; lra.
Qed.

Lemma boxes_needed n :
  0 < n ->
  Num.ceil (Num.div (Num.Fin quantity) (Num.Fin n)) = Num.Fin (Num.ceilQ (quantity / n))
  /\ quantity <= n * Num.ceilQ (quantity / n).
Proof.
  intros Hn. unfold Num.div. rewrite (proj2 (Qeqb_false n 0)) by lra.
  split; [reflexivity|].
  pose proof (Qle_ceiling (quantity / n)) as Hc. fold (Num.ceilQ (quantity / n)) in Hc.
  assert (E : n * (quantity / n) == quantity) by (field; lra).
  rewrite <- E at 1. apply Qmult_le_l; lra.
Qed.

Lemma considerBox_sound best box :
  In box Shipping.flatBoxes ->
  Properties.soundBest quantity w l s weight best ->
  Properties.soundBest quantity w l s weight
    (Shipping.considerBox quantity w l s weight best box).
Proof.
  intros Hin Hbest. unfold Shipping.considerBox.
  destruct (Shipping.tooLarge w l s box); [exact Hbest|].
  destruct (max_orientations box Hin) as (Hc & Hm).
  set (m := Num.max (Shipping.orientations w l s box)) in *.
  destruct (Num.eqb m (Num.Fin 0)) eqn:Ezero; [exact Hbest|].
  destruct weight_cap as (Ecap & Hcap). rewrite Ecap.
  set (M := Num.floorQ (40 / weight)) in *.
  destruct (Num.gt (Num.Fin M) (Num.Fin 0)) eqn:EM; [|exact Hbest].
  unfold Num.gt in EM. cbn in EM. qbool.
  destruct Hm as [Enan|HmIn].
  { rewrite Enan. cbn. exact Hbest. }
  assert (Hplan : forall n, 0 < n -> n <= M -> Num.le (Num.Fin n) m = true ->
            Num.lt (Num.Fin 0) m = true ->
            Num.min2 m (Num.Fin M) = Num.Fin n ->
            Properties.soundBest quantity w l s weight
              (if Num.lt
                    (Num.add
                       (Num.mul (Num.ceil (Num.div (Num.Fin quantity)
                                             (Num.min2 m (Num.Fin M))))
                                (Num.Fin (Shipping.flatCost box)))
                       (Num.Fin (Shipping.getCarrierCost (quantity * weight))))
                    (Shipping.bestCost best)
               then {| Shipping.bestCost :=
                         Num.add
                           (Num.mul (Num.ceil (Num.div (Num.Fin quantity)
                                                 (Num.min2 m (Num.Fin M))))
                                    (Num.Fin (Shipping.flatCost box)))
                           (Num.Fin (Shipping.getCarrierCost (quantity * weight)));
                       Shipping.bestBreakdown :=
                         Some {| Shipping.boxName := Shipping.flatName box;
                                 Shipping.boxCount :=
                                   Num.ceil (Num.div (Num.Fin quantity)
                                               (Num.min2 m (Num.Fin M)));
                                 Shipping.booksPerBox := Num.min2 m (Num.Fin M);
                                 Shipping.totalWeightLbs := quantity * weight |} |}
               else best)).
  { intros n Hn HnM Hle Hlt Emin. rewrite Emin.
    destruct (boxes_needed n Hn) as (Ecount & Hcount). rewrite Ecount.
    destruct (Num.lt _ (Shipping.bestCost best)); [|exact Hbest].
    unfold Properties.soundBest. cbn [Shipping.bestBreakdown].
    exists n, (Num.ceilQ (quantity / n)), box, m.
    cbn [Shipping.booksPerBox Shipping.boxCount Shipping.boxName].
    repeat split; auto.
    unfold Shipping.MAX_WEIGHT_PER_BOX_LBS.
    apply Qle_trans with (M * weight); [|exact Hcap].
    apply Qmult_le_compat_r; lra. }
  destruct Hc as [q Hq0| |].
  - cbn in Ezero. qbool.
    assert (Hqpos : 0 < q).
    { destruct (Qlt_le_dec 0 q) as [H|H]; [exact H|]. exfalso. apply Ezero. lra. }
    destruct (Num.Qltb M q) eqn:EMq; qbool.
    + apply (Hplan M); auto; try lra.
      * cbn. apply negb_true_iff. apply Qltb_false. lra.
      * cbn. now apply Qltb_true.
      * cbn. now rewrite (proj2 (Qltb_true M q)).
    + apply (Hplan q); auto.
      * cbn. apply negb_true_iff. apply Qltb_false. lra.
      * cbn. now apply Qltb_true.
      * cbn. now rewrite (proj2 (Qltb_false M q)).
  - apply (Hplan M); auto; lra.
  - cbn. exact Hbest.
Qed.

Lemma fold_considerBox_sound boxes : forall best,
  (forall box, In box boxes -> In box Shipping.flatBoxes) ->
  Properties.soundBest quantity w l s weight best ->
  Properties.soundBest quantity w l s weight
    (fold_left (Shipping.considerBox quantity w l s weight) boxes best).
Proof.
  induction boxes as [|box boxes IH]; intros best Hsub Hbest; cbn; [exact Hbest|].
  apply IH.
  - intros b Hb. apply Hsub. now right.
  - apply considerBox_sound; [apply Hsub; now left | exact Hbest].
Qed.

Lemma boxesToConsider_sub box :
  In box (Shipping.boxesToConsider overrideBoxName) -> In box Shipping.flatBoxes.
Proof.
  unfold Shipping.boxesToConsider.
  destruct overrideBoxName as [n|]; [|auto].
  destruct (String.eqb n ""); [auto|].
  intros H. apply filter_In in H. tauto.
Qed.

Lemma calculateShipping_sound b :
  Shipping.breakdown
    (Shipping.calculateShipping quantity w l s weight overrideBoxName) = Some b ->
  Properties.soundPlan quantity w l s weight b.
Proof.
  unfold Shipping.calculateShipping.
  destruct (Num.Qleb quantity 0 || Num.Qleb weight 0); [discriminate|].
  cbn [Shipping.breakdown]. intros Hb.
  pose proof (fold_considerBox_sound (Shipping.boxesToConsider overrideBoxName)
                {| Shipping.bestCost := Num.PInf; Shipping.bestBreakdown := None |}
                boxesToConsider_sub I) as H.
  unfold Properties.soundBest in H. now rewrite Hb in H.
Qed.
End PackingPlan.

(** The plan in exact arithmetic, that is with the quotients of [Shipping]
    taken unrounded.  Whenever the packer returns a plan for a job with
    positive quantity and positive book weight (the book's three sides being
    lengths, hence not negative): books per box times box count covers the
    quantity; the book fits the chosen box in one of the six axis
    orientations, whose per-axis floor product is positive and at least the
    books per box; and books per box times the book weight stays within
    40 lb.  The last bound is what the rounded quotient of the code loses:
    see [packing_plan_overweight]. *)
Theorem packing_plan_sound
  (quantity w l s weight : Q) (overrideBoxName : option string)
  (b : Shipping.ShippingBreakdown) :
  0 < quantity -> 0 < weight -> 0 <= w -> 0 <= l -> 0 <= s ->
  Shipping.breakdown
    (Shipping.calculateShipping quantity w l s weight overrideBoxName) = Some b ->
  exists (booksPerBox boxCount : Q) (box : Shipping.FlatBox) (o : Num.num),
    Shipping.booksPerBox b = Num.Fin booksPerBox
    /\ Shipping.boxCount b = Num.Fin boxCount
    /\ quantity <= booksPerBox * boxCount
    /\ In box Shipping.flatBoxes
    /\ Shipping.flatName box = Shipping.boxName b
    /\ In o (Shipping.orientations w l s box)
    /\ Num.lt (Num.Fin 0) o = true
    /\ Num.le (Num.Fin booksPerBox) o = true
    /\ booksPerBox * weight <= Shipping.MAX_WEIGHT_PER_BOX_LBS.
Proof.
  intros Hq Hweight Hw Hl Hs Hb.
  exact (calculateShipping_sound quantity w l s weight overrideBoxName
           Hweight Hw Hl Hs b Hb).
Qed.

Lemma packing_plan_sound_witness :
  exists booksPerBox boxCount : Q,
    500 <= booksPerBox * boxCount /\ booksPerBox * (6 # 10) <= 40.
Proof.
  destruct (Shipping.breakdown
              (Shipping.calculateShipping 500 (55 # 10) (85 # 10) (25 # 100)
                 (6 # 10) None)) as [b|] eqn:E;
    [|vm_compute in E; discriminate].
  destruct (packing_plan_sound 500 (55 # 10) (85 # 10) (25 # 100) (6 # 10) None b
              ltac:(reflexivity) ltac:(reflexivity) ltac:(discriminate)
              ltac:(discriminate) ltac:(discriminate) E)
    as (n & c & box & o & _ & _ & H1 & _ & _ & _ & _ & _ & H2).
  exists n, c. split; assumption.
Defined.

(** ** The weight limit in double arithmetic *)

(** The catalog of the double-precision packer is the catalog of the source:
    every side and price is a double that holds its decimal literal
    exactly. *)
Example flatBoxes_exact :
  map (fun box => (option_map Qred (Double.exact (Shipping64.flatWidth box)),
                   option_map Qred (Double.exact (Shipping64.flatLength box)),
                   option_map Qred (Double.exact (Shipping64.flatHeight box)),
                   option_map Qred (Double.exact (Shipping64.flatCost box))))
      Shipping64.flatBoxes
  = map (fun box => (Some (Qred (Shipping.flatWidth box)),
                     Some (Qred (Shipping.flatLength box)),
                     Some (Qred (Shipping.flatHeight box)),
                     Some (Qred (Shipping.flatCost box))))
        Shipping.flatBoxes.
Proof. vm_compute. reflexivity. Qed.

(** With the quotient [40 / weight] unrounded the same job gets 66 books
    per box. *)
Example exact_quotient_packs_66 :
  Shipping.breakdown
    (Shipping.calculateShipping 500 (55 # 10) (85 # 10) (25 # 100)
       (5377432390890145 # 9007199254740992) None)
  = Some {| Shipping.boxName := "Standard Medium Box (11.25x8.75x9.5)";
            Shipping.boxCount := Num.Fin 8;
            Shipping.booksPerBox := Num.Fin 66;
            Shipping.totalWeightLbs := 2688716195445072500 # 9007199254740992 |}.
Proof. vm_compute. reflexivity. Qed.

(** C7. The weight limit of a box is not kept.  For 500 books of 5.5 x 8.5 x
    0.25 in that weigh 0.5970149253731344 lb each, [calculateShipping],
    computing in doubles as the language does, returns a plan of 67 books
    per box in 8 medium boxes: [Math.floor(40 / weight)] is 67, because the
    quotient, which is a little below 67, is rounded to 67 before the floor
    is taken.  The weight is the double
    [5377432390890145 / 2^53], and 67 books of it weigh more than 40 lb,
    exactly and also when the product is computed in doubles. *)
Theorem packing_plan_overweight :
  let weight := Double.ofQ (5970149253731344 # 10000000000000000) in
  let r := Shipping64.calculateShipping
             (Double.ofZ 500) (Double.ofQ (55 # 10)) (Double.ofQ (85 # 10))
             (Double.ofQ (25 # 100)) weight None in
  Shipping64.breakdown r
  = Some {| Shipping64.boxName := "Standard Medium Box (11.25x8.75x9.5)";
            Shipping64.boxCount := Double.ofZ 8;
            Shipping64.booksPerBox := Double.ofZ 67;
            Shipping64.totalWeightLbs := PrimFloat.mul (Double.ofZ 500) weight |}
  /\ Double.floor (PrimFloat.div Shipping64.MAX_WEIGHT_PER_BOX_LBS weight)
     = Double.ofZ 67
  /\ Double.exact weight = Some (5377432390890145 # 9007199254740992)
  /\ 40 < 67 * (5377432390890145 # 9007199254740992)
  /\ PrimFloat.leb (PrimFloat.mul (Double.ofZ 67) weight)
                   Shipping64.MAX_WEIGHT_PER_BOX_LBS = false.
Proof. cbv zeta. repeat split; vm_compute; reflexivity. Qed.

(** The press-sheet count rounds likewise: 100 sheets at 10 percent spoilage
    are [Math.ceil(100 * (1 + 10 / 100))], which is 111 in doubles and 110
    in exact arithmetic. *)
Example spoilage_product_rounds_up :
  Double.ceil (PrimFloat.mul (Double.ofZ 100)
                 (PrimFloat.add (Double.ofZ 1)
                    (PrimFloat.div (Double.ofZ 10) (Double.ofZ 100))))
  = Double.ofZ 111
  /\ Num.ceilQ (100 * (1 + 10 / 100)) == 110.
Proof. split; vm_compute; reflexivity. Qed.

(** ** The packer as a function of the quantity *)

Ltac qcases :=
  repeat match goal with
    | |- context [Num.Qleb ?a ?b] => destruct (Num.Qleb a b) eqn:?
    | |- context [Num.Qltb ?a ?b] => destruct (Num.Qltb a b) eqn:?
    | |- context [Num.Qeqb ?a ?b] => destruct (Num.Qeqb a b) eqn:?
    end; qbool.

Lemma getCarrierCost_mono x y :
  x <= y -> Shipping.getCarrierCost x <= Shipping.getCarrierCost y.
Proof. intros H. unfold Shipping.getCarrierCost. qcases; lra. Qed.

Lemma getCarrierCost_nonneg x : 0 <= Shipping.getCarrierCost x.
Proof. unfold Shipping.getCarrierCost. qcases; lra. Qed.

Lemma ceilQ_mono x y : x <= y -> Num.ceilQ x <= Num.ceilQ y.
Proof.
  intros H. unfold Num.ceilQ. rewrite <- Zle_Qle. now apply Qceiling_resp_le.
Qed.

Lemma ceilQ_nonneg x : 0 <= x -> 0 <= Num.ceilQ x.
Proof.
  intros H. apply Qle_trans with x; [exact H|]. apply Qle_ceiling.
Qed.

Lemma div_mono x y n : 0 < n -> x <= y -> x / n <= y / n.
Proof.
  intros Hn H. unfold Qdiv. apply Qmult_le_compat_r; [exact H|].
  apply Qlt_le_weak. now apply Qinv_lt_0_compat.
Qed.

Lemma div_nonneg x n : 0 < n -> 0 <= x -> 0 <= x / n.
Proof.
  intros Hn H. apply Qle_shift_div_l; [exact Hn|]. lra.
Qed.

Section PackerInQuantity.
Variables (w l s weight : Q).
Hypotheses (Hweight : 0 < weight) (Hw : 0 <= w) (Hl : 0 <= l) (Hs : 0 <= s).

Lemma boxTotal_mono box n q q' :
  In box Shipping.flatBoxes -> 0 < n -> q <= q' ->
  Properties.boxTotal weight box n q <= Properties.boxTotal weight box n q'.
Proof.
  intros Hin Hn Hq. destruct (flatBoxes_positive box Hin) as (_ & _ & _ & Hcost).
  unfold Properties.boxTotal.
  assert (H1 : Num.ceilQ (q / n) <= Num.ceilQ (q' / n))
    by (apply ceilQ_mono, div_mono; assumption).
  assert (H2 : Shipping.getCarrierCost (q * weight)
               <= Shipping.getCarrierCost (q' * weight))
    by (apply getCarrierCost_mono; nra).
  nra.
Qed.

Lemma boxTotal_nonneg box n q :
  In box Shipping.flatBoxes -> 0 < n -> 0 <= q -> 0 <= Properties.boxTotal weight box n q.
Proof.
  intros Hin Hn Hq. destruct (flatBoxes_positive box Hin) as (_ & _ & _ & Hcost).
  unfold Properties.boxTotal.
  pose proof (ceilQ_nonneg (q / n) (div_nonneg q n Hn Hq)).
  pose proof (getCarrierCost_nonneg (q * weight)).
  nra.
Qed.

(** Whether a box is usable, and how many books it then takes, does not
    depend on the quantity. *)
Lemma considerBox_cases box :
  In box Shipping.flatBoxes ->
  (forall q best,
      Shipping.bestCost (Shipping.considerBox q w l s weight best box)
      = Shipping.bestCost best)
  \/ (exists n, 0 < n /\ forall q best,
        Shipping.bestCost (Shipping.considerBox q w l s weight best box)
        = if Num.lt (Num.Fin (Properties.boxTotal weight box n q)) (Shipping.bestCost best)
          then Num.Fin (Properties.boxTotal weight box n q)
          else Shipping.bestCost best).
Proof.
  intros Hin. unfold Shipping.considerBox.
  destruct (Shipping.tooLarge w l s box); [now left|].
  destruct (max_orientations w l s Hw Hl Hs box Hin) as (Hc & _).
  set (m := Num.max (Shipping.orientations w l s box)) in *.
  destruct (Num.eqb m (Num.Fin 0)) eqn:Ezero; [now left|].
  destruct (weight_cap weight Hweight) as (Ecap & _). rewrite Ecap.
  set (M := Num.floorQ (40 / weight)) in *.
  destruct (Num.gt (Num.Fin M) (Num.Fin 0)) eqn:EM; [|now left].
  unfold Num.gt in EM. cbn in EM. qbool.
  assert (Hn : forall n, 0 < n -> Num.min2 m (Num.Fin M) = Num.Fin n ->
            exists n, 0 < n /\ forall q best,
              Shipping.bestCost
                (if Num.lt
                      (Num.add
                         (Num.mul (Num.ceil (Num.div (Num.Fin q)
                                               (Num.min2 m (Num.Fin M))))
                                  (Num.Fin (Shipping.flatCost box)))
                         (Num.Fin (Shipping.getCarrierCost (q * weight))))
                      (Shipping.bestCost best)
                 then {| Shipping.bestCost :=
                           Num.add
                             (Num.mul (Num.ceil (Num.div (Num.Fin q)
                                                   (Num.min2 m (Num.Fin M))))
                                      (Num.Fin (Shipping.flatCost box)))
                             (Num.Fin (Shipping.getCarrierCost (q * weight)));
                         Shipping.bestBreakdown :=
                           Some {| Shipping.boxName := Shipping.flatName box;
                                   Shipping.boxCount :=
                                     Num.ceil (Num.div (Num.Fin q)
                                                 (Num.min2 m (Num.Fin M)));
                                   Shipping.booksPerBox := Num.min2 m (Num.Fin M);
                                   Shipping.totalWeightLbs := q * weight |} |}
                 else best)
              = if Num.lt (Num.Fin (Properties.boxTotal weight box n q)) (Shipping.bestCost best)
                then Num.Fin (Properties.boxTotal weight box n q)
                else Shipping.bestCost best).
  { intros n Hpos Emin. exists n. split; [exact Hpos|]. intros q best.
    rewrite Emin. unfold Num.div. rewrite (proj2 (Qeqb_false n 0)) by lra.
    cbn [Num.ceil Num.mul Num.add]. fold (Properties.boxTotal weight box n q).
    now destruct (Num.lt (Num.Fin (Properties.boxTotal weight box n q)) (Shipping.bestCost best)). }
  destruct Hc as [q0 Hq0| |].
  - right. cbn in Ezero. qbool.
    assert (Hqpos : 0 < q0).
    { destruct (Qlt_le_dec 0 q0) as [H|H]; [exact H|]. exfalso. apply Ezero. lra. }
    destruct (Num.Qltb M q0) eqn:EMq.
    + apply (Hn M EM). cbn. now rewrite EMq.
    + apply (Hn q0 Hqpos). cbn. now rewrite EMq.
  - right. apply (Hn M EM). reflexivity.
  - left. intros q best. reflexivity.
Qed.

Lemma fold_considerBox_mono q q' boxes : forall best best',
  0 <= q -> q <= q' ->
  (forall box, In box boxes -> In box Shipping.flatBoxes) ->
  Properties.costsOrdered (Shipping.bestCost best) (Shipping.bestCost best') ->
  Properties.costsOrdered
    (Shipping.bestCost (fold_left (Shipping.considerBox q w l s weight) boxes best))
    (Shipping.bestCost (fold_left (Shipping.considerBox q' w l s weight) boxes best')).
Proof.
  induction boxes as [|box boxes IH]; intros best best' Hq0 Hq Hsub Hord; cbn;
    [exact Hord|].
  apply IH; auto.
  { intros b Hb. apply Hsub. now right. }
  assert (Hin : In box Shipping.flatBoxes) by (apply Hsub; now left).
  destruct (considerBox_cases box Hin) as [Hskip|(n & Hn & Hstep)].
  - now rewrite !Hskip.
  - rewrite !Hstep.
    pose proof (boxTotal_mono box n q q' Hin Hn Hq) as Hmono.
    pose proof (boxTotal_nonneg box n q Hin Hn Hq0) as Hnonneg.
    destruct Hord as [(E & E')|(x & x' & E & E' & Hx0 & Hx)]; rewrite E, E'.
    + cbn. right. eauto 8.
    + cbn. right.
      destruct (Num.Qltb (Properties.boxTotal weight box n q) x) eqn:E1,
               (Num.Qltb (Properties.boxTotal weight box n q') x') eqn:E2; qbool;
        do 2 eexists; repeat split; try reflexivity; lra.
Qed.

Lemma calculateShipping_mono q q' overrideBoxName :
  0 <= q -> q <= q' ->
  Num.finite (Shipping.shippingCost
                (Shipping.calculateShipping q w l s weight overrideBoxName))
  <= Num.finite (Shipping.shippingCost
                   (Shipping.calculateShipping q' w l s weight overrideBoxName)).
Proof.
  intros Hq0 Hq. unfold Shipping.calculateShipping.
  rewrite (proj2 (Qleb_false weight 0) Hweight), !orb_false_r.
  assert (Hfold : forall a, 0 <= a -> a <= q' ->
            Properties.costsOrdered
              (Shipping.bestCost
                 (fold_left (Shipping.considerBox a w l s weight)
                    (Shipping.boxesToConsider overrideBoxName)
                    {| Shipping.bestCost := Num.PInf; Shipping.bestBreakdown := None |}))
              (Shipping.bestCost
                 (fold_left (Shipping.considerBox q' w l s weight)
                    (Shipping.boxesToConsider overrideBoxName)
                    {| Shipping.bestCost := Num.PInf; Shipping.bestBreakdown := None |}))).
  { intros a Ha0 Ha. apply fold_considerBox_mono; auto.
    - apply boxesToConsider_sub.
    - left. split; reflexivity. }
  assert (Hfinal : forall c c', Properties.costsOrdered c c' ->
            0 <= Num.finite (if Num.eqb c Num.PInf then Num.Fin 0 else c)
            /\ Num.finite (if Num.eqb c Num.PInf then Num.Fin 0 else c)
               <= Num.finite (if Num.eqb c' Num.PInf then Num.Fin 0 else c')).
  { intros c c' [(E & E')|(x & x' & E & E' & Hx0 & Hx)]; rewrite E, E'; cbn; lra. }
  destruct (Num.Qleb q 0) eqn:Eq, (Num.Qleb q' 0) eqn:Eq'; qbool;
    cbn [Shipping.shippingCost Num.finite]; try lra.
  - destruct (Hfinal _ _ (Hfold q' ltac:(lra) ltac:(lra))) as (H0 & _). exact H0.
  - exact (proj2 (Hfinal _ _ (Hfold q Hq0 Hq))).
Qed.
End PackerInQuantity.


(** ** Monotonicity of the estimate *)

Lemma scale_mono c x y : 0 <= c -> x <= y -> x * c <= y * c.
Proof. intros Hc H. now apply Qmult_le_compat_r. Qed.

Lemma scale_nonneg c x : 0 <= c -> 0 <= x -> 0 <= x * c.
Proof. intros Hc H. now apply Qmult_le_0_compat. Qed.

Lemma product_mono a b a' b' :
  0 <= a -> a <= a' -> 0 <= b -> b <= b' -> a * b <= a' * b'.
Proof. intros. nra. Qed.

(** [cond ? a : 0] grows when the condition can only switch on and the
    value grows. *)
Lemma gated_mono (g g' : bool) (a a' : Q) :
  (g = true -> g' = true) -> 0 <= a' -> (g = true -> a <= a') ->
  (if g then a else 0) <= (if g' then a' else 0).
Proof.
  intros Hg Ha' Ha.
  destruct g, g';
    [apply Ha; reflexivity | discriminate (Hg eq_refl) | exact Ha' | lra].
Qed.

Lemma gated_nonneg (g : bool) (a : Q) : 0 <= a -> 0 <= (if g then a else 0).
Proof. intros H. destruct g; lra. Qed.

Lemma positive_gate q q' : q <= q' -> Num.Qltb 0 q = true -> Num.Qltb 0 q' = true.
Proof. intros H E. qbool. apply Qltb_true. lra. Qed.

Lemma positivePart_mono x y :
  x <= y -> Cost.positivePart x <= Cost.positivePart y.
Proof. intros H. unfold Cost.positivePart. qcases; lra. Qed.

Lemma positivePart_nonneg x : 0 <= Cost.positivePart x.
Proof. unfold Cost.positivePart. qcases; lra. Qed.

Lemma findPaper_in paperData s p :
  Cost.findPaper paperData s = Some p -> In p paperData.
Proof. unfold Cost.findPaper. intros H. now apply find_some in H. Qed.

Lemma no_error_validation paperData d :
  Cost.error (Cost.calculateCosts paperData d) = None ->
  Cost.validationError paperData d = None.
Proof.
  unfold Cost.calculateCosts.
  destruct (Cost.validationError paperData d); [discriminate|reflexivity].
Qed.

Lemma no_error_total paperData d :
  Cost.error (Cost.calculateCosts paperData d) = None ->
  Cost.totalCost (Cost.calculateCosts paperData d) = Cost.totalCostOf paperData d.
Proof.
  intros H. apply no_error_validation in H. unfold Cost.calculateCosts.
  now rewrite H.
Qed.

(** An accepted job with a cover on a catalogued stock prints one cover per
    sheet. *)
Lemma accepted_cover_imposition paperData d cp :
  Cost.validationError paperData d = None ->
  Cost.hasCover d = true -> Cost.coverPaper paperData d = Some cp ->
  Cost.coverImpositionOf paperData d = 1.
Proof.
  intros Hval Hcover Hcp. unfold Cost.validationError in Hval.
  repeat match type of Hval with
    | (if ?c then Some _ else _) = None =>
        destruct c eqn:?; [discriminate|]
    end.
  rewrite Hcover, Hcp in *. cbn [Cost.isSome andb] in *.
  unfold Cost.coverImpositionOf in *. rewrite Hcover, Hcp in *.
  match goal with
  | |- (if ?c then 1 else 0) = 1 => destruct c; [reflexivity|]
  end.
  match goal with H : Num.Qeqb 0 0 = false |- _ => discriminate H end.
Qed.

Section Monotone.
Variables (paperData : list Cost.PaperStock) (d d' : Cost.JobDetails).
Hypotheses (Hcat : Properties.goodCatalog paperData)
           (Hadm : Properties.admissible paperData d)
           (Hadm' : Properties.admissible paperData d')
           (Hgrow : Properties.grows d d').

Ltac fields :=
  destruct Hgrow as (Etitle & Ewidth & Eheight & EbwSku & EcolorSku & Ecover
                     & EcoverSku & EprintColor & Esides & Elam & Ebind & Eship
                     & Ebox & Hquantity & HbwPages & HcolorPages & Hmarkup
                     & Hlabor & Hspoilage);
  destruct Hadm as (Hq0 & Hw0 & Hh0 & Hbw0 & Hcol0 & Hrate0 & Hmark0 & Hspoil0 & Herr);
  destruct Hadm' as (Hq0' & Hw0' & Hh0' & Hbw0' & Hcol0' & Hrate0' & Hmark0'
                     & Hspoil0' & Herr').

Lemma bwPaper_fixed : Cost.bwPaper paperData d' = Cost.bwPaper paperData d.
Proof. fields. unfold Cost.bwPaper. now rewrite EbwSku. Qed.

Lemma colorPaper_fixed : Cost.colorPaper paperData d' = Cost.colorPaper paperData d.
Proof. fields. unfold Cost.colorPaper. now rewrite EcolorSku. Qed.

Lemma coverPaper_fixed : Cost.coverPaper paperData d' = Cost.coverPaper paperData d.
Proof. fields. unfold Cost.coverPaper. now rewrite EcoverSku. Qed.

Lemma bwImposition_fixed :
  Cost.bwImpositionOf paperData d' = Cost.bwImpositionOf paperData d.
Proof.
  pose proof bwPaper_fixed as E. fields.
  unfold Cost.bwImpositionOf, Cost.paperImposition. now rewrite E, Ewidth, Eheight.
Qed.

Lemma colorImposition_fixed :
  Cost.colorImpositionOf paperData d' = Cost.colorImpositionOf paperData d.
Proof.
  pose proof colorPaper_fixed as E. fields.
  unfold Cost.colorImpositionOf, Cost.paperImposition.
  now rewrite E, Ewidth, Eheight.
Qed.

Lemma coverImposition_fixed :
  Cost.coverImpositionOf paperData d' = Cost.coverImpositionOf paperData d.
Proof.
  pose proof coverPaper_fixed as E. fields.
  apply no_error_validation in Herr, Herr'.
  destruct (Cost.hasCover d) eqn:Hc.
  - destruct (Cost.coverPaper paperData d) as [cp|] eqn:Hcp.
    + rewrite (accepted_cover_imposition paperData d cp Herr Hc Hcp).
      apply (accepted_cover_imposition paperData d' cp Herr'); congruence.
    + unfold Cost.coverImpositionOf. rewrite E, Hcp, Ecover, Hc. reflexivity.
  - unfold Cost.coverImpositionOf. rewrite Ecover, Hc. reflexivity.
Qed.

Lemma spoilageMultiplier_mono :
  1 <= Cost.spoilageMultiplier d
  /\ Cost.spoilageMultiplier d <= Cost.spoilageMultiplier d'.
Proof.
  fields. unfold Cost.spoilageMultiplier, Qdiv. change (/ 100) with (1 # 100).
  qcases; split; lra.
Qed.

(** Press sheets of one interior stock. *)
Lemma interiorPressSheets_mono imposition pages pages' :
  pages <= pages' ->
  0 <= Cost.interiorPressSheets d imposition pages
  /\ Cost.interiorPressSheets d imposition pages
     <= Cost.interiorPressSheets d' imposition pages'.
Proof.
  intros Hpages. destruct spoilageMultiplier_mono as (Hm1 & Hm). fields.
  unfold Cost.interiorPressSheets.
  assert (Hleaves : 0 <= Num.ceilQ (Cost.positivePart pages / 2)
                    /\ Num.ceilQ (Cost.positivePart pages / 2)
                       <= Num.ceilQ (Cost.positivePart pages' / 2)).
  { pose proof (positivePart_nonneg pages). pose proof (positivePart_mono _ _ Hpages).
    split; [apply ceilQ_nonneg, div_nonneg; [reflexivity|assumption]|].
    apply ceilQ_mono, div_mono; [reflexivity|assumption]. }
  destruct Hleaves as (Hl0 & Hl).
  destruct (Num.Qltb 0 imposition) eqn:Eimp; qbool.
  - assert (Hin : 0 <= Cost.quantity d * Num.ceilQ (Cost.positivePart pages / 2)
                  /\ Cost.quantity d * Num.ceilQ (Cost.positivePart pages / 2)
                     <= Cost.quantity d' * Num.ceilQ (Cost.positivePart pages' / 2)).
    { split; [apply Qmult_le_0_compat; assumption|].
      apply product_mono; assumption. }
    destruct Hin as (Hin0 & Hin).
    pose proof (ceilQ_nonneg _ (div_nonneg _ _ Eimp Hin0)) as Hx0.
    pose proof (ceilQ_mono _ _ (div_mono _ _ _ Eimp Hin)) as Hx.
    split.
    + apply ceilQ_nonneg. apply Qmult_le_0_compat; lra.
    + apply ceilQ_mono. apply product_mono; lra.
  - split.
    + apply ceilQ_nonneg. lra.
    + apply ceilQ_mono. lra.
Qed.

Lemma bwPressSheets_mono :
  0 <= Cost.bwPressSheetsOf paperData d
  /\ Cost.bwPressSheetsOf paperData d <= Cost.bwPressSheetsOf paperData d'.
Proof.
  unfold Cost.bwPressSheetsOf. rewrite bwImposition_fixed.
  apply interiorPressSheets_mono. fields. exact HbwPages.
Qed.

Lemma colorPressSheets_mono :
  0 <= Cost.colorPressSheetsOf paperData d
  /\ Cost.colorPressSheetsOf paperData d <= Cost.colorPressSheetsOf paperData d'.
Proof.
  unfold Cost.colorPressSheetsOf. rewrite colorImposition_fixed.
  apply interiorPressSheets_mono. fields. exact HcolorPages.
Qed.

Lemma coverPressSheets_mono :
  0 <= Cost.coverPressSheetsOf paperData d
  /\ Cost.coverPressSheetsOf paperData d <= Cost.coverPressSheetsOf paperData d'.
Proof.
  destruct spoilageMultiplier_mono as (Hm1 & Hm).
  pose proof coverImposition_fixed as Eci. fields.
  unfold Cost.coverPressSheetsOf. rewrite Eci, Ecover.
  destruct (Cost.hasCover d); [|split; lra].
  destruct (Num.Qltb 0 (Cost.coverImpositionOf paperData d)) eqn:Eimp; qbool.
  - pose proof (ceilQ_nonneg _ (div_nonneg _ _ Eimp Hq0)) as Hx0.
    pose proof (ceilQ_mono _ _ (div_mono _ _ _ Eimp Hquantity)) as Hx.
    split.
    + apply ceilQ_nonneg. apply Qmult_le_0_compat; lra.
    + apply ceilQ_mono. apply product_mono; lra.
  - split.
    + apply ceilQ_nonneg. lra.
    + apply ceilQ_mono. lra.
Qed.

Lemma paperCostOf_mono paper x y :
  (forall p, paper = Some p -> In p paperData) ->
  0 <= x -> x <= y ->
  0 <= Cost.paperCostOf paper x /\ Cost.paperCostOf paper x <= Cost.paperCostOf paper y.
Proof.
  intros Hin Hx Hxy. unfold Cost.paperCostOf.
  destruct paper as [p|]; [|split; lra].
  destruct (Hcat p (Hin p eq_refl)) as (_ & _ & Hcost).
  split; [now apply Qmult_le_0_compat | now apply scale_mono].
Qed.

Lemma paperCosts_mono :
  0 <= Cost.bwPaperCostOf paperData d + Cost.colorPaperCostOf paperData d
       + Cost.coverPaperCostOf paperData d
  /\ Cost.bwPaperCostOf paperData d + Cost.colorPaperCostOf paperData d
     + Cost.coverPaperCostOf paperData d
     <= Cost.bwPaperCostOf paperData d' + Cost.colorPaperCostOf paperData d'
        + Cost.coverPaperCostOf paperData d'.
Proof.
  destruct bwPressSheets_mono as (Hb0 & Hb).
  destruct colorPressSheets_mono as (Hc0 & Hc).
  destruct coverPressSheets_mono as (Hv0 & Hv).
  unfold Cost.bwPaperCostOf, Cost.colorPaperCostOf, Cost.coverPaperCostOf.
  rewrite bwPaper_fixed, colorPaper_fixed, coverPaper_fixed.
  destruct (paperCostOf_mono (Cost.bwPaper paperData d) _ _
              (findPaper_in paperData _) Hb0 Hb) as (H1 & H2).
  destruct (paperCostOf_mono (Cost.colorPaper paperData d) _ _
              (findPaper_in paperData _) Hc0 Hc) as (H3 & H4).
  destruct (paperCostOf_mono (Cost.coverPaper paperData d) _ _
              (findPaper_in paperData _) Hv0 Hv) as (H5 & H6).
  fields. rewrite Ecover. destruct (Cost.hasCover d); split; lra.
Qed.

Lemma clickCosts_mono :
  0 <= Cost.bwClickCostOf paperData d + Cost.colorClickCostOf paperData d
       + Cost.coverClickCostOf paperData d
  /\ Cost.bwClickCostOf paperData d + Cost.colorClickCostOf paperData d
     + Cost.coverClickCostOf paperData d
     <= Cost.bwClickCostOf paperData d' + Cost.colorClickCostOf paperData d'
        + Cost.coverClickCostOf paperData d'.
Proof.
  destruct bwPressSheets_mono as (Hb0 & Hb).
  destruct colorPressSheets_mono as (Hc0 & Hc).
  destruct coverPressSheets_mono as (Hv0 & Hv).
  fields.
  unfold Cost.bwClickCostOf, Cost.colorClickCostOf, Cost.coverClickCostOf,
    Cost.bwClicks, Cost.colorClicks, Cost.coverClicks,
    Cost.BW_CLICK_COST, Cost.COLOR_CLICK_COST.
  rewrite Ecover, Esides, EprintColor.
  destruct (Cost.hasCover d), (Cost.coverPrintsOnBothSides d),
    (Cost.coverPrintColor d); split; lra.
Qed.

Lemma laminationCost_mono :
  0 <= Cost.laminationCostOf d
  /\ Cost.laminationCostOf d <= Cost.laminationCostOf d'.
Proof.
  fields. unfold Cost.laminationCostOf, Cost.laminated,
    Cost.GLOSS_LAMINATE_COST_PER_COVER, Cost.MATTE_LAMINATE_COST_PER_COVER.
  rewrite Ecover, Elam.
  destruct (Cost.hasCover d), (Cost.laminationType d); cbn [andb];
    qcases; split; lra.
Qed.

Lemma printingTime_mono :
  0 <= Cost.printingTimeMinsOf paperData d
  /\ Cost.printingTimeMinsOf paperData d <= Cost.printingTimeMinsOf paperData d'.
Proof.
  destruct bwPressSheets_mono as (Hb0 & Hb).
  destruct colorPressSheets_mono as (Hc0 & Hc).
  destruct coverPressSheets_mono as (Hv0 & Hv).
  unfold Cost.printingTimeMinsOf, Cost.totalPressSheets, Cost.PRINTING_SPEED_SPM, Qdiv.
  change (/ 15) with (1 # 15). split; lra.
Qed.

Lemma laminatingTime_mono :
  0 <= Cost.laminatingTimeMinsOf paperData d
  /\ Cost.laminatingTimeMinsOf paperData d <= Cost.laminatingTimeMinsOf paperData d'.
Proof.
  destruct coverPressSheets_mono as (Hv0 & Hv). fields.
  unfold Cost.laminatingTimeMinsOf, Cost.laminated, Cost.LAMINATING_SPEED_MPM, Qdiv.
  change (/ 5) with (1 # 5).
  rewrite coverPaper_fixed, Ecover, Elam.
  destruct (Cost.coverPaper paperData d) as [cp|] eqn:Hcp; [|split; lra].
  destruct (Hcat cp (findPaper_in paperData _ cp Hcp)) as (_ & Hheight & _).
  assert (Hval : forall x, 0 <= x ->
            0 <= x * (Cost.parentHeight cp * (254 # 10000)) * (1 # 5)) by (intros; nra).
  assert (Hval' : Cost.coverPressSheetsOf paperData d
                    * (Cost.parentHeight cp * (254 # 10000)) * (1 # 5)
                  <= Cost.coverPressSheetsOf paperData d'
                     * (Cost.parentHeight cp * (254 # 10000)) * (1 # 5)) by nra.
  split.
  - apply gated_nonneg. now apply Hval.
  - apply gated_mono.
    + destruct (Cost.hasCover d), (Cost.laminationType d); cbn [andb]; try discriminate;
        apply positive_gate; exact Hv.
    + apply Hval. lra.
    + intros _. exact Hval'.
Qed.

Lemma bindingTimes_mono :
  0 <= Cost.bindingSetupMins d + Cost.bindingTimeMinsOf d
  /\ Cost.bindingSetupMins d + Cost.bindingTimeMinsOf d
     <= Cost.bindingSetupMins d' + Cost.bindingTimeMinsOf d'.
Proof.
  fields.
  unfold Cost.bindingSetupMins, Cost.bindingTimeMinsOf,
    Cost.PERFECT_BINDER_SETUP_MINS, Cost.SADDLE_STITCHER_SETUP_MINS,
    Cost.PERFECT_BINDER_SPEED_BPH, Cost.SADDLE_STITCHER_SPEED_BPH,
    Cost.BINDING_INEFFICIENCY_FACTOR, Qdiv.
  change (/ (300 * / 60)) with (60 # 300).
  change (/ (400 * / 60)) with (60 # 400).
  rewrite Ebind.
  destruct (Cost.bindingMethod d); qcases; split; lra.
Qed.

Lemma trimmingTime_mono :
  0 <= Cost.trimmingTimeMinsOf d
  /\ Cost.trimmingTimeMinsOf d <= Cost.trimmingTimeMinsOf d'.
Proof.
  fields.
  unfold Cost.trimmingTimeMinsOf, Cost.TRIMMING_SETUP_MINS,
    Cost.TRIMMING_BOOKS_PER_CYCLE, Cost.TRIMMING_CYCLE_TIME_MINS.
  assert (H250 : (0 < 250)%Q) by reflexivity.
  pose proof (ceilQ_nonneg _ (div_nonneg _ _ H250 Hq0)) as Hx0.
  pose proof (ceilQ_nonneg _ (div_nonneg _ _ H250 Hq0')) as Hx0'.
  pose proof (ceilQ_mono _ _ (div_mono _ _ _ H250 Hquantity)) as Hx.
  qcases; split; lra.
Qed.

Lemma productionTime_mono :
  0 <= Cost.productionTimeHoursOf paperData d
  /\ Cost.productionTimeHoursOf paperData d <= Cost.productionTimeHoursOf paperData d'.
Proof.
  destruct printingTime_mono as (Hp0 & Hp).
  destruct laminatingTime_mono as (Hl0 & Hl).
  destruct bindingTimes_mono as (Hb0 & Hb).
  destruct trimmingTime_mono as (Ht0 & Ht).
  unfold Cost.productionTimeHoursOf, Cost.totalTimeMins, Cost.wastageTimeMinsOf,
    Cost.totalProductionTimeMins, Cost.setupTimeMinsOf, Cost.BASE_PREP_TIME_MINS,
    Cost.WASTAGE_FACTOR, Qdiv.
  change (/ 60) with (1 # 60). split; lra.
Qed.

Lemma laborCost_mono :
  0 <= Cost.laborCostOf paperData d
  /\ Cost.laborCostOf paperData d <= Cost.laborCostOf paperData d'.
Proof.
  destruct productionTime_mono as (Hhours0 & Hhours). fields.
  unfold Cost.laborCostOf. split.
  - now apply Qmult_le_0_compat.
  - now apply product_mono.
Qed.

Lemma subtotal_mono :
  0 <= Cost.subtotalOf paperData d
  /\ Cost.subtotalOf paperData d <= Cost.subtotalOf paperData d'.
Proof.
  destruct paperCosts_mono as (Hp0 & Hp).
  destruct clickCosts_mono as (Hc0 & Hc).
  destruct laminationCost_mono as (Hl0 & Hl).
  destruct laborCost_mono as (Hw0 & Hw).
  unfold Cost.subtotalOf. split; lra.
Qed.

Lemma markupAmount_mono :
  Cost.markupAmountOf paperData d <= Cost.markupAmountOf paperData d'.
Proof.
  destruct subtotal_mono as (Hs0 & Hs). fields.
  unfold Cost.markupAmountOf, Qdiv. change (/ 100) with (1 # 100).
  apply product_mono; lra.
Qed.

Lemma thickness_nonneg p : In p paperData -> 0 <= Cost.getPaperThicknessInches p.
Proof.
  intros Hin. destruct (Hcat p Hin) as (Hgsm & _).
  unfold Cost.getPaperThicknessInches, Qdiv. change (/ 25400) with (1 # 25400).
  destruct (Cost.type p); lra.
Qed.

Lemma spineWidth_nonneg : 0 <= Cost.spineWidth paperData d.
Proof.
  unfold Cost.spineWidth.
  destruct (Cost.hasCover d); [|lra].
  destruct (Cost.coverPaper paperData d); [|lra].
  destruct (Cost.bindingMethod d); try lra.
  assert (Hleaves : forall x, 0 <= Num.ceilQ (Cost.positivePart x / 2)).
  { intros x. apply ceilQ_nonneg, div_nonneg; [reflexivity|].
    apply positivePart_nonneg. }
  assert (Hthick : forall (paper : option Cost.PaperStock) (g : bool),
            (forall p, paper = Some p -> In p paperData) ->
            0 <= match paper with
                 | Some p => if g then Cost.getPaperThicknessInches p else 0
                 | None => 0
                 end).
  { intros [stock|] g Hin; [|lra]. destruct g; [|lra].
    apply thickness_nonneg. now apply Hin. }
  pose proof (Hleaves (Cost.bwPages d)).
  pose proof (Hleaves (Cost.colorPages d)).
  pose proof (Hthick (Cost.bwPaper paperData d) (Num.Qltb 0 (Cost.bwPages d))
                (findPaper_in paperData _)).
  pose proof (Hthick (Cost.colorPaper paperData d) (Num.Qltb 0 (Cost.colorPages d))
                (findPaper_in paperData _)).
  cbv zeta. nra.
Qed.

Hypothesis Hpages : Properties.pagesFixedWhenShipping d d'.

Lemma shippingCost_mono :
  Cost.shippingCostOf paperData d <= Cost.shippingCostOf paperData d'.
Proof.
  pose proof spineWidth_nonneg as Hspine.
  pose proof bwPaper_fixed as Ebw. pose proof colorPaper_fixed as Ecol.
  pose proof coverPaper_fixed as Ecov.
  fields.
  unfold Cost.shippingCostOf, Cost.shippingResult. rewrite Eship.
  destruct (Cost.calculateShipping d) eqn:Hship; [|cbn; lra].
  destruct (Hpages Hship) as (EbwPages & EcolorPages).
  assert (Espine : Cost.spineWidth paperData d' = Cost.spineWidth paperData d).
  { unfold Cost.spineWidth.
    now rewrite Ecover, Ecov, Ebind, Ebw, Ecol, EbwPages, EcolorPages. }
  assert (Eweight : Cost.calculateSingleBookWeightLbs paperData d'
                    = Cost.calculateSingleBookWeightLbs paperData d).
  { unfold Cost.calculateSingleBookWeightLbs.
    now rewrite Espine, Ecover, Ecov, Ebw, Ecol, EbwPages, EcolorPages, Ewidth, Eheight. }
  rewrite Espine, Eweight, Ewidth, Eheight, Ebox.
  destruct (Qlt_le_dec 0 (Cost.calculateSingleBookWeightLbs paperData d)) as [Hwt|Hwt].
  - apply calculateShipping_mono; assumption.
  - unfold Shipping.calculateShipping.
    rewrite (proj2 (Qleb_true _ 0) Hwt), !orb_true_r. cbn. lra.
Qed.

Lemma totalCostOf_mono :
  Cost.totalCostOf paperData d <= Cost.totalCostOf paperData d'.
Proof.
  destruct subtotal_mono as (_ & Hs).
  pose proof markupAmount_mono. pose proof shippingCost_mono.
  unfold Cost.totalCostOf. lra.
Qed.
End Monotone.

(** Closed facts on concrete numbers, by evaluation. *)
Ltac evaluate :=
  first [ reflexivity
        | vm_compute; reflexivity
        | vm_compute; discriminate ].

Lemma examples_goodCatalog : Properties.goodCatalog Examples.catalog.
Proof. intros p [<-|[]]. repeat split; evaluate. Qed.

(** C9, as the specification states it, fails.  One copy of an 8 x 9 in
    text block on 148 gsm stock weighs 39.4 lb at 5200 pages and ships in
    one large box for 3.00 + 35.00; at 5400 pages it weighs 40.9 lb, no box
    may carry it, the packer returns no plan and the shipping cost 0: the
    total falls from 350.98 to 324.19 although only [bwPages] was raised. *)
Lemma total_cost_monotone_counterexample :
  let d := Examples.textBlock 1 5200 in
  let d' := Examples.textBlock 1 5400 in
  Properties.goodCatalog Examples.catalog
  /\ Properties.admissible Examples.catalog d
  /\ Properties.admissible Examples.catalog d'
  /\ Properties.grows d d'
  /\ Cost.calculateSingleBookWeightLbs Examples.catalog d <= 40
  /\ 40 < Cost.calculateSingleBookWeightLbs Examples.catalog d'
  /\ Num.eqb (Shipping.shippingCost (Cost.shippingResult Examples.catalog d))
             (Num.Fin 38) = true
  /\ Cost.shippingBreakdown (Cost.calculateCosts Examples.catalog d') = None
  /\ Cost.totalCost (Cost.calculateCosts Examples.catalog d')
     < Cost.totalCost (Cost.calculateCosts Examples.catalog d).
Proof.
  cbv zeta. split; [exact examples_goodCatalog|].
  unfold Properties.admissible, Properties.grows.
  repeat split; evaluate.
Qed.

(** C9, amended.  Over a catalog of physical values, between two admissible
    jobs that differ only in that none of quantity, bw_pages, color_pages,
    markup_percent, labor_rate and spoilage_percent is lower in the second,
    the total cost of the second is not lower than that of the first,
    provided the page counts are left as they are whenever shipping is
    calculated.  In particular the total is non-decreasing in each of
    quantity, markup_percent, labor_rate and spoilage_percent with every
    other field fixed, and in bw_pages and color_pages for jobs estimated
    without shipping. *)
Theorem total_cost_monotone
  (paperData : list Cost.PaperStock) (d d' : Cost.JobDetails) :
  Properties.goodCatalog paperData ->
  Properties.admissible paperData d ->
  Properties.admissible paperData d' ->
  Properties.grows d d' ->
  Properties.pagesFixedWhenShipping d d' ->
  Cost.totalCost (Cost.calculateCosts paperData d)
  <= Cost.totalCost (Cost.calculateCosts paperData d').
Proof.
  intros Hcat Hadm Hadm' Hgrow Hpages.
  rewrite (no_error_total paperData d), (no_error_total paperData d').
  - now apply totalCostOf_mono.
  - apply Hadm'.
  - apply Hadm.
Qed.

Lemma total_cost_monotone_witness :
  Cost.totalCost (Cost.calculateCosts Examples.catalog (Examples.textBlock 100 200))
  <= Cost.totalCost (Cost.calculateCosts Examples.catalog (Examples.textBlock 250 200)).
Proof.
  apply total_cost_monotone.
  - intros p [<-|[]]. repeat split; evaluate.
  - unfold Properties.admissible. repeat split; evaluate.
  - unfold Properties.admissible. repeat split; evaluate.
  - unfold Properties.grows. repeat split; evaluate.
  - intros _. split; reflexivity.
Defined.

(** ** Reading an imposed job back *)

Local Open Scope Z_scope.

Lemma flat_map_map_in {A B C} (f : A -> B) (h : B -> list C) (l : list A) :
  flat_map h (map f l) = flat_map (fun x => h (f x)) l.
Proof. induction l; simpl; congruence. Qed.

Lemma flat_map_grid {A} (h : Z -> list A) N S :
  0 <= N -> 0 <= S ->
  flat_map (fun k => flat_map (fun i => h (k * S + i)) (seqZ S)) (seqZ N)
  = flat_map h (seqZ (N * S)).
Proof.
  intros HN HS. pattern N. apply natlike_ind; [reflexivity| |exact HN].
  intros x Hx IH. unfold Z.succ. rewrite seqZ_succ, flat_map_app, IH by lia.
  replace ((x + 1) * S) with (x * S + S) by lia.
  rewrite seqZ_add, flat_map_app, flat_map_map_in by nia.
  simpl. now rewrite app_nil_r.
Qed.

Lemma rev_seqZ n : 0 <= n -> rev (seqZ n) = map (fun j => n - 1 - j) (seqZ n).
Proof.
  intros Hn. pattern n. apply natlike_ind; [reflexivity| |exact Hn].
  intros x Hx IH. unfold Z.succ. rewrite seqZ_succ at 1 by lia.
  rewrite rev_app_distr, IH.
  replace (seqZ (x + 1)) with (seqZ (1 + x)) by (f_equal; lia).
  rewrite seqZ_add by lia. change (seqZ 1) with [0]. cbn [rev app map].
  rewrite map_map. f_equal; [lia|].
  apply map_ext. intros; lia.
Qed.

Lemma frontPage_at (t : ImpositionType) columns rows isDuplex P k i :
  isBooklet t = false -> 0 <= i < columns * rows ->
  Finishing.frontPage t columns rows isDuplex P k i
  = at_ (Imposition.pagesForFront t columns rows isDuplex P k) i.
Proof.
  intros Hb Hi. unfold Finishing.frontPage, Imposition.drawnFront. rewrite Hb.
  rewrite pageAtSlot_drawSlots. unfold Imposition.slotsPerSheet. rewrite Hb. zcases.
Qed.

Lemma behind_in_range columns rows i :
  0 < columns -> 0 <= i < columns * rows ->
  0 <= i / columns < rows /\ 0 <= i mod columns < columns
  /\ i = i / columns * columns + i mod columns
  /\ 0 <= CollateCut.behind columns i < columns * rows.
Proof.
  intros Hc Hi. unfold CollateCut.behind.
  pose proof (Z.div_mod i columns ltac:(lia)).
  pose proof (Z.mod_pos_bound i columns Hc).
  assert (0 <= i / columns) by (apply Z.div_pos; lia).
  assert (i / columns < rows) by (apply Z.div_lt_upper_bound; lia).
  repeat split; nia.
Qed.

(** Turning a duplex sheet over: behind front slot [i] lies the entry [i] of
    the back-side array when the mode reverses its rows (stack and collate
    and cut), and the entry of the mirrored slot otherwise. *)
Lemma backPage_behind (t : ImpositionType) columns rows P k i :
  isBooklet t = false -> 0 < columns -> 0 <= i < columns * rows ->
  List.length (Imposition.pagesForBack t columns rows P k)
  = Z.to_nat (columns * rows) ->
  Finishing.backPage t columns rows true P k (CollateCut.behind columns i)
  = at_ (Imposition.pagesForBack t columns rows P k)
        (if isStackOrCollate t then i else CollateCut.behind columns i).
Proof.
  intros Hb Hc Hi Hlen. unfold Finishing.backPage.
  destruct (drawnBack_duplex t columns rows P k Hb) as (back & -> & Hs).
  rewrite Hs.
  destruct (behind_in_range columns rows i Hc Hi) as (Hq & Hm & Hdm & Hbr).
  replace ((0 <=? CollateCut.behind columns i)
           && (CollateCut.behind columns i <? columns * rows)) with true
    by (symmetry; zcases).
  unfold Imposition.pagesForBackToRender.
  destruct (isStackOrCollate t) eqn:Hsc; cbn [andb]; [|reflexivity].
  destruct (Z.ltb_spec 1 columns) as [Hgt|Hle].
  - unfold CollateCut.behind. rewrite at_reverseRows by (auto; lia).
    f_equal. lia.
  - assert (columns = 1) by lia. subst columns.
    unfold CollateCut.behind. f_equal. rewrite Z.mod_1_r, Z.div_1_r. lia.
Qed.

Lemma pagesForBack_length (t : ImpositionType) columns rows P k :
  isBooklet t = false ->
  List.length (Imposition.pagesForBack t columns rows P k)
  = Z.to_nat (columns * rows).
Proof.
  intros Hb. unfold Imposition.pagesForBack, Imposition.slotsPerSheet.
  destruct t; try discriminate; cbn [isBooklet];
    now rewrite ?length_map, seqZ_length.
Qed.

Lemma leaf_duplex (t : ImpositionType) columns rows P k i :
  isBooklet t = false -> 0 < columns -> 0 <= i < columns * rows ->
  Finishing.leaf t columns rows true P k i
  = [at_ (Imposition.pagesForFront t columns rows true P k) i;
     at_ (Imposition.pagesForBack t columns rows P k)
         (if isStackOrCollate t then i else CollateCut.behind columns i)].
Proof.
  intros Hb Hc Hi.
  pose proof (backPage_behind t columns rows P k i Hb Hc Hi
                (pagesForBack_length t columns rows P k Hb)) as Hback.
  unfold Finishing.backPage in Hback. unfold Finishing.leaf.
  rewrite frontPage_at by auto.
  destruct (drawnBack_duplex t columns rows P k Hb) as (back & Hbk & _).
  rewrite Hbk in *. now rewrite Hback.
Qed.

Lemma leaf_simplex (t : ImpositionType) columns rows P k i :
  isBooklet t = false -> 0 <= i < columns * rows ->
  Finishing.leaf t columns rows false P k i
  = [at_ (Imposition.pagesForFront t columns rows false P k) i].
Proof.
  intros Hb Hi. unfold Finishing.leaf. rewrite frontPage_at by auto.
  unfold Imposition.drawnBack. now rewrite Hb.
Qed.

Lemma pages_then_blanks P N :
  0 <= P <= N ->
  map (fun j => if j <? P then Some j else None) (seqZ N)
  = map Some (seqZ P) ++ repeat None (Z.to_nat (N - P)).
Proof.
  intros H. replace N with (P + (N - P)) at 1 by lia.
  rewrite seqZ_add, map_app, map_map by lia. f_equal.
  - apply map_ext_in. intros j Hj. apply in_seqZ in Hj. zcases.
  - rewrite <- (seqZ_length (N - P)).
    assert (G : forall l, (forall x, In x l -> 0 <= x) ->
              map (fun x => if P + x <? P then Some (P + x) else None) l
              = repeat None (List.length l)).
    { induction l as [|a l IH]; [reflexivity|]. intros Hl.
      cbn [map List.length repeat]. rewrite IH by (intros; apply Hl; now right).
      f_equal. specialize (Hl a (or_introl eq_refl)). zcases. }
    apply G. intros x Hx. apply in_seqZ in Hx. lia.
Qed.

Section ReadingOrder.
Variables (columns rows P : Z).
Hypotheses (Hc : 0 < columns) (Hr : 0 < rows) (HP : 0 < P).

Let S := columns * rows.
Let page (j : Z) : option Z := if j <? P then Some j else None.

Lemma reading_S_pos : 0 < S.
Proof. unfold S. nia. Qed.

Lemma reading_page j : 0 <= j -> Imposition.pageOrNull P j = page j.
Proof.
  intros Hj. unfold Imposition.pageOrNull, Imposition.inputPages, page. zcases.
Qed.

Lemma stack_sheets (isDuplex : bool) :
  let d := if isDuplex then 2 else 1 in
  let N := Imposition.totalPhysicalSheets stack columns rows isDuplex P in
  0 < N /\ P <= N * S * d.
Proof.
  intros d N. pose proof reading_S_pos as HS.
  assert (Hd : 0 < S * d) by (unfold d; destruct isDuplex; lia).
  pose proof (ceil_div_spec P (S * d) Hd) as H1.
  pose proof (ceil_div_pos P (S * d) HP Hd) as H2.
  assert (HN : N = ceil_div P (S * d)).
  { unfold N, Imposition.totalPhysicalSheets, Imposition.slotsPerSheet.
    cbn [isBooklet]. fold S. fold d. zcases. }
  rewrite HN. split; [lia|nia].
Qed.

Lemma stack_leaf isDuplex k i :
  0 <= k -> 0 <= i < S ->
  Finishing.leaf stack columns rows isDuplex P k i
  = if isDuplex
    then [page (2 * (k * S + i)); page (2 * (k * S + i) + 1)]
    else [page (k * S + i)].
Proof.
  intros Hk Hi. pose proof reading_S_pos as HS.
  destruct isDuplex.
  - rewrite leaf_duplex by auto. cbn [isStackOrCollate].
    unfold Imposition.pagesForFront, Imposition.pagesForBack,
      Imposition.slotsPerSheet. cbn [isBooklet].
    rewrite !at_map_seqZ. fold S.
    replace ((0 <=? i) && (i <? S)) with true by (symmetry; zcases).
    rewrite !reading_page by nia. do 2 f_equal; [lia|]. f_equal. f_equal. lia.
  - rewrite leaf_simplex by auto.
    unfold Imposition.pagesForFront, Imposition.slotsPerSheet. cbn [isBooklet].
    rewrite at_map_seqZ. fold S.
    replace ((0 <=? i) && (i <? S)) with true by (symmetry; zcases).
    rewrite reading_page by nia. do 2 f_equal. lia.
Qed.

Lemma stack_sheetBySheet isDuplex :
  flat_map CollateCut.dropBlank
    (Finishing.sheetBySheet stack columns rows isDuplex P)
  = seqZ P.
Proof.
  pose proof reading_S_pos as HS.
  destruct (stack_sheets isDuplex) as (HN & Hcap).
  unfold Finishing.sheetBySheet, Finishing.sheets, Imposition.slotsPerSheet.
  cbn [isBooklet]. fold S.
  set (N := Imposition.totalPhysicalSheets stack columns rows isDuplex P) in *.
  set (h := fun j : Z => if isDuplex then [page (2 * j); page (2 * j + 1)]
                         else [page j]).
  rewrite (flat_map_ext_in _ (fun k => flat_map (fun i => h (k * S + i)) (seqZ S))).
  2:{ intros k Hk. apply in_seqZ in Hk. apply flat_map_ext_in.
      intros i Hi. apply in_seqZ in Hi. now rewrite stack_leaf by lia. }
  rewrite flat_map_grid by lia. unfold h.
  destruct (Bool.bool_dec isDuplex true) as [Hd|Hd];
    [|apply not_true_is_false in Hd]; rewrite Hd in *.
  - rewrite (flat_map_pairs page) by nia. apply dropBlank_pages. nia.
  - rewrite flat_map_singletons. apply dropBlank_pages. nia.
Qed.

Lemma repeat_sheets (isDuplex : bool) :
  let d := if isDuplex then 2 else 1 in
  let N := Imposition.totalPhysicalSheets repeat_ columns rows isDuplex P in
  0 < N /\ P <= N * d.
Proof.
  intros d N.
  pose proof (ceil_div_spec P 2 ltac:(lia)) as H1.
  pose proof (ceil_div_pos P 2 HP ltac:(lia)) as H2.
  unfold N, d, Imposition.totalPhysicalSheets. destruct isDuplex; zcases.
Qed.

Lemma repeat_leaf isDuplex k i :
  0 <= k -> 0 <= i < S ->
  Finishing.leaf repeat_ columns rows isDuplex P k i
  = if isDuplex then [page (2 * k); page (2 * k + 1)] else [page k].
Proof.
  intros Hk Hi.
  destruct isDuplex.
  - rewrite leaf_duplex by auto. cbn [isStackOrCollate].
    pose proof (behind_in_range columns rows i Hc Hi) as (_ & _ & _ & Hbr).
    unfold Imposition.pagesForFront, Imposition.pagesForBack,
      Imposition.slotsPerSheet. cbn [isBooklet].
    rewrite !at_map_seqZ. fold S in Hbr |- *.
    replace ((0 <=? i) && (i <? S)) with true by (symmetry; zcases).
    replace ((0 <=? CollateCut.behind columns i)
             && (CollateCut.behind columns i <? S)) with true
      by (symmetry; zcases).
    rewrite !reading_page by lia. do 2 f_equal; [lia|]. f_equal. f_equal. lia.
  - rewrite leaf_simplex by auto.
    unfold Imposition.pagesForFront, Imposition.slotsPerSheet. cbn [isBooklet].
    rewrite at_map_seqZ. fold S.
    replace ((0 <=? i) && (i <? S)) with true by (symmetry; zcases).
    rewrite reading_page by lia. do 2 f_equal. lia.
Qed.

Lemma repeat_pile isDuplex i :
  0 <= i < S ->
  flat_map CollateCut.dropBlank
    (Finishing.pile repeat_ columns rows isDuplex P i)
  = seqZ P.
Proof.
  intros Hi. destruct (repeat_sheets isDuplex) as (HN & Hcap).
  unfold Finishing.pile, Finishing.sheets.
  set (N := Imposition.totalPhysicalSheets repeat_ columns rows isDuplex P) in *.
  rewrite (flat_map_ext_in _ (fun k => if isDuplex
                                       then [page (2 * k); page (2 * k + 1)]
                                       else [page k])).
  2:{ intros k Hk. apply in_seqZ in Hk. now rewrite repeat_leaf by lia. }
  destruct (Bool.bool_dec isDuplex true) as [Hd|Hd];
    [|apply not_true_is_false in Hd]; rewrite Hd in *.
  - rewrite (flat_map_pairs page) by lia. apply dropBlank_pages. lia.
  - rewrite flat_map_singletons. apply dropBlank_pages. lia.
Qed.

Lemma booklet_sheets (isDuplex : bool) :
  let N := Imposition.totalPhysicalSheets booklet columns rows isDuplex P in
  0 < N /\ Imposition.paddedPageCount booklet P = 4 * N /\ P <= 4 * N.
Proof.
  intros N.
  pose proof (ceil_div_spec P 4 ltac:(lia)) as H1.
  pose proof (ceil_div_pos P 4 HP ltac:(lia)) as H2.
  assert (HN : N = ceil_div P 4).
  { unfold N, Imposition.totalPhysicalSheets, Imposition.paddedPageCount.
    cbn [isBooklet]. rewrite Z.div_mul by lia. zcases. }
  unfold Imposition.paddedPageCount. cbn [isBooklet]. lia.
Qed.

Lemma booklet_pages isDuplex k :
  let N := Imposition.totalPhysicalSheets booklet columns rows isDuplex P in
  0 <= k < N ->
  Finishing.frontPage booklet columns rows isDuplex P k 1 = page (2 * k)
  /\ Finishing.backPage booklet columns rows isDuplex P k 0 = page (2 * k + 1)
  /\ Finishing.backPage booklet columns rows isDuplex P k 1
     = page (2 * N + 2 * (N - 1 - k))
  /\ Finishing.frontPage booklet columns rows isDuplex P k 0
     = page (2 * N + 2 * (N - 1 - k) + 1).
Proof.
  intros N Hk. destruct (booklet_sheets isDuplex) as (HN & Hpad & Hcap).
  fold N in HN, Hpad, Hcap.
  assert (Hin : forall j, 0 <= j -> Imposition.inputPages P j = page j).
  { intros j Hj. unfold Imposition.inputPages, page. zcases. }
  unfold Finishing.frontPage, Finishing.backPage, Imposition.drawnFront,
    Imposition.drawnBack. cbn [isBooklet].
  rewrite !pageAtSlot_drawSlots.
  unfold Imposition.pagesForFront, Imposition.pagesForBack,
    Imposition.pageIndexFL, Imposition.pageIndexFR, Imposition.pageIndexBL,
    Imposition.pageIndexBR.
  rewrite Hpad. change (Z.of_nat (List.length ?l)) with 2.
  change ((0 <=? 1) && (1 <? 2)) with true.
  change ((0 <=? 0) && (0 <? 2)) with true.
  cbv beta iota. unfold at_.
  change (1 <? 0) with false. change (0 <? 0) with false.
  change (Z.to_nat 1) with 1%nat. change (Z.to_nat 0) with 0%nat.
  cbn [nth]. rewrite !Hin by lia.
  repeat split; f_equal; lia.
Qed.

Lemma booklet_reading isDuplex :
  flat_map CollateCut.dropBlank
    (Finishing.bookletReading booklet columns rows isDuplex P)
  = seqZ P.
Proof.
  destruct (booklet_sheets isDuplex) as (HN & Hpad & Hcap).
  pose proof (booklet_pages isDuplex) as Hpages.
  unfold Finishing.bookletReading, Finishing.sheets.
  set (N := Imposition.totalPhysicalSheets booklet columns rows isDuplex P) in *.
  cbv zeta in Hpages.
  assert (Hin : flat_map (fun k => [Finishing.frontPage booklet columns rows isDuplex P k 1;
                                    Finishing.backPage booklet columns rows isDuplex P k 0])
                  (seqZ N)
                = map page (seqZ (2 * N))).
  { rewrite <- (flat_map_pairs page) by lia. apply flat_map_ext_in.
    intros k Hk. apply in_seqZ in Hk.
    destruct (Hpages k Hk) as (-> & -> & _). reflexivity. }
  assert (Hout : flat_map (fun k => [Finishing.backPage booklet columns rows isDuplex P k 1;
                                     Finishing.frontPage booklet columns rows isDuplex P k 0])
                   (rev (seqZ N))
                 = map (fun x => page (2 * N + x)) (seqZ (2 * N))).
  { rewrite rev_seqZ, flat_map_map_in by lia.
    rewrite <- (flat_map_pairs (fun x => page (2 * N + x))) by lia.
    apply flat_map_ext_in.
    intros j Hj. apply in_seqZ in Hj.
    destruct (Hpages (N - 1 - j) ltac:(lia)) as (_ & _ & -> & ->).
    replace (N - 1 - (N - 1 - j)) with j by lia.
    now replace (2 * N + 2 * j + 1) with (2 * N + (2 * j + 1)) by lia. }
  rewrite Hin, Hout.
  rewrite <- (map_map (fun x => 2 * N + x) page), <- map_app.
  rewrite <- seqZ_add by lia.
  apply dropBlank_pages. lia.
Qed.

Lemma booklet_reading_raw isDuplex :
  Finishing.bookletReading booklet columns rows isDuplex P
  = map Some (seqZ P)
    ++ repeat None (Z.to_nat (Imposition.paddedPageCount booklet P - P)).
Proof.
  destruct (booklet_sheets isDuplex) as (HN & Hpad & Hcap).
  pose proof (booklet_pages isDuplex) as Hpages.
  unfold Finishing.bookletReading, Finishing.sheets.
  set (N := Imposition.totalPhysicalSheets booklet columns rows isDuplex P) in *.
  cbv zeta in Hpages.
  assert (Hin : flat_map (fun k => [Finishing.frontPage booklet columns rows isDuplex P k 1;
                                    Finishing.backPage booklet columns rows isDuplex P k 0])
                  (seqZ N)
                = map page (seqZ (2 * N))).
  { rewrite <- (flat_map_pairs page) by lia. apply flat_map_ext_in.
    intros k Hk. apply in_seqZ in Hk.
    destruct (Hpages k Hk) as (-> & -> & _). reflexivity. }
  assert (Hout : flat_map (fun k => [Finishing.backPage booklet columns rows isDuplex P k 1;
                                     Finishing.frontPage booklet columns rows isDuplex P k 0])
                   (rev (seqZ N))
                 = map (fun x => page (2 * N + x)) (seqZ (2 * N))).
  { rewrite rev_seqZ, flat_map_map_in by lia.
    rewrite <- (flat_map_pairs (fun x => page (2 * N + x))) by lia.
    apply flat_map_ext_in.
    intros j Hj. apply in_seqZ in Hj.
    destruct (Hpages (N - 1 - j) ltac:(lia)) as (_ & _ & -> & ->).
    replace (N - 1 - (N - 1 - j)) with j by lia.
    now replace (2 * N + 2 * j + 1) with (2 * N + (2 * j + 1)) by lia. }
  rewrite Hin, Hout.
  rewrite <- (map_map (fun x => 2 * N + x) page), <- map_app.
  rewrite <- seqZ_add by lia.
  replace (2 * N + 2 * N) with (4 * N) by lia.
  rewrite Hpad. apply pages_then_blanks. lia.
Qed.

(** Every sheet of the job carries a page on its front. *)
Lemma sheet_has_front_page (t : ImpositionType) isDuplex k :
  0 <= k < Imposition.totalPhysicalSheets t columns rows isDuplex P ->
  exists s p, Finishing.frontPage t columns rows isDuplex P k s = Some p.
Proof.
  intros Hk. pose proof reading_S_pos as HS.
  destruct t.
  - (* stack *)
    destruct (stack_sheets isDuplex) as (HN & _).
    pose proof (ceil_div_spec P (S * (if isDuplex then 2 else 1))
                  ltac:(destruct isDuplex; lia)) as H1.
    assert (HNe : Imposition.totalPhysicalSheets stack columns rows isDuplex P
                  = ceil_div P (S * (if isDuplex then 2 else 1))).
    { unfold Imposition.totalPhysicalSheets, Imposition.slotsPerSheet.
      cbn [isBooklet]. fold S.
      pose proof (ceil_div_pos P (S * (if isDuplex then 2 else 1)) HP
                    ltac:(destruct isDuplex; lia)). zcases. }
    rewrite HNe in Hk.
    exists 0. pose proof (stack_leaf isDuplex k 0 ltac:(lia) ltac:(lia)) as Hl.
    unfold Finishing.leaf in Hl.
    assert (Hf : Finishing.frontPage stack columns rows isDuplex P k 0
                 = page (if isDuplex then 2 * (k * S + 0) else k * S + 0)).
    { destruct isDuplex; now injection Hl. }
    rewrite Hf. unfold page.
    match goal with |- exists p, (if ?j <? P then _ else _) = _ =>
      assert (Hj : j < P) by (destruct isDuplex; nia);
      exists j; apply Z.ltb_lt in Hj; now rewrite Hj end.
  - (* repeat *)
    destruct (repeat_sheets isDuplex) as (HN & _).
    pose proof (ceil_div_spec P 2 ltac:(lia)) as H1.
    pose proof (ceil_div_pos P 2 HP ltac:(lia)) as H2.
    assert (HNe : Imposition.totalPhysicalSheets repeat_ columns rows isDuplex P
                  = if isDuplex then ceil_div P 2 else P).
    { unfold Imposition.totalPhysicalSheets. destruct isDuplex; zcases. }
    rewrite HNe in Hk.
    exists 0. pose proof (repeat_leaf isDuplex k 0 ltac:(lia) ltac:(lia)) as Hl.
    unfold Finishing.leaf in Hl.
    assert (Hf : Finishing.frontPage repeat_ columns rows isDuplex P k 0
                 = page (if isDuplex then 2 * k else k)).
    { destruct isDuplex; now injection Hl. }
    rewrite Hf. unfold page.
    match goal with |- exists p, (if ?j <? P then _ else _) = _ =>
      assert (Hj : j < P) by (destruct isDuplex; nia);
      exists j; apply Z.ltb_lt in Hj; now rewrite Hj end.
  - (* collate and cut *)
    pose proof (collate_T_sheets columns rows P isDuplex Hc Hr HP) as HT.
    pose proof (collate_front columns rows P isDuplex Hc Hr HP k 0
                  ltac:(lia) ltac:(lia)) as Hf.
    exists 0. unfold Finishing.frontPage. rewrite Hf. unfold page.
    pose proof (ceil_div_spec P S HS) as H1.
    pose proof (ceil_div_pos P S HP HS) as H2.
    pose proof (ceil_div_spec (ceil_div P S) 2 ltac:(lia)) as H3.
    assert (HNe : Imposition.totalPhysicalSheets collateCut columns rows isDuplex P
                  = if isDuplex then ceil_div (ceil_div P S) 2 else ceil_div P S).
    { unfold Imposition.totalPhysicalSheets, Imposition.slotsPerSheet.
      cbn [isBooklet]. fold S.
      pose proof (ceil_div_pos _ 2 H2 ltac:(lia)). destruct isDuplex; zcases. }
    rewrite HNe in Hk. rewrite HT.
    match goal with |- exists p, (if ?j <? P then _ else _) = _ =>
      assert (Hj : j < P) by (destruct isDuplex; nia);
      exists j; apply Z.ltb_lt in Hj; now rewrite Hj end.
  - (* booklet *)
    destruct (booklet_sheets isDuplex) as (HN & Hpad & Hcap).
    destruct (booklet_pages isDuplex k Hk) as (Hf & _).
    exists 1. rewrite Hf. unfold page.
    pose proof (ceil_div_spec P 4 ltac:(lia)) as H1.
    assert (HNe : Imposition.totalPhysicalSheets booklet columns rows isDuplex P
                  = ceil_div P 4).
    { unfold Imposition.totalPhysicalSheets, Imposition.paddedPageCount.
      cbn [isBooklet]. rewrite Z.div_mul by lia.
      pose proof (ceil_div_pos P 4 HP ltac:(lia)). zcases. }
    rewrite HNe in Hk.
    match goal with |- exists p, (if ?j <? P then _ else _) = _ =>
      assert (Hj : j < P) by nia;
      exists j; apply Z.ltb_lt in Hj; now rewrite Hj end.
Qed.
End ReadingOrder.

(** ** The sheet count as a number *)

Local Open Scope Z_scope.

Lemma Qceiling_ratio (a b : Z) :
  0 < b -> Qceiling (inject_Z a / inject_Z b) = ceil_div a b.
Proof.
  intros Hb. destruct b as [|p|p]; try lia.
  unfold Qceiling, ceil_div. f_equal.
  unfold Qdiv, Qinv, Qmult, Qopp, Qfloor, inject_Z. cbn [Qnum Qden].
  rewrite Z.mul_1_r, Pos.mul_1_l. reflexivity.
Qed.

Lemma ceil_of_ratio (a b : Z) :
  0 < b ->
  Num.ceil (Num.div (SheetCount.ofZ a) (SheetCount.ofZ b))
  = SheetCount.ofZ (ceil_div a b).
Proof.
  intros Hb. unfold SheetCount.ofZ, Num.div.
  assert (E : Num.Qeqb (inject_Z b) 0 = false).
  { apply Qeqb_false. intros H. apply (inject_Z_injective b 0) in H. lia. }
  rewrite E. cbn [Num.ceil]. unfold Num.ceilQ. now rewrite Qceiling_ratio.
Qed.

Lemma ratio_by_zero (a : Z) :
  0 < a -> Num.div (SheetCount.ofZ a) (SheetCount.ofZ 0) = Num.PInf.
Proof.
  intros Ha. unfold SheetCount.ofZ, Num.div.
  change (Num.Qeqb (inject_Z 0) 0) with true. cbv iota.
  unfold Num.sign. destruct (Qcompare_spec 0 (inject_Z a)) as [H|H|H].
  - apply (inject_Z_injective 0 a) in H. lia.
  - reflexivity.
  - exfalso. apply Qlt_not_le in H. apply H.
    change 0%Q with (inject_Z 0). rewrite <- Zle_Qle. lia.
Qed.

Lemma sheet_count_finite
  (t : ImpositionType) (columns rows : Z) (isDuplex : bool) (P : Z) :
  0 < columns -> 0 < rows ->
  exists q,
    SheetCount.totalPhysicalSheets t columns rows isDuplex P = Num.Fin q
    /\ (q == inject_Z (Imposition.totalPhysicalSheets t columns rows isDuplex P))%Q.
Proof.
  intros Hc Hr.
  assert (HS : 0 < columns * rows) by nia.
  assert (Hfinish : forall z,
            exists q,
              (if Num.eqb (SheetCount.ofZ z) (SheetCount.ofZ 0) && (0 <? P)
               then SheetCount.ofZ 1 else SheetCount.ofZ z) = Num.Fin q
              /\ (q == inject_Z (if (z =? 0) && (0 <? P) then 1 else z))%Q).
  { intros z. unfold SheetCount.ofZ. cbn [Num.eqb].
    assert (E : Num.Qeqb (inject_Z z) (inject_Z 0) = (z =? 0)).
    { destruct (Z.eqb_spec z 0) as [->|Hz]; [reflexivity|].
      apply Qeqb_false. intros H. apply (inject_Z_injective z 0) in H. lia. }
    rewrite E. destruct ((z =? 0) && (0 <? P)); eexists; split; reflexivity. }
  unfold SheetCount.totalPhysicalSheets, Imposition.totalPhysicalSheets,
    Imposition.paddedPageCount, Imposition.slotsPerSheet.
  destruct t; cbn [isBooklet].
  - rewrite ceil_of_ratio by (destruct isDuplex; lia). apply Hfinish.
  - destruct isDuplex; [rewrite ceil_of_ratio by lia|]; apply Hfinish.
  - rewrite ceil_of_ratio by lia.
    destruct isDuplex; [rewrite ceil_of_ratio by lia|]; apply Hfinish.
  - rewrite ceil_of_ratio by lia. rewrite Z.div_mul by lia.
    set (c := ceil_div P 4).
    unfold SheetCount.ofZ. cbn [Num.mul Num.div].
    change (Num.Qeqb (inject_Z 4) 0) with false. cbv iota.
    assert (Eq : (inject_Z c * inject_Z 4 / inject_Z 4 == inject_Z c)%Q)
      by (field; discriminate).
    cbn [Num.eqb].
    assert (E : Num.Qeqb (inject_Z c * inject_Z 4 / inject_Z 4) (inject_Z 0)
                = (c =? 0)).
    { destruct (Z.eqb_spec c 0) as [Hz|Hz].
      - apply Qeqb_true. rewrite Eq, Hz. reflexivity.
      - apply Qeqb_false. rewrite Eq. intros H.
        apply (inject_Z_injective c 0) in H. lia. }
    rewrite E. destruct ((c =? 0) && (0 <? P)); eexists; split;
      try reflexivity. exact Eq.
Qed.

Lemma sheet_count_not_finite
  (t : ImpositionType) (columns rows : Z) (isDuplex : bool) (P : Z) :
  0 < P -> columns * rows = 0 -> isStackOrCollate t = true ->
  SheetCount.totalPhysicalSheets t columns rows isDuplex P = Num.PInf.
Proof.
  intros HP HS Ht.
  unfold SheetCount.totalPhysicalSheets, Imposition.slotsPerSheet.
  destruct t; try discriminate; cbn [isBooklet]; rewrite HS.
  - replace (0 * (if isDuplex then 2 else 1)) with 0 by (destruct isDuplex; lia).
    rewrite ratio_by_zero by exact HP. reflexivity.
  - rewrite ratio_by_zero by exact HP. destruct isDuplex; reflexivity.
Qed.

Lemma repeat_draws_nothing (columns rows : Z) (isDuplex : bool) (P k : Z) :
  columns * rows = 0 ->
  Imposition.drawnFront repeat_ columns rows isDuplex P k = [].
Proof.
  intros HS. unfold Imposition.drawnFront, Imposition.drawSlots,
    Imposition.slotsPerSheet. cbn [isBooklet]. rewrite HS. reflexivity.
Qed.

(** X1. For every imposition type and duplex flag, on a grid of at least
    one column and one row, a non-empty document gives a finite sheet count
    of at least one sheet, and the engine draws at least one page on the
    front of every sheet it produces: no sheet of the output is blank.
    (Booklet sheets carry page [2k] on the right; the other modes fill slot
    0.)  The grid must have slots: with [columns * rows = 0] the sheet count
    of stack and collate-cut mode is Infinity, and repeat mode draws nothing
    on any of its sheets. *)
Theorem no_blank_sheet
  (t : ImpositionType) (columns rows : Z) (isDuplex : bool) (P k : Z) :
  0 < P ->
  (0 < columns -> 0 < rows ->
   let N := Imposition.totalPhysicalSheets t columns rows isDuplex P in
   (exists q,
      SheetCount.totalPhysicalSheets t columns rows isDuplex P = Num.Fin q
      /\ (q == inject_Z N)%Q)
   /\ 0 < N
   /\ (0 <= k < N ->
       exists s p, In (s, p) (Imposition.drawnFront t columns rows isDuplex P k)
                   /\ 0 <= p < P))
  /\ (columns * rows = 0 -> isStackOrCollate t = true ->
      SheetCount.totalPhysicalSheets t columns rows isDuplex P = Num.PInf)
  /\ (columns * rows = 0 ->
      Imposition.drawnFront repeat_ columns rows isDuplex P k = []).
Proof.
  intros HP. split; [|split].
  2: { intros HS Ht. now apply sheet_count_not_finite. }
  2: { intros HS. now apply repeat_draws_nothing. }
  intros Hc Hr N. split; [now apply sheet_count_finite|]. unfold N. split.
  - destruct t.
    + apply (stack_sheets columns rows P Hc Hr HP isDuplex).
    + apply (repeat_sheets columns rows P HP isDuplex).
    + apply (collate_sheets_pos columns rows P isDuplex Hc Hr HP).
    + apply (booklet_sheets columns rows P HP isDuplex).
  - intros Hk.
    destruct (sheet_has_front_page columns rows P Hc Hr HP t isDuplex k Hk)
      as (s & p & Hp).
    unfold Finishing.frontPage, Imposition.pageAtSlot in Hp.
    destruct (find (fun d => fst d =? s)
                (Imposition.drawnFront t columns rows isDuplex P k))
      as [[s' p']|] eqn:Hfind; [|discriminate].
    simpl in Hp. injection Hp as ->. apply find_some in Hfind. destruct Hfind as (Hin & Hs).
    exists s', p. split; [exact Hin|].
    clear Hs. unfold Imposition.drawnFront in Hin.
    assert (Hdraw : forall pages n, In (s', p) (Imposition.drawSlots pages n) ->
                      In (Some p) pages).
    { intros pages n H. unfold Imposition.drawSlots in H.
      apply in_flat_map in H. destruct H as (i & _ & Hi).
      destruct (at_ pages i) as [q|] eqn:Hat; [|contradiction].
      destruct Hi as [Hi|[]]. injection Hi as _ ->.
      destruct (at_in_or_none pages i) as [H|H]; congruence. }
    assert (Hpage : forall j, Imposition.pageOrNull P j = Some p -> 0 <= p < P).
    { intros j. unfold Imposition.pageOrNull, Imposition.inputPages.
      destruct (j <? P) eqn:E1; [|discriminate].
      destruct (0 <=? j) eqn:E2; [|discriminate].
      intros [= <-]. zcases. }
    assert (Hinput : forall j, Imposition.inputPages P j = Some p -> 0 <= p < P).
    { intros j. unfold Imposition.inputPages.
      destruct ((0 <=? j) && (j <? P)) eqn:E; [|discriminate].
      intros [= <-]. zcases. }
    assert (Hsome : In (Some p) (Imposition.pagesForFront t columns rows isDuplex P k))
      by (destruct (isBooklet t); eapply Hdraw; exact Hin).
    unfold Imposition.pagesForFront in Hsome.
    destruct t; cbn [isBooklet] in Hsome.
    + apply in_map_iff in Hsome. destruct Hsome as (i & Hi & _). eauto.
    + apply in_map_iff in Hsome. destruct Hsome as (i & Hi & _). eauto.
    + apply in_map_iff in Hsome. destruct Hsome as (i & Hi & _). eauto.
    + destruct Hsome as [H|[H|[]]]; eauto.
Qed.

Lemma no_blank_sheet_witness :
  0 < Imposition.totalPhysicalSheets collateCut 3 2 true 17
  /\ exists s p, In (s, p) (Imposition.drawnFront collateCut 3 2 true 17 1)
                 /\ 0 <= p < 17.
Proof.
  destruct (proj1 (no_blank_sheet collateCut 3 2 true 17 1 ltac:(lia))
              ltac:(lia) ltac:(lia)) as (_ & H1 & H2).
  split; [exact H1|]. apply H2. vm_compute. split; [discriminate|reflexivity].
Defined.

(** X2. Stack mode, any non-empty document, grid and duplex flag: reading
    the printed sheets one after the other, on each sheet slot after slot,
    the front of a slot before the back-side slot that lies behind it, gives
    the pages [0, 1, ..., P - 1]: every input page is printed exactly once
    and the stack needs no re-sorting after the cut. *)
Theorem stack_reading_order (columns rows P : Z) (isDuplex : bool) :
  0 < columns -> 0 < rows -> 0 < P ->
  flat_map CollateCut.dropBlank
    (Finishing.sheetBySheet stack columns rows isDuplex P)
  = seqZ P.
Proof. intros Hc Hr HP. now apply stack_sheetBySheet. Qed.

Lemma stack_reading_order_witness :
  flat_map CollateCut.dropBlank (Finishing.sheetBySheet stack 3 2 true 17)
  = seqZ 17.
Proof.
  exact (stack_reading_order 3 2 17 true ltac:(lia) ltac:(lia) ltac:(lia)).
Defined.

(** X3. Repeat mode: the pile cut out at any slot of the grid is a complete
    copy of the document, pages [0 .. P - 1] in order (front of each sheet,
    then the back behind it when duplex). *)
Theorem repeat_pile_is_document (columns rows P i : Z) (isDuplex : bool) :
  0 < columns -> 0 < rows -> 0 < P -> 0 <= i < columns * rows ->
  flat_map CollateCut.dropBlank
    (Finishing.pile repeat_ columns rows isDuplex P i)
  = seqZ P.
Proof. intros Hc Hr HP Hi. now apply repeat_pile. Qed.

Lemma repeat_pile_is_document_witness :
  flat_map CollateCut.dropBlank (Finishing.pile repeat_ 3 2 true 5 4) = seqZ 5.
Proof.
  exact (repeat_pile_is_document 3 2 5 4 true
           ltac:(lia) ltac:(lia) ltac:(lia) ltac:(lia)).
Defined.

(** X4. Booklet mode: with the sheets folded and nested, sheet 0 outermost,
    the leaves read from the first to the last (right front and left back
    of every sheet going inwards, right back and left front coming back
    out) carry the pages [0, 1, ..., P - 1] in this order, followed by the
    blanks that pad the page count to a multiple of four: fewer than four,
    and all of them after the last page. *)
Theorem booklet_reading_order (columns rows P : Z) (isDuplex : bool) :
  0 < P ->
  Finishing.bookletReading booklet columns rows isDuplex P
  = map Some (seqZ P)
    ++ repeat None (Z.to_nat (Imposition.paddedPageCount booklet P - P))
  /\ 0 <= Imposition.paddedPageCount booklet P - P < 4
  /\ flat_map CollateCut.dropBlank
       (Finishing.bookletReading booklet columns rows isDuplex P)
     = seqZ P.
Proof.
  intros HP. split; [now apply booklet_reading_raw|]. split.
  - unfold Imposition.paddedPageCount. cbn [isBooklet].
    pose proof (ceil_div_spec P 4 ltac:(lia)). lia.
  - now apply booklet_reading.
Qed.

Lemma booklet_reading_order_witness :
  Finishing.bookletReading booklet 2 1 true 14
  = map Some (seqZ 14) ++ [None; None]
  /\ flat_map CollateCut.dropBlank (Finishing.bookletReading booklet 2 1 true 14)
     = seqZ 14.
Proof.
  destruct (booklet_reading_order 2 1 14 true ltac:(lia)) as (H1 & _ & H3).
  split; [exact H1|exact H3].
Defined.

(** ** The sheet count of the preview, and the parts of a large job *)

(** X5. For a non-empty document and a non-empty grid the sheet count the
    preview navigates over is the number of sheets the engine produces, for
    every imposition type and duplex flag; for an empty document the preview
    shows no sheet. *)
Theorem preview_sheet_count_matches_engine
  (t : ImpositionType) (columns rows : Z) (isDuplex : bool) (P : Z) :
  (0 < P -> 0 < columns -> 0 < rows ->
   PreviewPanel.totalPhysicalSheetsPreview P t columns rows isDuplex
   = Imposition.totalPhysicalSheets t columns rows isDuplex P)
  /\ (P <= 0 ->
      PreviewPanel.totalPhysicalSheetsPreview P t columns rows isDuplex = 0).
Proof.
  split.
  - intros HP Hc Hr.
    assert (HS : 0 < columns * rows) by nia.
    unfold PreviewPanel.totalPhysicalSheetsPreview, Imposition.totalPhysicalSheets,
      Imposition.paddedPageCount, Imposition.slotsPerSheet.
    replace (P <=? 0) with false by (symmetry; apply Z.leb_gt; lia).
    replace (0 <? P) with true by (symmetry; apply Z.ltb_lt; lia).
    replace (columns * rows =? 0) with false by (symmetry; apply Z.eqb_neq; lia).
    pose proof (ceil_div_pos P 4 HP ltac:(lia)) as H4.
    pose proof (ceil_div_pos P 2 HP ltac:(lia)) as H2.
    pose proof (ceil_div_pos P (columns * rows) HP HS) as H1.
    pose proof (ceil_div_pos P (columns * rows * 2) HP ltac:(lia)) as H12.
    pose proof (ceil_div_pos P (columns * rows * 1) HP ltac:(lia)) as H11.
    pose proof (ceil_div_pos _ 2 H1 ltac:(lia)) as H3.
    destruct t; cbn [isBooklet]; rewrite ?Z.div_mul by lia;
      destruct isDuplex; rewrite ?andb_true_r;
      match goal with
      | |- Z.max ?a 1 = (if ?a =? 0 then 1 else ?a) =>
          replace (a =? 0) with false by (symmetry; apply Z.eqb_neq; lia); lia
      end.
  - intros HP. unfold PreviewPanel.totalPhysicalSheetsPreview.
    now replace (P <=? 0) with true by (symmetry; apply Z.leb_le; lia).
Qed.

Lemma preview_sheet_count_matches_engine_witness :
  PreviewPanel.totalPhysicalSheetsPreview 17 collateCut 3 2 true
  = Imposition.totalPhysicalSheets collateCut 3 2 true 17.
Proof.
  exact (proj1 (preview_sheet_count_matches_engine collateCut 3 2 true 17)
           ltac:(lia) ltac:(lia) ltac:(lia)).
Defined.

Lemma concat_ranges (s total n : Z) :
  0 < s -> 0 <= total -> 0 <= n ->
  List.concat (map (fun i => map (fun j => i * s + j)
                            (seqZ (Z.min (i * s + s) total - i * s)))
              (seqZ n))
  = seqZ (Z.min (n * s) total).
Proof.
  intros Hs Ht Hn. pattern n. apply natlike_ind; [| |exact Hn].
  - simpl. rewrite Z.min_l by lia. reflexivity.
  - intros x Hx IH. unfold Z.succ.
    rewrite seqZ_succ, map_app, concat_app, IH by lia. simpl.
    rewrite app_nil_r.
    destruct (Z.le_gt_cases total (x * s)) as [Hle|Hgt].
    + rewrite (seqZ_nonpos (Z.min (x * s + s) total - x * s)) by lia.
      simpl. rewrite app_nil_r. f_equal. lia.
    + replace (Z.min (x * s) total) with (x * s) by lia.
      rewrite <- seqZ_add by lia. f_equal. lia.
Qed.

Lemma sheetsPerChunk_cases (t : ImpositionType) (isDuplex : bool) :
  0 < Chunking.sheetsPerChunk t isDuplex
  /\ Chunking.sheetsPerChunk t isDuplex * (if isDuplex then 2 else 1)
     = Chunking.pageLimit t.
Proof. destruct t, isDuplex; vm_compute; split; reflexivity. Qed.

(** X6. Splitting a large job into parts loses and repeats nothing: the
    sheets of the parts, in order, are exactly the sheets [0 .. total - 1] of
    the job, whether the job is split or not.  When it is split, no part is
    empty, no part holds more than [sheetsPerChunk] sheets, and (a booklet
    being printed duplex, as the controls force) no part exceeds the page
    limit of 50 output pages in repeat mode and 100 otherwise. *)
Theorem chunks_partition_the_job
  (t : ImpositionType) (isDuplex isLargeFile : bool) (total : Z) :
  0 < total ->
  List.concat (Chunking.chunks t isDuplex isLargeFile total) = seqZ total
  /\ (isLargeFile = true ->
      forall part, In part (Chunking.chunks t isDuplex isLargeFile total) ->
        (0 < List.length part)%nat
        /\ Z.of_nat (List.length part) <= Chunking.sheetsPerChunk t isDuplex
        /\ ((isBooklet t = true -> isDuplex = true) ->
            Z.of_nat (List.length part) * Chunking.pdfPagesPerSheet t isDuplex
            <= Chunking.pageLimit t)).
Proof.
  intros Htotal.
  destruct (sheetsPerChunk_cases t isDuplex) as (Hs & Hlim).
  set (s := Chunking.sheetsPerChunk t isDuplex) in *.
  pose proof (ceil_div_spec total s Hs) as Hcd.
  pose proof (ceil_div_pos total s Htotal Hs) as Hcp.
  split.
  - unfold Chunking.chunks, Chunking.totalChunks, Chunking.needsChunking.
    destruct isLargeFile.
    + fold s.
      rewrite (map_ext _ (fun i => map (fun j => i * s + j)
                            (seqZ (Z.min (i * s + s) total - i * s)))) by reflexivity.
      rewrite concat_ranges by lia. f_equal. lia.
    + change (seqZ 1) with [0]. simpl.
      unfold Chunking.chunkSheets, Chunking.chunkEndSheet, Chunking.chunkStartSheet,
        Chunking.needsChunking.
      rewrite app_nil_r, Z.mul_0_l, Z.sub_0_r.
      rewrite (map_ext _ (fun j => j)) by (intros; lia). apply map_id.
  - intros -> part Hin.
    unfold Chunking.chunks, Chunking.totalChunks, Chunking.needsChunking in Hin.
    apply in_map_iff in Hin. destruct Hin as (i & <- & Hi).
    apply in_seqZ in Hi. fold s in Hi.
    unfold Chunking.chunkSheets, Chunking.chunkEndSheet, Chunking.chunkStartSheet,
      Chunking.needsChunking.
    fold s. rewrite length_map, seqZ_length.
    assert (Hlen : 0 < Z.min (i * s + s) total - i * s <= s) by nia.
    rewrite Z2Nat.id by lia.
    split; [lia|]. split; [lia|]. intros Hbook.
    unfold Chunking.pdfPagesPerSheet.
    destruct (isBooklet t) eqn:Hb.
    + rewrite (Hbook eq_refl) in *. cbn [orb]. nia.
    + cbn [orb]. destruct isDuplex; nia.
Qed.

Lemma chunks_partition_the_job_witness :
  List.concat (Chunking.chunks stack true true 120) = seqZ 120.
Proof.
  exact (proj1 (chunks_partition_the_job stack true true 120 ltac:(lia))).
Defined.

(** ** Sheet size and slot positions *)

Local Open Scope Q_scope.

Lemma half_step (a : Q) : a / 2 == a * (1 # 2).
Proof. reflexivity. Qed.




Section SlotPositions.
Variables (pw ph : Q) (columns rows : Z) (hG vG : Q)
          (off : Layout.RowOffsetType) (t : ImpositionType) (W H : Q).
Hypotheses (Hpw : 0 <= pw) (Hph : 0 <= ph) (HhG : 0 <= hG) (HvG : 0 <= vG).

Let C := Layout.currentColumnsForLayout columns t.












End SlotPositions.

(** A negative gutter is not refused: two letter-size halves 20 in closer
    than touching are laid out without an error on a 12 x 18 in sheet, and
    the second slot starts left of the sheet. *)
Example negative_gutter_leaves_sheet :
  Layout.slotPositions 396 612 2 1 (-1440) 0 Layout.none stack 864 1296
  = Layout.Done [ {| Layout.x := 1512 # 2; Layout.y := 684 # 2 |};
                  {| Layout.x := -576 # 2; Layout.y := 684 # 2 |} ].
Proof. reflexivity. Qed.





(** ** The preview's layout against the engine's *)

Lemma start_negative_iff (w total : Q) :
  Num.Qltb ((w - total) / 2) 0 = Num.Qltb w total.
Proof.
  destruct (Num.Qltb w total) eqn:E; qbool.
  - apply Qltb_true. rewrite half_step. lra.
  - apply Qltb_false. rewrite half_step. lra.
Qed.

Lemma calculateSlotPositions_engine
  (pw ph : Q) (columns rows : Z) (hG vG : Q) (off : Layout.RowOffsetType)
  (t : ImpositionType) (W H : Q) :
  PreviewPanel.calculateSlotPositions
    (Layout.currentColumnsForLayout columns t) (Layout.currentRowsForLayout rows t)
    pw ph hG vG W H off
  = match Layout.slotPositions pw ph columns rows hG vG off t W H with
    | Layout.Done ps =>
        {| PreviewPanel.positions := ps; PreviewPanel.error := None |}
    | Layout.Thrown message =>
        {| PreviewPanel.positions := []; PreviewPanel.error := Some message |}
    end.
Proof.
  unfold PreviewPanel.calculateSlotPositions, Layout.slotPositions.
  cbv zeta.
  change (Num.Qltb
            ((W - (if Layout.isHalf off && (1 <? Layout.currentRowsForLayout rows t)%Z
                   then pw * inject_Z (Layout.currentColumnsForLayout columns t)
                        + inject_Z (Z.max 0 (Layout.currentColumnsForLayout columns t - 1)) * hG
                        + (pw + hG) / 2
                   else pw * inject_Z (Layout.currentColumnsForLayout columns t)
                        + inject_Z (Z.max 0 (Layout.currentColumnsForLayout columns t - 1)) * hG))
             / 2) 0)
    with (Num.Qltb (Layout.startXBlock pw columns rows hG off t W) 0).
  change (Num.Qltb
            ((H - (ph * inject_Z (Layout.currentRowsForLayout rows t)
                   + inject_Z (Z.max 0 (Layout.currentRowsForLayout rows t - 1)) * vG)) / 2) 0)
    with (Num.Qltb (Layout.startYBlock ph rows vG t H) 0).
  destruct (Num.Qltb (Layout.startXBlock pw columns rows hG off t W) 0) eqn:EX;
    [reflexivity|].
  destruct (Num.Qltb (Layout.startYBlock ph rows vG t H) 0) eqn:EY;
    [reflexivity|].
  unfold Layout.startXBlock, Layout.startYBlock in EX, EY.
  rewrite start_negative_iff in EX, EY.
  unfold Layout.blockWidth in EX. unfold Layout.blockHeight in EY. cbv zeta in EX.
  rewrite EX, EY. reflexivity.
Qed.

Lemma sheetSize_engine
  (sheet : Layout.SheetConfig) (o : Layout.SheetOrientation)
  (pw ph : Q) (columns rows : Z) (hG vG : Q) (off : Layout.RowOffsetType) :
  PreviewPanel.sheetSize sheet o columns rows pw ph hG vG off
  = match Layout.actualSheet sheet o pw ph columns rows hG vG off with
    | Layout.Done size => Some size
    | Layout.Thrown _ => None
    end.
Proof.
  unfold PreviewPanel.sheetSize, Layout.actualSheet. destruct o; try reflexivity.
  cbv zeta.
  change (Layout.blockWidth pw hG off columns rows)
    with (if Layout.isHalf off && (1 <? rows)%Z
          then pw * inject_Z columns + inject_Z (Z.max 0 (columns - 1)) * hG + (pw + hG) / 2
          else pw * inject_Z columns + inject_Z (Z.max 0 (columns - 1)) * hG).
  change (Layout.blockHeight ph vG rows)
    with (ph * inject_Z rows + inject_Z (Z.max 0 (rows - 1)) * vG).
  unfold Layout.paperLongSidePoints, Layout.paperShortSidePoints.
  repeat match goal with
         | |- context [if ?b then _ else _] =>
             lazymatch b with
             | Layout.isHalf _ && _ => fail
             | _ => destruct b eqn:?
             end
         end; reflexivity.
Qed.

Lemma actualSheet_thrown
  (sheet : Layout.SheetConfig) (o : Layout.SheetOrientation)
  (pw ph : Q) (columns rows : Z) (hG vG : Q) (off : Layout.RowOffsetType) message :
  Layout.actualSheet sheet o pw ph columns rows hG vG off = Layout.Thrown message ->
  message = Layout.autoOrientationError.
Proof.
  unfold Layout.actualSheet. destruct o; try discriminate. cbv zeta.
  repeat match goal with
         | |- context [if ?b then _ else _] =>
             lazymatch b with
             | Layout.isHalf _ && _ => fail
             | _ => destruct b
             end
         end; try discriminate.
  now intros [= <-].
Qed.

Lemma slotPositions_thrown
  (pw ph : Q) (columns rows : Z) (hG vG : Q) (off : Layout.RowOffsetType)
  (t : ImpositionType) (W H : Q) message :
  Layout.slotPositions pw ph columns rows hG vG off t W H = Layout.Thrown message ->
  message = Layout.tooLargeError (Layout.currentColumnsForLayout columns t)
                                 (Layout.currentRowsForLayout rows t).
Proof.
  unfold Layout.slotPositions.
  destruct (Num.Qltb _ 0 || Num.Qltb _ 0); [|discriminate].
  now intros [= <-].
Qed.

(** What the main preview shows against what the engine does, for a grid
    that a booklet leaves at two columns and one row. *)
Lemma layout_engine
  (sheet : Layout.SheetConfig) (o : Layout.SheetOrientation)
  (pw ph bleed : Q) (columns rows : Z) (hG vG : Q) (off : Layout.RowOffsetType)
  (t : ImpositionType) :
  (isBooklet t = true -> columns = 2%Z /\ rows = 1%Z) ->
  match PreviewPanel.layout sheet o t columns rows pw ph bleed hG vG off with
  | PreviewPanel.Drawn result =>
      2 * bleed <= pw /\ 2 * bleed <= ph
      /\ Layout.sizedPlan sheet o pw ph columns rows hG vG off t = Layout.Done result
  | PreviewPanel.Refused PreviewPanel.InvalidInputDims =>
      Layout.sizedPlan sheet o pw ph columns rows hG vG off t
      = Layout.Thrown Layout.invalidDimensionsError
  | PreviewPanel.Refused PreviewPanel.BleedTooLarge =>
      0 < pw /\ 0 < ph /\ (pw < 2 * bleed \/ ph < 2 * bleed)
  | PreviewPanel.Refused PreviewPanel.ContentTooLargeAuto =>
      Layout.sizedPlan sheet o pw ph columns rows hG vG off t
      = Layout.Thrown Layout.autoOrientationError
  | PreviewPanel.Refused PreviewPanel.LayoutTooLarge =>
      Layout.sizedPlan sheet o pw ph columns rows hG vG off t
      = Layout.Thrown (Layout.tooLargeError (Layout.currentColumnsForLayout columns t)
                                            (Layout.currentRowsForLayout rows t))
  end.
Proof.
  intros Hbook.
  assert (HC : (if isBooklet t then 2%Z else columns) = columns)
    by (destruct (isBooklet t); [now destruct (Hbook eq_refl)|reflexivity]).
  assert (HR : (if isBooklet t then 1%Z else rows) = rows)
    by (destruct (isBooklet t); [now destruct (Hbook eq_refl)|reflexivity]).
  unfold PreviewPanel.layout, Layout.sizedPlan. cbv zeta. rewrite HC, HR.
  destruct (Num.Qleb pw 0 || Num.Qleb ph 0) eqn:Edims; [reflexivity|].
  apply orb_false_iff in Edims. destruct Edims as (Ew & Eh).
  apply Qleb_false in Ew, Eh.
  destruct (Num.Qltb pw (2 * bleed) || Num.Qltb ph (2 * bleed)) eqn:Ebleed.
  { split; [exact Ew|]. split; [exact Eh|].
    apply orb_true_iff in Ebleed.
    destruct Ebleed as [E|E]; apply Qltb_true in E; auto. }
  apply orb_false_iff in Ebleed. destruct Ebleed as (Bw & Bh).
  apply Qltb_false in Bw, Bh.
  unfold Layout.plan. rewrite sheetSize_engine.
  destruct (Layout.actualSheet sheet o pw ph columns rows hG vG off)
    as [[W H]|message] eqn:Esheet.
  2: { now rewrite (actualSheet_thrown _ _ _ _ _ _ _ _ _ _ Esheet). }
  pose proof (calculateSlotPositions_engine pw ph columns rows hG vG off t W H) as E.
  unfold Layout.currentColumnsForLayout, Layout.currentRowsForLayout in E.
  rewrite HC, HR in E. rewrite E.
  destruct (Layout.slotPositions pw ph columns rows hG vG off t W H)
    as [ps|message] eqn:Eslots; cbn [PreviewPanel.error PreviewPanel.positions].
  - auto.
  - now rewrite (slotPositions_thrown _ _ _ _ _ _ _ _ _ _ _ Eslots).
Qed.

(** X9. The preview computes its layout by its own copy of the code, and
    the copy agrees with the engine.  [calculateSlotPositions] returns an
    error exactly when the engine throws, with the same message, and
    otherwise the same positions.  For a grid that a booklet leaves at two
    columns and one row (as the controls force), the main preview draws a
    sheet only where the engine lays one out, on the same sheet size and at
    the same positions, and each message it shows instead stands for the
    error the engine throws: invalid page dimensions, no orientation that
    fits, a grid too large for the sheet.  The one exception is the bleed:
    the preview refuses a bleed that leaves no trim area, which the engine
    does not check.  So for a bleed that leaves a trim area the preview
    draws exactly what the engine lays out. *)
Theorem preview_layout_matches_engine
  (sheet : Layout.SheetConfig) (o : Layout.SheetOrientation)
  (pw ph bleed : Q) (columns rows : Z) (hG vG : Q) (off : Layout.RowOffsetType)
  (t : ImpositionType) :
  (forall W H,
     PreviewPanel.calculateSlotPositions
       (Layout.currentColumnsForLayout columns t) (Layout.currentRowsForLayout rows t)
       pw ph hG vG W H off
     = match Layout.slotPositions pw ph columns rows hG vG off t W H with
       | Layout.Done ps =>
           {| PreviewPanel.positions := ps; PreviewPanel.error := None |}
       | Layout.Thrown message =>
           {| PreviewPanel.positions := []; PreviewPanel.error := Some message |}
       end)
  /\ ((isBooklet t = true -> columns = 2%Z /\ rows = 1%Z) ->
      match PreviewPanel.layout sheet o t columns rows pw ph bleed hG vG off with
      | PreviewPanel.Drawn result =>
          2 * bleed <= pw /\ 2 * bleed <= ph
          /\ Layout.sizedPlan sheet o pw ph columns rows hG vG off t = Layout.Done result
      | PreviewPanel.Refused PreviewPanel.InvalidInputDims =>
          Layout.sizedPlan sheet o pw ph columns rows hG vG off t
          = Layout.Thrown Layout.invalidDimensionsError
      | PreviewPanel.Refused PreviewPanel.BleedTooLarge =>
          0 < pw /\ 0 < ph /\ (pw < 2 * bleed \/ ph < 2 * bleed)
      | PreviewPanel.Refused PreviewPanel.ContentTooLargeAuto =>
          Layout.sizedPlan sheet o pw ph columns rows hG vG off t
          = Layout.Thrown Layout.autoOrientationError
      | PreviewPanel.Refused PreviewPanel.LayoutTooLarge =>
          Layout.sizedPlan sheet o pw ph columns rows hG vG off t
          = Layout.Thrown
              (Layout.tooLargeError (Layout.currentColumnsForLayout columns t)
                                    (Layout.currentRowsForLayout rows t))
      end)
  /\ ((isBooklet t = true -> columns = 2%Z /\ rows = 1%Z) ->
      2 * bleed <= pw -> 2 * bleed <= ph ->
      forall result,
        Layout.sizedPlan sheet o pw ph columns rows hG vG off t = Layout.Done result ->
        PreviewPanel.layout sheet o t columns rows pw ph bleed hG vG off
        = PreviewPanel.Drawn result).
Proof.
  split; [intros W H; apply calculateSlotPositions_engine|].
  split; [apply layout_engine|].
  intros Hbook Bw Bh result Hplan.
  pose proof (layout_engine sheet o pw ph bleed columns rows hG vG off t Hbook) as H.
  destruct (PreviewPanel.layout sheet o t columns rows pw ph bleed hG vG off)
    as [shown|[| | |]].
  - destruct H as (_ & _ & H). rewrite Hplan in H. now injection H as ->.
  - rewrite Hplan in H. discriminate.
  - destruct H as (_ & _ & [H|H]); lra.
  - rewrite Hplan in H. discriminate.
  - rewrite Hplan in H. discriminate.
Qed.

Lemma preview_layout_matches_engine_witness :
  PreviewPanel.layout (nth 1 Layout.SHEET_SIZES (Layout.Build_SheetConfig EmptyString 0 0))
    Layout.auto booklet 2 1 396 612 9 0 0 Layout.none
  = PreviewPanel.Drawn
      (864, 1296, [ {| Layout.x := 72 # 2; Layout.y := 684 # 2 |};
                    {| Layout.x := 864 # 2; Layout.y := 684 # 2 |} ]).
Proof.
  apply (proj2 (proj2 (preview_layout_matches_engine
                         (nth 1 Layout.SHEET_SIZES (Layout.Build_SheetConfig EmptyString 0 0))
                         Layout.auto 396 612 9 2 1 0 0 Layout.none booklet))).
  - intros _. split; reflexivity.
  - discriminate.
  - discriminate.
  - reflexivity.
Defined.

(** X10. Automatic orientation is sound and complete.  It fails exactly
    when the content block fits the paper neither way; when it succeeds the
    sheet is the selected paper in one of its two orientations and the block
    fits on it, so that (the layout grid being the given grid) the later
    too-large check cannot fail: with automatic orientation the engine
    either lays the sheet out or reports the automatic-orientation error. *)
Theorem auto_orientation_fits
  (sheet : Layout.SheetConfig)
  (pw ph : Q) (columns rows : Z) (hG vG : Q) (off : Layout.RowOffsetType)
  (t : ImpositionType) :
  let long := Layout.paperLongSidePoints sheet in
  let short := Layout.paperShortSidePoints sheet in
  let bw := Layout.blockWidth pw hG off columns rows in
  let bh := Layout.blockHeight ph vG rows in
  (Layout.actualSheet sheet Layout.auto pw ph columns rows hG vG off
   = Layout.Thrown Layout.autoOrientationError
   <-> ~ (bw <= long /\ bh <= short) /\ ~ (bw <= short /\ bh <= long))
  /\ (forall W H,
        Layout.actualSheet sheet Layout.auto pw ph columns rows hG vG off
        = Layout.Done (W, H) ->
        ((W, H) = (long, short) \/ (W, H) = (short, long))
        /\ bw <= W /\ bh <= H)
  /\ ((isBooklet t = true -> columns = 2%Z /\ rows = 1%Z) ->
      (exists result,
          Layout.plan sheet Layout.auto pw ph columns rows hG vG off t
          = Layout.Done result)
      \/ Layout.plan sheet Layout.auto pw ph columns rows hG vG off t
         = Layout.Thrown Layout.autoOrientationError).
Proof.
  intros long short bw bh.
  assert (Hcases :
    (Layout.actualSheet sheet Layout.auto pw ph columns rows hG vG off
     = Layout.Thrown Layout.autoOrientationError
     /\ ~ (bw <= long /\ bh <= short) /\ ~ (bw <= short /\ bh <= long))
    \/ (exists W H,
          Layout.actualSheet sheet Layout.auto pw ph columns rows hG vG off
          = Layout.Done (W, H)
          /\ ((W, H) = (long, short) \/ (W, H) = (short, long))
          /\ bw <= W /\ bh <= H
          /\ ((bw <= long /\ bh <= short) \/ (bw <= short /\ bh <= long)))).
  { unfold Layout.actualSheet. cbv zeta. fold long short bw bh.
    destruct (Num.Qleb bw long) eqn:E1, (Num.Qleb bh short) eqn:E2,
             (Num.Qleb bw short) eqn:E3, (Num.Qleb bh long) eqn:E4;
      cbn [andb]; qbool;
      try (left; split; [reflexivity|]; split; intros (? & ?); lra);
      right;
      try match goal with
          | |- context [if ?b then long else short] => destruct b
          end;
      eexists; eexists; (split; [reflexivity|]);
      (split; [auto|]); (split; [assumption|]); (split; [assumption|]); auto. }
  split; [|split].
  - split.
    + intros Hthrown. destruct Hcases as [(_ & Hno)|(W & H & Hdone & _)];
        [exact Hno|congruence].
    + intros (HnoL & HnoP).
      destruct Hcases as [(Hthrown & _)|(W & H & _ & _ & _ & _ & [Hfit|Hfit])];
        [exact Hthrown| |]; contradiction.
  - intros W H Hdone.
    destruct Hcases as [(Hthrown & _)|(W' & H' & Hdone' & Hor & Hw & Hh & _)];
      [congruence|].
    rewrite Hdone in Hdone'. injection Hdone' as <- <-. auto.
  - intros Hbook.
    assert (HC : Layout.currentColumnsForLayout columns t = columns).
    { unfold Layout.currentColumnsForLayout.
      destruct (isBooklet t); [now destruct (Hbook eq_refl)|reflexivity]. }
    assert (HR : Layout.currentRowsForLayout rows t = rows).
    { unfold Layout.currentRowsForLayout.
      destruct (isBooklet t); [now destruct (Hbook eq_refl)|reflexivity]. }
    unfold Layout.plan.
    destruct Hcases as [(-> & _)|(W & H & -> & _ & Hw & Hh & _)];
      [now right|left].
    unfold Layout.slotPositions, Layout.startXBlock, Layout.startYBlock.
    rewrite HC, HR. fold bw bh. rewrite !start_negative_iff.
    replace (Num.Qltb W bw) with false by (symmetry; now apply Qltb_false).
    replace (Num.Qltb H bh) with false by (symmetry; now apply Qltb_false).
    cbn [orb]. eexists. reflexivity.
Qed.

Lemma auto_orientation_fits_witness :
  (exists result,
      Layout.plan (nth 1 Layout.SHEET_SIZES (Layout.Build_SheetConfig EmptyString 0 0))
        Layout.auto 396 612 2 3 0 0 Layout.half stack = Layout.Done result)
  \/ Layout.plan (nth 1 Layout.SHEET_SIZES (Layout.Build_SheetConfig EmptyString 0 0))
       Layout.auto 396 612 2 3 0 0 Layout.half stack
     = Layout.Thrown Layout.autoOrientationError.
Proof.
  apply (proj2 (proj2 (auto_orientation_fits _ 396 612 2 3 0 0 Layout.half stack))).
  intros Hb. discriminate Hb.
Defined.

(** ** Booklet creep and alternate rotation *)



Local Open Scope Z_scope.

Lemma rem_parity (n : Z) : 0 <= n -> (Z.rem n 2 =? 0) = Z.even n.
Proof.
  intros Hn. rewrite Z.rem_mod_nonneg by lia.
  rewrite Zeven_mod. reflexivity.
Qed.

(** X12. Alternate rotation against work-and-turn.  The back-side slot
    behind a front slot (same row, mirrored column) is in the same row, so
    with rotation of alternate rows, or none, a leaf has its two sides
    turned alike.  With rotation of alternate columns the two sides of a
    leaf are turned alike exactly when the number of columns is odd; and in
    every case the spine marks of the two sides fall on the same edge of the
    leaf (left on one side, right on the other) exactly when the two sides
    are turned alike. *)
Theorem rotation_of_the_two_sides
  (a : Layout.AlternateRotationType) (rd : ReadingDirection)
  (columns rows i : Z) :
  0 < columns -> 0 <= i < columns * rows ->
  let front := Layout.shouldRotate a columns i in
  let back := Layout.shouldRotate a columns (CollateCut.behind columns i) in
  (a <> Layout.altCol -> back = front)
  /\ (a = Layout.altCol -> (back = front <-> Z.odd columns = true))
  /\ (Layout.finalSpineIsLeft false rd back
      = negb (Layout.finalSpineIsLeft true rd front)
      <-> back = front).
Proof.
  intros Hc Hi front back.
  destruct (behind_in_range columns rows i Hc Hi) as (Hq & Hm & Hdm & Hbr).
  set (r := i / columns) in *. set (c := i mod columns) in *.
  assert (Hbq : CollateCut.behind columns i / columns = r).
  { unfold CollateCut.behind. fold r c.
    replace (r * columns + (columns - 1 - c)) with (columns - 1 - c + r * columns) by lia.
    rewrite Z.div_add by lia.
    rewrite Z.div_small by lia. lia. }
  assert (Hbm : Z.rem (CollateCut.behind columns i) columns = columns - 1 - c).
  { rewrite Z.rem_mod_nonneg by lia. unfold CollateCut.behind. fold r c.
    replace (r * columns + (columns - 1 - c)) with (columns - 1 - c + r * columns) by lia.
    rewrite Z.mod_add by lia. apply Z.mod_small. lia. }
  assert (Him : Z.rem i columns = c) by (apply Z.rem_mod_nonneg; lia).
  assert (Hfront : front = match a with
                           | Layout.altCol => negb (Z.even c)
                           | Layout.altRow => negb (Z.even r)
                           | Layout.noRotation => false
                           end).
  { unfold front, Layout.shouldRotate. cbv zeta. fold r. rewrite Him.
    destruct a; rewrite ?rem_parity by lia; reflexivity. }
  assert (Hback : back = match a with
                         | Layout.altCol => negb (Z.even (columns - 1 - c))
                         | Layout.altRow => negb (Z.even r)
                         | Layout.noRotation => false
                         end).
  { unfold back, Layout.shouldRotate. cbv zeta. rewrite Hbq, Hbm.
    destruct a; rewrite ?rem_parity by lia; reflexivity. }
  split; [|split].
  - intros Ha. rewrite Hfront, Hback. destruct a; congruence.
  - intros ->. rewrite Hfront, Hback.
    replace (columns - 1 - c) with (columns + (- 1 - c)) by lia.
    rewrite Z.even_add, <- Z.negb_odd.
    replace (- 1 - c) with (- (c + 1)) by lia.
    rewrite Z.even_opp, Z.even_add. change (Z.even 1) with false.
    destruct (Z.odd columns), (Z.even c); cbn; split; congruence.
  - unfold Layout.finalSpineIsLeft.
    destruct rd, front, back; cbn; split; congruence.
Qed.

Lemma rotation_of_the_two_sides_witness :
  Layout.shouldRotate Layout.altCol 2 (CollateCut.behind 2 1)
  = Layout.shouldRotate Layout.altCol 2 1
  <-> Z.odd 2 = true.
Proof.
  exact (proj1 (proj2 (rotation_of_the_two_sides Layout.altCol ltr 2 1 1
                         ltac:(lia) ltac:(lia))) eq_refl).
Defined.

(** ** The pages the preview caches for a sheet *)

Lemma setAdd_spec (acc : list Z) (q : Z) :
  NoDup acc ->
  NoDup (PreviewPanel.setAdd acc q)
  /\ forall p, In p (PreviewPanel.setAdd acc q) <-> In p acc \/ p = q.
Proof.
  intros Hnd. unfold PreviewPanel.setAdd.
  destruct (existsb (Z.eqb q) acc) eqn:E.
  - split; [exact Hnd|]. intros p. split; [auto|].
    intros [H| ->]; [exact H|].
    apply existsb_exists in E. destruct E as (x & Hx & Hq).
    apply Z.eqb_eq in Hq. now subst.
  - assert (Hnot : ~ In q acc).
    { intros Hin. apply Bool.not_true_iff_false in E. apply E.
      apply existsb_exists. exists q. split; [exact Hin|apply Z.eqb_refl]. }
    split.
    + apply NoDup_app; [exact Hnd|repeat constructor; intros []|].
      intros x Hx [<-|[]]. contradiction.
    + intros p. rewrite in_app_iff. cbn. intuition.
Qed.

Lemma fold_setAdd_entries (l : list (option Z)) : forall acc,
  NoDup acc ->
  let r := fold_left (fun indices entry =>
                        match entry with
                        | Some pageIndex => PreviewPanel.setAdd indices pageIndex
                        | None => indices
                        end) l acc in
  NoDup r /\ forall p, In p r <-> In p acc \/ In (Some p) l.
Proof.
  induction l as [|e l IH]; intros acc Hnd; cbn.
  - split; [exact Hnd|]. intros p. tauto.
  - destruct e as [q|].
    + destruct (setAdd_spec acc q Hnd) as (Hnd' & Hin').
      destruct (IH _ Hnd') as (H1 & H2). split; [exact H1|].
      intros p. rewrite H2, Hin'. split.
      * intros [[H| ->]|H]; auto.
      * intros [H|[[= ->]|H]]; auto.
    + destruct (IH _ Hnd) as (H1 & H2). split; [exact H1|].
      intros p. rewrite H2. split.
      * intros [H|H]; auto.
      * intros [H|[H|H]]; auto. discriminate.
Qed.

Lemma nth_set_nat {A} (l : list (option A)) (i j : nat) v :
  nth j (set_nat l i v) None = if Nat.eqb j i then v else nth j l None.
Proof.
  revert l j. induction i as [|i IH]; intros l j.
  - destruct l, j as [|j]; cbn; try reflexivity. now destruct j.
  - destruct l as [|x l], j as [|j]; cbn; try reflexivity.
    + rewrite IH. destruct (Nat.eqb j i); [reflexivity|now destruct j].
    + apply IH.
Qed.

Lemma in_some_nth {A} (l : list (option A)) (p : A) :
  In (Some p) l <-> exists j, nth j l None = Some p.
Proof.
  split.
  - intros Hin. destruct (In_nth l (Some p) None Hin) as (j & _ & Hj). eauto.
  - intros (j & Hj). destruct (Nat.lt_ge_cases j (List.length l)) as [Hlt|Hge].
    + rewrite <- Hj. now apply nth_In.
    + rewrite nth_overflow in Hj by lia. discriminate.
Qed.

Lemma nth_filled {A} n j : nth j (@filled A n) None = None.
Proof.
  unfold filled. destruct (Nat.lt_ge_cases j (Z.to_nat n)).
  - now apply nth_repeat_lt.
  - apply nth_overflow. rewrite repeat_length. lia.
Qed.

Lemma in_filled {A} n (p : A) : ~ In (Some p) (@filled A n).
Proof. unfold filled. intros H. apply repeat_spec in H. discriminate. Qed.

Lemma booklet_mapping_entries k front columns rows isDuplex P p :
  columns * rows <> 0 -> P <> 0 ->
  In (Some p) (Preview.getPageMappingForSheet k front booklet columns rows isDuplex P)
  <-> (let '(p0, p1) := Preview.bookletIndices k front P in
       (Preview.inRange P p0 = true /\ p = p0)
       \/ (Preview.inRange P p1 = true /\ p = p1)).
Proof.
  intros HS HP. unfold Preview.getPageMappingForSheet, Preview.slotsPerSheet.
  replace (columns * rows =? 0) with false by (symmetry; now apply Z.eqb_neq).
  replace (P =? 0) with false by (symmetry; now apply Z.eqb_neq).
  cbn [orb isStackOrCollate andb]. rewrite andb_false_r. cbn [andb].
  unfold Preview.pageIndicesForSlots.
  destruct (Preview.bookletIndices k front P) as [p0 p1].
  rewrite in_some_nth. unfold set, Preview.slotsPerSheet.
  change (Z.to_nat 0) with 0%nat. change (Z.to_nat 1) with 1%nat.
  destruct (Preview.inRange P p0) eqn:E0, (Preview.inRange P p1) eqn:E1; split.
  - intros (j & Hj). rewrite !nth_set_nat, nth_filled in Hj.
    destruct (Nat.eqb j 1); [right|destruct (Nat.eqb j 0); [left|discriminate]];
      split; congruence.
  - intros [(_ & ->)|(_ & ->)]; [exists 0%nat|exists 1%nat];
      now rewrite !nth_set_nat.
  - intros (j & Hj). rewrite !nth_set_nat, nth_filled in Hj.
    destruct (Nat.eqb j 0); [left; split; congruence|discriminate].
  - intros [(_ & ->)|(Hf & _)]; [|discriminate]. exists 0%nat.
    now rewrite !nth_set_nat.
  - intros (j & Hj). rewrite !nth_set_nat, nth_filled in Hj.
    destruct (Nat.eqb j 1); [right; split; congruence|discriminate].
  - intros [(Hf & _)|(_ & ->)]; [discriminate|]. exists 1%nat.
    now rewrite !nth_set_nat.
  - intros (j & Hj). rewrite nth_filled in Hj. discriminate.
  - intros [(Hf & _)|(Hf & _)]; discriminate.
Qed.

Lemma pages_to_cache_spec k front (t : ImpositionType) columns rows isDuplex P :
  let r := PreviewPanel.getInputPdfPageIndicesForSheet k front t columns rows isDuplex P in
  NoDup r
  /\ forall p, In p r
               <-> In (Some p) (Preview.getPageMappingForSheet k front t columns rows isDuplex P).
Proof.
  cbv zeta.
  assert (Hgen : forall t', 
    let r := fold_left (fun indices entry =>
                          match entry with
                          | Some pageIndex => PreviewPanel.setAdd indices pageIndex
                          | None => indices
                          end)
                       (Preview.getPageMappingForSheet k front t' columns rows isDuplex P) [] in
    NoDup r
    /\ forall p, In p r
                 <-> In (Some p) (Preview.getPageMappingForSheet k front t' columns rows isDuplex P)).
  { intros t'. cbv zeta.
    destruct (fold_setAdd_entries
                (Preview.getPageMappingForSheet k front t' columns rows isDuplex P)
                [] (NoDup_nil _)) as (H1 & H2).
    split; [exact H1|]. intros p. rewrite H2. cbn. tauto. }
  assert (Hempty : (columns * rows =? 0) || (P =? 0) = true ->
            forall p, ~ In (Some p)
                        (Preview.getPageMappingForSheet k front t columns rows isDuplex P)).
  { intros E p. unfold Preview.getPageMappingForSheet, Preview.slotsPerSheet.
    rewrite E. apply in_filled. }
  unfold PreviewPanel.getInputPdfPageIndicesForSheet.
  destruct (P =? 0) eqn:EP.
  { split; [constructor|]. intros p. split; [intros []|].
    apply Hempty. now rewrite orb_true_r. }
  destruct (columns * rows =? 0) eqn:ES.
  { split; [constructor|]. intros p. split; [intros []|].
    now apply Hempty. }
  destruct t; try apply Hgen.
  apply Z.eqb_neq in EP, ES.
  assert (Hpair : forall p0 p1,
    let r := fold_left (fun indices pageIndex =>
                          if (0 <=? pageIndex) && (pageIndex <? P)
                          then PreviewPanel.setAdd indices pageIndex else indices)
                       [p0; p1] [] in
    NoDup r
    /\ forall p, In p r <-> (Preview.inRange P p0 = true /\ p = p0)
                            \/ (Preview.inRange P p1 = true /\ p = p1)).
  { intros p0 p1. cbn [fold_left]. unfold Preview.inRange.
    destruct ((0 <=? p0) && (p0 <? P)), ((0 <=? p1) && (p1 <? P)).
    - destruct (setAdd_spec [] p0 (NoDup_nil _)) as (H1 & H2).
      destruct (setAdd_spec _ p1 H1) as (H3 & H4).
      split; [exact H3|]. intros p. rewrite H4, H2. cbn. intuition.
    - destruct (setAdd_spec [] p0 (NoDup_nil _)) as (H1 & H2).
      split; [exact H1|]. intros p. rewrite H2. cbn. intuition. discriminate.
    - destruct (setAdd_spec [] p1 (NoDup_nil _)) as (H1 & H2).
      split; [exact H1|]. intros p. rewrite H2. cbn. intuition. discriminate.
    - split; [constructor|]. intros p. cbn. intuition; discriminate. }
  split.
  - destruct front; apply Hpair.
  - intros p. rewrite booklet_mapping_entries by assumption.
    unfold Preview.bookletIndices. destruct front; apply Hpair.
Qed.

Lemma mapping_entries_in_range k front (t : ImpositionType) columns rows isDuplex P p :
  0 <= k -> 0 < columns -> 0 < rows -> 0 < P ->
  In (Some p) (Preview.getPageMappingForSheet k front t columns rows isDuplex P) ->
  0 <= p < P.
Proof.
  intros Hk Hc Hr HP Hin.
  assert (HS : 0 < columns * rows) by nia.
  destruct t.
  4:{ apply booklet_mapping_entries in Hin; [|lia|lia].
      destruct (Preview.bookletIndices k front P) as [p0 p1].
      unfold Preview.inRange in Hin.
      destruct Hin as [(Hin & ->)|(Hin & ->)];
        apply andb_true_iff in Hin; destruct Hin; zbool; lia. }
  all: unfold Preview.getPageMappingForSheet, Preview.slotsPerSheet in Hin.
  all: replace (columns * rows =? 0) with false in Hin
         by (symmetry; apply Z.eqb_neq; lia).
  all: replace (P =? 0) with false in Hin by (symmetry; apply Z.eqb_neq; lia).
  all: cbn [orb] in Hin.
  all: assert (Hin' : In (Some p)
                        (Preview.pageIndicesForSlots k front _ columns rows isDuplex P))
         by (destruct (negb front && isDuplex && _ && (1 <? columns));
             [eapply in_reverseRows|]; exact Hin).
  all: clear Hin; unfold Preview.pageIndicesForSlots, Preview.slotsPerSheet in Hin'.
  - rewrite fillSlots_spec in Hin'. apply in_map_iff in Hin'.
    destruct Hin' as (i & Hi & Hrange). apply in_seqZ in Hrange.
    destruct (_ <? P) eqn:E in Hi; [|discriminate]. injection Hi as <-.
    apply Z.ltb_lt in E. split; [|exact E].
    destruct isDuplex, front; nia.
  - destruct (_ <? P) eqn:E in Hin'; [|now apply in_filled in Hin'].
    apply Z.ltb_lt in E.
    assert (Hall : forall (l : list Z) (arr : list (option Z)) q,
              In (Some p) (fold_left (fun a i => set a i (Some q)) l arr) ->
              In (Some p) arr \/ p = q).
    { induction l as [|x l IH]; intros arr q H; cbn in H; [now left|].
      apply IH in H. destruct H as [H|H]; [|now right].
      apply in_some_nth in H. destruct H as (j & Hj). unfold set in Hj.
      rewrite nth_set_nat in Hj. destruct (Nat.eqb j (Z.to_nat x)).
      - right. congruence.
      - left. apply in_some_nth. eauto. }
    apply Hall in Hin'. destruct Hin' as [H| ->]; [now apply in_filled in H|].
    split; [|exact E]. destruct isDuplex, front; nia.
  - rewrite fillSlots_spec in Hin'. apply in_map_iff in Hin'.
    destruct Hin' as (i & Hi & Hrange). apply in_seqZ in Hrange.
    destruct (_ <? P) eqn:E in Hi; [|discriminate]. injection Hi as <-.
    apply Z.ltb_lt in E. split; [|exact E].
    rewrite nth_map_seqZ by lia. rewrite Z2Nat.id by lia.
    pose proof (ceil_div_pos P (columns * rows) HP HS) as Hc1.
    pose proof (ceil_div_pos _ 2 Hc1 ltac:(lia)) as Hc2.
    destruct isDuplex, front; nia.
Qed.

(** X13. The pages the preview asks to cache for one side of a sheet are
    exactly the pages its mapping shows on that side: the list has no
    repetition, contains every page of the mapping and nothing else, and for
    a sheet of a non-empty document on a non-empty grid every one of them is
    a page of the document. *)
Theorem pages_to_cache_are_the_mapped_pages
  (k : Z) (front : bool) (t : ImpositionType) (columns rows : Z)
  (isDuplex : bool) (P : Z) :
  let r := PreviewPanel.getInputPdfPageIndicesForSheet k front t columns rows isDuplex P in
  NoDup r
  /\ (forall p, In p r
                <-> In (Some p)
                       (Preview.getPageMappingForSheet k front t columns rows isDuplex P))
  /\ (0 <= k -> 0 < columns -> 0 < rows -> 0 < P ->
      forall p, In p r -> 0 <= p < P).
Proof.
  cbv zeta.
  destruct (pages_to_cache_spec k front t columns rows isDuplex P) as (H1 & H2).
  split; [exact H1|]. split; [exact H2|].
  intros Hk Hc Hr HP p Hp. apply H2 in Hp.
  now apply (mapping_entries_in_range k front t columns rows isDuplex P p).
Qed.

Lemma pages_to_cache_are_the_mapped_pages_witness :
  Forall (fun p => 0 <= p < 17)
         (PreviewPanel.getInputPdfPageIndicesForSheet 1 false collateCut 3 2 true 17).
Proof.
  apply Forall_forall.
  exact (proj2 (proj2 (pages_to_cache_are_the_mapped_pages 1 false collateCut 3 2 true 17))
           ltac:(lia) ltac:(lia) ltac:(lia) ltac:(lia)).
Defined.

(** ** The packer: what a plan costs, and which plan is chosen *)

Local Open Scope Q_scope.

(** The offer of one box for [q] books when [n] of them go in a box. *)
Lemma considerBox_full (w l s weight : Q) box :
  0 < weight -> 0 <= w -> 0 <= l -> 0 <= s ->
  In box Shipping.flatBoxes ->
  (forall q best, Shipping.considerBox q w l s weight best box = best)
  \/ (exists n, 0 < n /\ forall q best,
        Shipping.considerBox q w l s weight best box
        = if Num.lt (Num.Fin (Properties.boxTotal weight box n q)) (Shipping.bestCost best)
          then {| Shipping.bestCost := Num.Fin (Properties.boxTotal weight box n q);
                  Shipping.bestBreakdown :=
                    Some {| Shipping.boxName := Shipping.flatName box;
                            Shipping.boxCount := Num.Fin (Num.ceilQ (q / n));
                            Shipping.booksPerBox := Num.Fin n;
                            Shipping.totalWeightLbs := q * weight |} |}
          else best).
Proof.
  intros Hweight Hw Hl Hs Hin. unfold Shipping.considerBox.
  destruct (Shipping.tooLarge w l s box); [now left|].
  destruct (max_orientations w l s Hw Hl Hs box Hin) as (Hc & _).
  set (m := Num.max (Shipping.orientations w l s box)) in *.
  destruct (Num.eqb m (Num.Fin 0)) eqn:Ezero; [now left|].
  destruct (weight_cap weight Hweight) as (Ecap & _). rewrite Ecap.
  set (M := Num.floorQ (40 / weight)) in *.
  destruct (Num.gt (Num.Fin M) (Num.Fin 0)) eqn:EM; [|now left].
  unfold Num.gt in EM. cbn in EM. qbool.
  assert (Hn : forall n, 0 < n -> Num.min2 m (Num.Fin M) = Num.Fin n ->
            exists n, 0 < n /\ forall q best,
              (if Num.lt
                    (Num.add
                       (Num.mul (Num.ceil (Num.div (Num.Fin q)
                                             (Num.min2 m (Num.Fin M))))
                                (Num.Fin (Shipping.flatCost box)))
                       (Num.Fin (Shipping.getCarrierCost (q * weight))))
                    (Shipping.bestCost best)
               then {| Shipping.bestCost :=
                         Num.add
                           (Num.mul (Num.ceil (Num.div (Num.Fin q)
                                                 (Num.min2 m (Num.Fin M))))
                                    (Num.Fin (Shipping.flatCost box)))
                           (Num.Fin (Shipping.getCarrierCost (q * weight)));
                       Shipping.bestBreakdown :=
                         Some {| Shipping.boxName := Shipping.flatName box;
                                 Shipping.boxCount :=
                                   Num.ceil (Num.div (Num.Fin q)
                                               (Num.min2 m (Num.Fin M)));
                                 Shipping.booksPerBox := Num.min2 m (Num.Fin M);
                                 Shipping.totalWeightLbs := q * weight |} |}
               else best)
              = if Num.lt (Num.Fin (Properties.boxTotal weight box n q)) (Shipping.bestCost best)
                then {| Shipping.bestCost := Num.Fin (Properties.boxTotal weight box n q);
                        Shipping.bestBreakdown :=
                          Some {| Shipping.boxName := Shipping.flatName box;
                                  Shipping.boxCount := Num.Fin (Num.ceilQ (q / n));
                                  Shipping.booksPerBox := Num.Fin n;
                                  Shipping.totalWeightLbs := q * weight |} |}
                else best).
  { intros n Hpos Emin. exists n. split; [exact Hpos|]. intros q best.
    rewrite Emin. unfold Num.div. rewrite (proj2 (Qeqb_false n 0)) by lra.
    cbn [Num.ceil Num.mul Num.add]. fold (Properties.boxTotal weight box n q).
    reflexivity. }
  destruct Hc as [q0 Hq0| |].
  - right. cbn in Ezero. qbool.
    assert (Hqpos : 0 < q0).
    { destruct (Qlt_le_dec 0 q0) as [H|H]; [exact H|]. exfalso. apply Ezero. lra. }
    destruct (Num.Qltb M q0) eqn:EMq.
    + apply (Hn M EM). cbn. now rewrite EMq.
    + apply (Hn q0 Hqpos). cbn. now rewrite EMq.
  - right. apply (Hn M EM). reflexivity.
  - left. intros q best. reflexivity.
Qed.

Lemma lt_PInf_l (c : Num.num) : Num.lt Num.PInf c = false.
Proof. now destruct c. Qed.

Section PackerChoice.
Variables (q w l s weight : Q).
Hypotheses (Hweight : 0 < weight) (Hw : 0 <= w) (Hl : 0 <= l) (Hs : 0 <= s).

Let start : Shipping.BestOption :=
  {| Shipping.bestCost := Num.PInf; Shipping.bestBreakdown := None |}.
Let offer (box : Shipping.FlatBox) : Shipping.BestOption :=
  Shipping.considerBox q w l s weight start box.
Let shaped (c : Num.num) : Prop := c = Num.PInf \/ exists x, c = Num.Fin x.

Lemma offer_cases box :
  In box Shipping.flatBoxes ->
  (offer box = start
   /\ forall best, Shipping.considerBox q w l s weight best box = best)
  \/ (exists n, 0 < n
        /\ offer box
           = {| Shipping.bestCost := Num.Fin (Properties.boxTotal weight box n q);
                Shipping.bestBreakdown :=
                  Some {| Shipping.boxName := Shipping.flatName box;
                          Shipping.boxCount := Num.Fin (Num.ceilQ (q / n));
                          Shipping.booksPerBox := Num.Fin n;
                          Shipping.totalWeightLbs := q * weight |} |}
        /\ forall best,
             Shipping.considerBox q w l s weight best box
             = if Num.lt (Num.Fin (Properties.boxTotal weight box n q))
                         (Shipping.bestCost best)
               then offer box else best).
Proof.
  intros Hin.
  destruct (considerBox_full w l s weight box Hweight Hw Hl Hs Hin)
    as [Hskip|(n & Hn & Hstep)].
  - left. split; [apply Hskip|intros best; apply Hskip].
  - right. exists n. split; [exact Hn|].
    assert (Hoffer : offer box
              = {| Shipping.bestCost := Num.Fin (Properties.boxTotal weight box n q);
                   Shipping.bestBreakdown :=
                     Some {| Shipping.boxName := Shipping.flatName box;
                             Shipping.boxCount := Num.Fin (Num.ceilQ (q / n));
                             Shipping.booksPerBox := Num.Fin n;
                             Shipping.totalWeightLbs := q * weight |} |})
      by (unfold offer; rewrite Hstep; reflexivity).
    split; [exact Hoffer|]. intros best. rewrite Hstep, Hoffer. reflexivity.
Qed.

Lemma fold_considerBox_choice boxes : forall best,
  shaped (Shipping.bestCost best) ->
  (forall box, In box boxes -> In box Shipping.flatBoxes) ->
  let final := fold_left (Shipping.considerBox q w l s weight) boxes best in
  shaped (Shipping.bestCost final)
  /\ (final = best
      \/ exists box, In box boxes /\ final = offer box
                     /\ exists x, Shipping.bestCost final = Num.Fin x)
  /\ Num.lt (Shipping.bestCost best) (Shipping.bestCost final) = false
  /\ forall box, In box boxes ->
       Num.lt (Shipping.bestCost (offer box)) (Shipping.bestCost final) = false.
Proof.
  induction boxes as [|box boxes IH]; intros best Hshape Hsub; cbn [fold_left].
  - split; [exact Hshape|]. split; [now left|]. split; [|intros ? []].
    destruct Hshape as [->|(x & ->)]; cbn; [reflexivity|].
    apply Qltb_false. lra.
  - assert (Hin : In box Shipping.flatBoxes) by (apply Hsub; now left).
    assert (Hsub' : forall b, In b boxes -> In b Shipping.flatBoxes)
      by (intros b Hb; apply Hsub; now right).
    destruct (offer_cases box Hin) as [(Hoff & Hskip)|(n & Hn & Hoff & Hstep)].
    + rewrite Hskip.
      destruct (IH best Hshape Hsub') as (H1 & H2 & H3 & H4).
      split; [exact H1|]. split; [|split; [exact H3|]].
      * destruct H2 as [H2|(b & Hb & H2)]; [now left|right].
        exists b. split; [now right|exact H2].
      * intros b [<-|Hb]; [|now apply H4]. rewrite Hoff. apply lt_PInf_l.
    + rewrite Hstep.
      set (T := Properties.boxTotal weight box n q) in *.
      assert (HoffCost : Shipping.bestCost (offer box) = Num.Fin T)
        by (rewrite Hoff; reflexivity).
      destruct (Num.lt (Num.Fin T) (Shipping.bestCost best)) eqn:Elt.
      * destruct (IH (offer box) ltac:(right; eauto) Hsub') as (H1 & H2 & H3 & H4).
        set (final := fold_left (Shipping.considerBox q w l s weight) boxes (offer box)) in *.
        split; [exact H1|]. split; [|split].
        -- right. destruct H2 as [H2|(b & Hb & H2)].
           ++ exists box. split; [now left|]. split; [exact H2|].
              rewrite H2. eauto.
           ++ exists b. split; [now right|exact H2].
        -- rewrite HoffCost in H3.
           destruct Hshape as [E|(x & E)]; rewrite E in *; [apply lt_PInf_l|].
           destruct H1 as [E1|(f & E1)]; rewrite E1 in *; [discriminate|].
           cbn in *. qbool. apply Qltb_false. lra.
        -- intros b [<-|Hb]; [exact H3|now apply H4].
      * destruct (IH best Hshape Hsub') as (H1 & H2 & H3 & H4).
        set (final := fold_left (Shipping.considerBox q w l s weight) boxes best) in *.
        split; [exact H1|]. split; [|split; [exact H3|]].
        -- destruct H2 as [H2|(b & Hb & H2)]; [now left|right].
           exists b. split; [now right|exact H2].
        -- intros b [<-|Hb]; [|now apply H4]. rewrite HoffCost.
           destruct Hshape as [E|(x & E)]; rewrite E in *; [discriminate|].
           destruct H1 as [E1|(f & E1)]; rewrite E1 in *; [discriminate|].
           cbn in *. qbool. apply Qltb_false. lra.
Qed.
End PackerChoice.

(** X14. The carrier rate table.  The charge never decreases when the
    weight grows (the brackets are ordered, and the per-pound rate above 50 lb
    starts at the last bracket), a shipment of no weight costs nothing, and
    any positive weight costs at least the first bracket, 9.50. *)
Theorem carrier_rate_table (x y : Q) :
  (x <= y -> Shipping.getCarrierCost x <= Shipping.getCarrierCost y)
  /\ (x <= 0 -> Shipping.getCarrierCost x = 0)
  /\ (0 < x -> 950 # 100 <= Shipping.getCarrierCost x)
  /\ (50 < x -> Shipping.getCarrierCost x == 42 + (x - 50) * (75 # 100)).
Proof.
  split; [|split; [|split]].
  - unfold Shipping.getCarrierCost. intros Hxy. qcases; lra.
  - intros Hx. unfold Shipping.getCarrierCost.
    now rewrite (proj2 (Qleb_true x 0) Hx).
  - intros Hx. unfold Shipping.getCarrierCost. qcases; lra.
  - intros Hx. unfold Shipping.getCarrierCost. qcases; lra.
Qed.

Lemma carrier_rate_table_witness :
  Shipping.getCarrierCost 38 <= Shipping.getCarrierCost 42.
Proof. exact (proj1 (carrier_rate_table 38 42) ltac:(discriminate)). Defined.

(** The plan of the packer, when there is one, and its cost. *)
Lemma calculateShipping_plan
  (q w l s weight : Q) (overrideBoxName : option string) :
  0 < q -> 0 < weight -> 0 <= w -> 0 <= l -> 0 <= s ->
  match Shipping.breakdown
          (Shipping.calculateShipping q w l s weight overrideBoxName) with
  | None =>
      Shipping.shippingCost
        (Shipping.calculateShipping q w l s weight overrideBoxName) = Num.Fin 0
  | Some b =>
      exists box n,
        In box (Shipping.boxesToConsider overrideBoxName)
        /\ Shipping.flatName box = Shipping.boxName b
        /\ 0 < n
        /\ Shipping.booksPerBox b = Num.Fin n
        /\ Shipping.boxCount b = Num.Fin (Num.ceilQ (q / n))
        /\ Shipping.totalWeightLbs b = q * weight
        /\ Shipping.shippingCost
             (Shipping.calculateShipping q w l s weight overrideBoxName)
           = Num.Fin (Num.ceilQ (q / n) * Shipping.flatCost box
                      + Shipping.getCarrierCost (q * weight))
        /\ 950 # 100 <= Num.ceilQ (q / n) * Shipping.flatCost box
                        + Shipping.getCarrierCost (q * weight)
  end.
Proof.
  intros Hq Hweight Hw Hl Hs. unfold Shipping.calculateShipping.
  rewrite (proj2 (Qleb_false q 0) Hq), (proj2 (Qleb_false weight 0) Hweight).
  cbn [orb Shipping.breakdown Shipping.shippingCost].
  destruct (fold_considerBox_choice q w l s weight Hweight Hw Hl Hs
              (Shipping.boxesToConsider overrideBoxName)
              {| Shipping.bestCost := Num.PInf; Shipping.bestBreakdown := None |}
              (or_introl eq_refl) (boxesToConsider_sub overrideBoxName))
    as (_ & [Hstart|(box & Hbox & Hfinal & x & Hx)] & _ & _).
  - rewrite Hstart. reflexivity.
  - rewrite Hfinal in *.
    pose proof (boxesToConsider_sub overrideBoxName box Hbox) as Hin.
    destruct (offer_cases q w l s weight Hweight Hw Hl Hs box Hin)
      as [(Hoff & _)|(n & Hn & Hoff & _)]; rewrite Hoff in *; [discriminate|].
    cbn [Shipping.bestBreakdown Shipping.bestCost Num.eqb].
    exists box, n. unfold Properties.boxTotal.
    repeat (split; [first [assumption|reflexivity]|]).
    destruct (flatBoxes_positive box Hin) as (_ & _ & _ & Hcost).
    assert (Hceil : 0 <= Num.ceilQ (q / n))
      by (apply ceilQ_nonneg, div_nonneg; lra).
    assert (Hcarrier : 950 # 100 <= Shipping.getCarrierCost (q * weight)).
    { unfold Shipping.getCarrierCost.
      assert (0 < q * weight) by nra. qcases; lra. }
    nra.
Qed.

(** X15. What the packer charges.  For a positive quantity and book weight
    (book sides not negative) the result either has no plan, and then the
    shipping cost is 0, or it has a plan, and then the plan names one of
    the boxes considered, packs a positive number [n] of books per box in
    [ceil(quantity / n)] boxes, weighs quantity times the book weight, and
    the shipping cost is the handling charge of those boxes plus the carrier
    rate for that weight, never less than 9.50.  For a quantity or book
    weight that is not positive there is no plan and no cost. *)
Theorem shipping_cost_accounts
  (q w l s weight : Q) (overrideBoxName : option string) :
  let r := Shipping.calculateShipping q w l s weight overrideBoxName in
  (0 < q -> 0 < weight -> 0 <= w -> 0 <= l -> 0 <= s ->
   (Shipping.breakdown r = None -> Shipping.shippingCost r = Num.Fin 0)
   /\ forall b, Shipping.breakdown r = Some b ->
       exists box n,
         In box (Shipping.boxesToConsider overrideBoxName)
         /\ Shipping.flatName box = Shipping.boxName b
         /\ 0 < n
         /\ Shipping.booksPerBox b = Num.Fin n
         /\ Shipping.boxCount b = Num.Fin (Num.ceilQ (q / n))
         /\ Shipping.totalWeightLbs b = q * weight
         /\ Shipping.shippingCost r
            = Num.Fin (Num.ceilQ (q / n) * Shipping.flatCost box
                       + Shipping.getCarrierCost (q * weight))
         /\ 950 # 100 <= Num.ceilQ (q / n) * Shipping.flatCost box
                         + Shipping.getCarrierCost (q * weight))
  /\ (q <= 0 \/ weight <= 0 ->
      r = {| Shipping.shippingCost := Num.Fin 0; Shipping.breakdown := None |}).
Proof.
  cbv zeta. split.
  - intros Hq Hweight Hw Hl Hs.
    pose proof (calculateShipping_plan q w l s weight overrideBoxName
                  Hq Hweight Hw Hl Hs) as Hplan.
    split.
    + intros E. now rewrite E in Hplan.
    + intros b E. now rewrite E in Hplan.
  - intros Hguard. unfold Shipping.calculateShipping.
    replace (Num.Qleb q 0 || Num.Qleb weight 0) with true; [reflexivity|].
    symmetry. apply orb_true_iff.
    destruct Hguard; [left|right]; now apply Qleb_true.
Qed.

Lemma shipping_cost_accounts_witness :
  exists box n,
    In box (Shipping.boxesToConsider None)
    /\ Shipping.flatName box = "Standard Medium Box (11.25x8.75x9.5)"%string
    /\ 0 < n
    /\ Num.Fin 76 = Num.Fin n
    /\ Num.Fin 7 = Num.Fin (Num.ceilQ (500 / n))
    /\ 500 # 2 = 500 * (1 # 2)
    /\ Shipping.shippingCost
         (Shipping.calculateShipping 500 (55 # 10) (85 # 10) (1 # 4) (1 # 2) None)
       = Num.Fin (Num.ceilQ (500 / n) * Shipping.flatCost box
                  + Shipping.getCarrierCost (500 * (1 # 2)))
    /\ 950 # 100 <= Num.ceilQ (500 / n) * Shipping.flatCost box
                    + Shipping.getCarrierCost (500 * (1 # 2)).
Proof.
  assert (E : Shipping.breakdown
                (Shipping.calculateShipping 500 (55 # 10) (85 # 10) (1 # 4) (1 # 2) None)
              = Some {| Shipping.boxName := "Standard Medium Box (11.25x8.75x9.5)";
                        Shipping.boxCount := Num.Fin 7;
                        Shipping.booksPerBox := Num.Fin 76;
                        Shipping.totalWeightLbs := 500 # 2 |})
    by (vm_compute; reflexivity).
  exact (proj2 (proj1 (shipping_cost_accounts 500 (55 # 10) (85 # 10) (1 # 4) (1 # 2) None)
                  ltac:(reflexivity) ltac:(reflexivity)
                  ltac:(discriminate) ltac:(discriminate) ltac:(discriminate))
           _ E).
Defined.

(** X16. The automatic choice of a box is the cheapest one: whenever forcing
    some box by name yields a plan, the packer left to itself finds a plan
    too, and its shipping cost is not higher. *)
Theorem automatic_box_is_cheapest
  (q w l s weight : Q) (boxName : string) (b : Shipping.ShippingBreakdown) :
  0 < q -> 0 < weight -> 0 <= w -> 0 <= l -> 0 <= s ->
  Shipping.breakdown (Shipping.calculateShipping q w l s weight (Some boxName))
  = Some b ->
  (exists b0,
      Shipping.breakdown (Shipping.calculateShipping q w l s weight None) = Some b0)
  /\ Num.finite (Shipping.shippingCost
                   (Shipping.calculateShipping q w l s weight None))
     <= Num.finite (Shipping.shippingCost
                      (Shipping.calculateShipping q w l s weight (Some boxName))).
Proof.
  intros Hq Hweight Hw Hl Hs. unfold Shipping.calculateShipping.
  rewrite (proj2 (Qleb_false q 0) Hq), (proj2 (Qleb_false weight 0) Hweight).
  cbn [orb Shipping.breakdown Shipping.shippingCost].
  set (start := {| Shipping.bestCost := Num.PInf; Shipping.bestBreakdown := None |}).
  destruct (fold_considerBox_choice q w l s weight Hweight Hw Hl Hs
              (Shipping.boxesToConsider (Some boxName)) start
              (or_introl eq_refl) (boxesToConsider_sub (Some boxName)))
    as (_ & [Hstart|(box & Hbox & Hfinal & x & Hx)] & _ & _).
  { rewrite Hstart. discriminate. }
  intros _.
  pose proof (boxesToConsider_sub (Some boxName) box Hbox) as Hin.
  destruct (fold_considerBox_choice q w l s weight Hweight Hw Hl Hs
              (Shipping.boxesToConsider None) start
              (or_introl eq_refl) (boxesToConsider_sub None))
    as (Hshape & Horigin & _ & Hmin).
  specialize (Hmin box Hin).
  rewrite <- Hfinal in Hmin. rewrite Hx in *.
  set (auto := fold_left (Shipping.considerBox q w l s weight)
                 (Shipping.boxesToConsider None) start) in *.
  destruct Hshape as [E|(y & E)]; rewrite E in *; [discriminate|].
  split.
  - destruct Horigin as [Hstart|(box0 & Hbox0 & Hfinal0 & _)].
    + rewrite Hstart in E. discriminate.
    + destruct (offer_cases q w l s weight Hweight Hw Hl Hs box0
                  (boxesToConsider_sub None box0 Hbox0))
        as [(Hoff & _)|(n & _ & Hoff & _)].
      * rewrite Hfinal0, Hoff in E. discriminate.
      * rewrite Hfinal0, Hoff. eexists. reflexivity.
  - cbn in *. qbool. exact Hmin.
Qed.

Lemma automatic_box_is_cheapest_witness :
  Num.finite (Shipping.shippingCost
                (Shipping.calculateShipping 500 (55 # 10) (85 # 10) (1 # 4) (1 # 2) None))
  <= Num.finite (Shipping.shippingCost
                   (Shipping.calculateShipping 500 (55 # 10) (85 # 10) (1 # 4) (1 # 2)
                      (Some "Standard Large Box (12x9x10)"%string))).
Proof.
  assert (E : Shipping.breakdown
                (Shipping.calculateShipping 500 (55 # 10) (85 # 10) (1 # 4) (1 # 2)
                   (Some "Standard Large Box (12x9x10)"%string))
              = Some {| Shipping.boxName := "Standard Large Box (12x9x10)";
                        Shipping.boxCount := Num.Fin 7;
                        Shipping.booksPerBox := Num.Fin 80;
                        Shipping.totalWeightLbs := 500 # 2 |})
    by (vm_compute; reflexivity).
  exact (proj2 (automatic_box_is_cheapest 500 (55 # 10) (85 # 10) (1 # 4) (1 # 2)
                  "Standard Large Box (12x9x10)" _
                  ltac:(reflexivity) ltac:(reflexivity)
                  ltac:(discriminate) ltac:(discriminate) ltac:(discriminate)
                  E)).
Defined.

(** X17. A box forced by name is respected: with a non-empty override name
    every plan the packer returns uses the box of that name, and a name that
    no box of the flattened catalog carries gives no plan and a shipping
    cost of 0.  The empty name means no override. *)
Theorem override_is_respected (q w l s weight : Q) (boxName : string) :
  (boxName <> EmptyString ->
   0 < q -> 0 < weight -> 0 <= w -> 0 <= l -> 0 <= s ->
   forall b,
     Shipping.breakdown (Shipping.calculateShipping q w l s weight (Some boxName))
     = Some b ->
     Shipping.boxName b = boxName)
  /\ (boxName <> EmptyString ->
      ~ In boxName (map Shipping.flatName Shipping.flatBoxes) ->
      Shipping.calculateShipping q w l s weight (Some boxName)
      = {| Shipping.shippingCost := Num.Fin 0; Shipping.breakdown := None |})
  /\ Shipping.calculateShipping q w l s weight (Some EmptyString)
     = Shipping.calculateShipping q w l s weight None.
Proof.
  split; [|split].
  - intros Hname Hq Hweight Hw Hl Hs b Hb.
    pose proof (calculateShipping_plan q w l s weight (Some boxName)
                  Hq Hweight Hw Hl Hs) as Hacc.
    rewrite Hb in Hacc.
    destruct Hacc as (box & n & Hbox & Hflat & _).
    unfold Shipping.boxesToConsider in Hbox.
    replace (String.eqb boxName "") with false in Hbox
      by (symmetry; now apply String.eqb_neq).
    apply filter_In in Hbox. destruct Hbox as (_ & Heq).
    apply String.eqb_eq in Heq. congruence.
  - intros Hname Hnone. unfold Shipping.calculateShipping.
    destruct (Num.Qleb q 0 || Num.Qleb weight 0); [reflexivity|].
    assert (Hnil : Shipping.boxesToConsider (Some boxName) = []).
    { unfold Shipping.boxesToConsider.
      replace (String.eqb boxName "") with false
        by (symmetry; now apply String.eqb_neq).
      destruct (filter (fun box => String.eqb (Shipping.flatName box) boxName)
                  Shipping.flatBoxes) as [|box rest] eqn:E; [reflexivity|].
      exfalso. apply Hnone.
      assert (Hin : In box (filter (fun box => String.eqb (Shipping.flatName box) boxName)
                              Shipping.flatBoxes)) by (rewrite E; now left).
      apply filter_In in Hin. destruct Hin as (Hin & Heq).
      apply String.eqb_eq in Heq. subst boxName.
      now apply in_map. }
    rewrite Hnil. reflexivity.
  - reflexivity.
Qed.

Lemma override_is_respected_witness :
  Shipping.boxName
    {| Shipping.boxName := "Standard Large Box (12x9x10)";
       Shipping.boxCount := Num.Fin 7;
       Shipping.booksPerBox := Num.Fin 80;
       Shipping.totalWeightLbs := 500 # 2 |}
  = "Standard Large Box (12x9x10)"%string.
Proof.
  assert (E : Shipping.breakdown
                (Shipping.calculateShipping 500 (55 # 10) (85 # 10) (1 # 4) (1 # 2)
                   (Some "Standard Large Box (12x9x10)"%string))
              = Some {| Shipping.boxName := "Standard Large Box (12x9x10)";
                        Shipping.boxCount := Num.Fin 7;
                        Shipping.booksPerBox := Num.Fin 80;
                        Shipping.totalWeightLbs := 500 # 2 |})
    by (vm_compute; reflexivity).
  exact (proj1 (override_is_respected 500 (55 # 10) (85 # 10) (1 # 4) (1 # 2)
                  "Standard Large Box (12x9x10)")
           ltac:(discriminate) ltac:(reflexivity) ltac:(reflexivity)
           ltac:(discriminate) ltac:(discriminate) ltac:(discriminate) _ E).
Defined.



(** ** The estimator: imposition, sheets and the breakdown *)

Local Open Scope Q_scope.

Lemma floorQ_fits (a b : Q) : 0 < b -> (1 <= Num.floorQ (a / b) <-> b <= a).
Proof.
  intros Hb. unfold Num.floorQ. split.
  - intros H. pose proof (Qfloor_le (a / b)) as Hfl.
    assert (H1 : 1 <= a / b) by lra.
    apply (Qmult_le_compat_r _ _ b) in H1; [|lra].
    rewrite Qmult_1_l in H1.
    assert (E : a / b * b == a) by (field; lra). lra.
  - intros H. change 1 with (inject_Z 1). rewrite <- Zle_Qle.
    rewrite <- (Qfloor_Z 1). apply Qfloor_resp_le.
    apply Qle_shift_div_l; [exact Hb|]. change (inject_Z 1) with 1. lra.
Qed.

Lemma floorQ_times (a b : Q) : 0 < b -> Num.floorQ (a / b) * b <= a.
Proof.
  intros Hb. unfold Num.floorQ. pose proof (Qfloor_le (a / b)) as Hfl.
  apply (Qmult_le_compat_r _ _ b) in Hfl; [|lra].
  assert (E : a / b * b == a) by (field; lra). lra.
Qed.

Lemma floorQ_integer (x : Q) : Num.floorQ x = inject_Z (Qfloor x).
Proof. reflexivity. Qed.

Lemma product_at_least_one (m n : Z) :
  (0 <= m)%Z -> (0 <= n)%Z ->
  (1 <= inject_Z m * inject_Z n <-> 1 <= inject_Z m /\ 1 <= inject_Z n).
Proof.
  intros Hm Hn. rewrite <- inject_Z_mult.
  change 1 with (inject_Z 1). rewrite <- !Zle_Qle. nia.
Qed.

Lemma maxQ_cases (a b : Q) :
  (a <= b /\ Num.maxQ a b = b) \/ (b < a /\ Num.maxQ a b = a).
Proof.
  unfold Num.maxQ. destruct (Num.Qleb a b) eqn:E; qbool; [left|right]; auto.
Qed.

Section Imposition.
Variables (parentW parentH jobW jobH : Q).
Hypotheses (HpW : 0 < parentW) (HpH : 0 < parentH).

Lemma calculateImposition_fits :
  1 <= Cost.calculateImposition parentW parentH jobW jobH
  <-> 0 < jobW /\ 0 < jobH
      /\ ((jobW <= parentW /\ jobH <= parentH)
          \/ (jobH <= parentW /\ jobW <= parentH)).
Proof.
  unfold Cost.calculateImposition.
  destruct (Num.Qleb jobW 0) eqn:EW; qbool.
  { cbn [orb]. split; [intros H; lra|intros (H & _); lra]. }
  destruct (Num.Qleb jobH 0) eqn:EH; qbool.
  { cbn [orb]. split; [intros H; lra|intros (_ & H & _); lra]. }
  cbn [orb]. cbv zeta.
  assert (Hpos : forall a b, 0 < a -> 0 < b -> (0 <= Qfloor (a / b))%Z).
  { intros a b Ha Hb. pose proof (floorQ_nonneg (a / b)
                                   ltac:(apply div_nonneg; lra)) as H.
    unfold Num.floorQ in H. change 0 with (inject_Z 0) in H.
    now rewrite <- Zle_Qle in H. }
  rewrite !floorQ_integer.
  pose proof (product_at_least_one _ _ (Hpos parentW jobW HpW EW)
                (Hpos parentH jobH HpH EH)) as H1.
  pose proof (product_at_least_one _ _ (Hpos parentW jobH HpW EH)
                (Hpos parentH jobW HpH EW)) as H2.
  rewrite <- !floorQ_integer in *.
  rewrite !floorQ_fits in H1, H2 by assumption.
  destruct (maxQ_cases (Num.floorQ (parentW / jobW) * Num.floorQ (parentH / jobH))
                       (Num.floorQ (parentW / jobH) * Num.floorQ (parentH / jobW)))
    as [(Hle & ->)|(Hlt & ->)].
  - split.
    + intros H. apply H2 in H. auto.
    + intros (_ & _ & [Hfit|Hfit]); [|now apply H2].
      apply H1 in Hfit. lra.
  - split.
    + intros H. apply H1 in H. auto.
    + intros (_ & _ & [Hfit|Hfit]); [now apply H1|].
      apply H2 in Hfit. lra.
Qed.

Lemma calculateImposition_area :
  0 <= Cost.calculateImposition parentW parentH jobW jobH
  /\ Cost.calculateImposition parentW parentH jobW jobH * (jobW * jobH)
     <= parentW * parentH.
Proof.
  unfold Cost.calculateImposition.
  destruct (Num.Qleb jobW 0) eqn:EW; qbool; [cbn [orb]; nra|].
  destruct (Num.Qleb jobH 0) eqn:EH; qbool; [cbn [orb]; nra|].
  cbn [orb]. cbv zeta.
  pose proof (floorQ_nonneg (parentW / jobW) ltac:(apply div_nonneg; lra)) as A1.
  pose proof (floorQ_nonneg (parentH / jobH) ltac:(apply div_nonneg; lra)) as A2.
  pose proof (floorQ_nonneg (parentW / jobH) ltac:(apply div_nonneg; lra)) as A3.
  pose proof (floorQ_nonneg (parentH / jobW) ltac:(apply div_nonneg; lra)) as A4.
  pose proof (floorQ_times parentW jobW EW) as B1.
  pose proof (floorQ_times parentH jobH EH) as B2.
  pose proof (floorQ_times parentW jobH EH) as B3.
  pose proof (floorQ_times parentH jobW EW) as B4.
  set (f1 := Num.floorQ (parentW / jobW)) in *.
  set (f2 := Num.floorQ (parentH / jobH)) in *.
  set (f3 := Num.floorQ (parentW / jobH)) in *.
  set (f4 := Num.floorQ (parentH / jobW)) in *.
  assert (C1 : f1 * f2 * (jobW * jobH) <= parentW * parentH).
  { assert (f1 * jobW * (f2 * jobH) <= parentW * parentH)
      by (apply product_mono; nra).
    nra. }
  assert (C2 : f3 * f4 * (jobW * jobH) <= parentW * parentH).
  { assert (f3 * jobH * (f4 * jobW) <= parentW * parentH)
      by (apply product_mono; nra).
    nra. }
  destruct (maxQ_cases (f1 * f2) (f3 * f4)) as [(_ & ->)|(_ & ->)]; split;
    try assumption; nra.
Qed.

End Imposition.



Lemma grows_refl (d : Cost.JobDetails) : Properties.grows d d.
Proof. unfold Properties.grows. repeat split; lra. Qed.

Lemma calculateCosts_accepted paperData d :
  Cost.validationError paperData d = None ->
  Cost.calculateCosts paperData d
  = {| Cost.bwPaperCost := Cost.bwPaperCostOf paperData d;
       Cost.colorPaperCost := Cost.colorPaperCostOf paperData d;
       Cost.coverPaperCost := Cost.coverPaperCostOf paperData d;
       Cost.bwClickCost := Cost.bwClickCostOf paperData d;
       Cost.colorClickCost := Cost.colorClickCostOf paperData d;
       Cost.coverClickCost := Cost.coverClickCostOf paperData d;
       Cost.laminationCost := Cost.laminationCostOf d;
       Cost.laborCost := Cost.laborCostOf paperData d;
       Cost.shippingCost := Cost.shippingCostOf paperData d;
       Cost.subtotal := Cost.subtotalOf paperData d;
       Cost.markupAmount := Cost.markupAmountOf paperData d;
       Cost.totalCost := Cost.totalCostOf paperData d;
       Cost.pricePerUnit := Cost.pricePerUnitOf paperData d;
       Cost.bwPressSheets := Cost.bwPressSheetsOf paperData d;
       Cost.colorPressSheets := Cost.colorPressSheetsOf paperData d;
       Cost.coverPressSheets := Cost.coverPressSheetsOf paperData d;
       Cost.bwImposition := Cost.bwImpositionOf paperData d;
       Cost.colorImposition := Cost.colorImpositionOf paperData d;
       Cost.coverImposition := Cost.coverImpositionOf paperData d;
       Cost.totalClicks := Cost.totalClicksOf paperData d;
       Cost.productionTimeHours := Cost.productionTimeHoursOf paperData d;
       Cost.laborTimeBreakdown :=
         {| Cost.printingTimeMins := Cost.printingTimeMinsOf paperData d;
            Cost.laminatingTimeMins := Cost.laminatingTimeMinsOf paperData d;
            Cost.bindingTimeMins := Cost.bindingTimeMinsOf d;
            Cost.setupTimeMins := Cost.setupTimeMinsOf d;
            Cost.trimmingTimeMins := Cost.trimmingTimeMinsOf d;
            Cost.wastageTimeMins := Cost.wastageTimeMinsOf paperData d |};
       Cost.shippingBreakdown :=
         Shipping.breakdown (Cost.shippingResult paperData d);
       Cost.error := None |}.
Proof. intros H. unfold Cost.calculateCosts. now rewrite H. Qed.

Lemma shippingCostOf_nonneg paperData d :
  Properties.goodCatalog paperData ->
  0 <= Cost.quantity d -> 0 <= Cost.finishedWidth d -> 0 <= Cost.finishedHeight d ->
  0 <= Cost.shippingCostOf paperData d.
Proof.
  intros Hcat Hq Hw Hh. unfold Cost.shippingCostOf, Cost.shippingResult.
  destruct (Cost.calculateShipping d); [|cbn; lra].
  pose proof (spineWidth_nonneg paperData d Hcat) as Hs.
  destruct (Qlt_le_dec 0 (Cost.calculateSingleBookWeightLbs paperData d)) as [Hwt|Hwt].
  - pose proof (calculateShipping_mono _ _ _ _ Hwt Hw Hh Hs 0 (Cost.quantity d)
                  (Cost.overrideShippingBoxName d) ltac:(lra) Hq) as Hmono.
    unfold Shipping.calculateShipping at 1 in Hmono.
    change (Num.Qleb 0 0) with true in Hmono. cbn in Hmono. exact Hmono.
  - unfold Shipping.calculateShipping.
    rewrite (proj2 (Qleb_true _ 0) Hwt), !orb_true_r. cbn. lra.
Qed.

(** X21. No negative amounts.  For a catalog with physical values and an
    accepted job whose numeric fields are not negative, no line of the
    breakdown is negative: the paper, click, lamination, labor and shipping
    costs, the subtotal, the markup, the total and the unit price, the three
    press-sheet counts and the production time. *)
Theorem no_negative_amounts (paperData : list Cost.PaperStock) (d : Cost.JobDetails) :
  Properties.goodCatalog paperData -> Properties.admissible paperData d ->
  let r := Cost.calculateCosts paperData d in
  0 <= Cost.bwPaperCost r /\ 0 <= Cost.colorPaperCost r /\ 0 <= Cost.coverPaperCost r
  /\ 0 <= Cost.bwClickCost r /\ 0 <= Cost.colorClickCost r /\ 0 <= Cost.coverClickCost r
  /\ 0 <= Cost.laminationCost r /\ 0 <= Cost.laborCost r /\ 0 <= Cost.shippingCost r
  /\ 0 <= Cost.subtotal r /\ 0 <= Cost.markupAmount r /\ 0 <= Cost.totalCost r
  /\ 0 <= Cost.pricePerUnit r
  /\ 0 <= Cost.bwPressSheets r /\ 0 <= Cost.colorPressSheets r
  /\ 0 <= Cost.coverPressSheets r /\ 0 <= Cost.productionTimeHours r.
Proof.
  intros Hcat Hadm. cbv zeta.
  pose proof (grows_refl d) as Hg.
  pose proof Hadm as (Hq0 & Hw0 & Hh0 & Hbw0 & Hcol0 & Hrate0 & Hmark0 & Hspoil0 & Herr).
  rewrite (calculateCosts_accepted paperData d (no_error_validation paperData d Herr)).
  cbn [Cost.totalCost Cost.subtotal Cost.markupAmount Cost.shippingCost
       Cost.bwPaperCost Cost.colorPaperCost Cost.coverPaperCost
       Cost.bwClickCost Cost.colorClickCost Cost.coverClickCost
       Cost.laminationCost Cost.laborCost Cost.productionTimeHours
       Cost.pricePerUnit Cost.bwPressSheets Cost.colorPressSheets
       Cost.coverPressSheets].
  destruct (bwPressSheets_mono paperData d d Hadm Hadm Hg) as (Hb & _).
  destruct (colorPressSheets_mono paperData d d Hadm Hadm Hg) as (Hc & _).
  destruct (coverPressSheets_mono paperData d d Hadm Hadm Hg) as (Hv & _).
  destruct (laminationCost_mono paperData d d Hadm Hadm Hg) as (Hlam & _).
  destruct (laborCost_mono paperData d d Hcat Hadm Hadm Hg) as (Hlab & _).
  destruct (subtotal_mono paperData d d Hcat Hadm Hadm Hg) as (Hsub & _).
  destruct (productionTime_mono paperData d d Hcat Hadm Hadm Hg) as (Htime & _).
  pose proof (shippingCostOf_nonneg paperData d Hcat Hq0 Hw0 Hh0) as Hship.
  assert (Hpaper : forall s x, 0 <= x ->
            0 <= Cost.paperCostOf (Cost.findPaper paperData s) x).
  { intros s x Hx.
    apply (paperCostOf_mono paperData Hcat (Cost.findPaper paperData s) x x
             (findPaper_in paperData s) Hx). lra. }
  assert (Hmarkup : 0 <= Cost.markupAmountOf paperData d).
  { unfold Cost.markupAmountOf. apply Qmult_le_0_compat; [exact Hsub|].
    apply div_nonneg; [reflexivity|exact Hmark0]. }
  assert (Htotal : 0 <= Cost.totalCostOf paperData d)
    by (unfold Cost.totalCostOf; lra).
  repeat match goal with |- _ /\ _ => split end;
    try assumption.
  - apply Hpaper, Hb.
  - apply Hpaper, Hc.
  - unfold Cost.coverPaperCostOf. destruct (Cost.hasCover d); [|lra].
    apply Hpaper, Hv.
  - unfold Cost.bwClickCostOf, Cost.bwClicks, Cost.BW_CLICK_COST. lra.
  - unfold Cost.colorClickCostOf, Cost.colorClicks, Cost.COLOR_CLICK_COST. lra.
  - unfold Cost.coverClickCostOf, Cost.coverClicks, Cost.BW_CLICK_COST,
      Cost.COLOR_CLICK_COST.
    destruct (Cost.hasCover d), (Cost.coverPrintsOnBothSides d),
      (Cost.coverPrintColor d); lra.
  - unfold Cost.pricePerUnitOf.
    destruct (Num.Qltb 0 (Cost.quantity d)) eqn:E; [|lra]. qbool.
    now apply div_nonneg.
Qed.

Lemma no_negative_amounts_witness :
  0 <= Cost.totalCost (Cost.calculateCosts Examples.catalog (Examples.textBlock 100 200)).
Proof.
  assert (H : Properties.admissible Examples.catalog (Examples.textBlock 100 200))
    by (unfold Properties.admissible; repeat split; evaluate).
  exact (proj1 (proj2 (proj2 (proj2 (proj2 (proj2 (proj2 (proj2 (proj2 (proj2 (proj2
           (no_negative_amounts Examples.catalog (Examples.textBlock 100 200)
              examples_goodCatalog H)))))))))))).
Defined.

Lemma calculateImposition_integer (parentW parentH jobW jobH : Q) :
  exists n : Z, Cost.calculateImposition parentW parentH jobW jobH == inject_Z n.
Proof.
  unfold Cost.calculateImposition.
  destruct (Num.Qleb jobW 0 || Num.Qleb jobH 0); [now exists 0%Z|]. cbv zeta.
  unfold Num.maxQ, Num.floorQ.
  match goal with |- context [if ?c then _ else _] => destruct c end;
    eexists; rewrite <- inject_Z_mult; reflexivity.
Qed.

(** A count of pieces that is not zero is at least one. *)
Lemma calculateImposition_positive (parentW parentH jobW jobH : Q) :
  0 < parentW -> 0 < parentH ->
  ~ Cost.calculateImposition parentW parentH jobW jobH == 0 ->
  1 <= Cost.calculateImposition parentW parentH jobW jobH.
Proof.
  intros HpW HpH Hne.
  destruct (calculateImposition_area parentW parentH jobW jobH HpW HpH) as (H0 & _).
  destruct (calculateImposition_integer parentW parentH jobW jobH) as (n & Hn).
  rewrite Hn in *. change 0 with (inject_Z 0) in *. change 1 with (inject_Z 1).
  rewrite <- Zle_Qle in *.
  assert (n <> 0)%Z by (intros ->; now apply Hne). lia.
Qed.

Section Accepted.
Variables (paperData : list Cost.PaperStock) (d : Cost.JobDetails).
Hypotheses (Hsheets : Fit.positiveSheets paperData)
           (Hval : Cost.validationError paperData d = None).

Lemma accepted_guards :
  (Cost.isSome (Cost.bwPaper paperData d)
   && Num.Qeqb (Cost.bwImpositionOf paperData d) 0
   && Num.Qltb 0 (Cost.bwPages d) = false)
  /\ (Cost.isSome (Cost.colorPaper paperData d)
      && Num.Qeqb (Cost.colorImpositionOf paperData d) 0
      && Num.Qltb 0 (Cost.colorPages d) = false)
  /\ (Cost.hasCover d && Cost.isSome (Cost.coverPaper paperData d)
      && Num.Qeqb (Cost.coverImpositionOf paperData d) 0 = false).
Proof.
  unfold Cost.validationError in Hval.
  repeat match type of Hval with
    | (if ?c then Some _ else _) = None => destruct c eqn:?; [discriminate|]
    end.
  auto.
Qed.

Lemma accepted_interior (paper : option Cost.PaperStock) (pages : Q) p :
  Cost.isSome paper && Num.Qeqb (Cost.paperImposition d paper) 0
  && Num.Qltb 0 pages = false ->
  paper = Some p -> In p paperData -> 0 < pages ->
  1 <= Cost.paperImposition d paper
  /\ Fit.fitsSheet p (Cost.finishedWidth d) (Cost.finishedHeight d).
Proof.
  intros Hguard -> Hin Hpages. destruct (Hsheets p Hin) as (HW & HH).
  cbn [Cost.isSome andb] in Hguard.
  rewrite (proj2 (Qltb_true 0 pages) Hpages), andb_true_r in Hguard. qbool.
  cbn [Cost.paperImposition] in *.
  pose proof (calculateImposition_positive _ _ _ _ HW HH Hguard) as H1.
  split; [exact H1|]. now apply calculateImposition_fits in H1.
Qed.
End Accepted.

(** X23. Accepted jobs fit their paper, and jobs that fit are accepted.  On
    a catalog of positive sheet sizes, when [calculateCosts] reports no
    error, the finished page fits the parent sheet (as given or turned) of
    the B/W stock and of the colour stock whenever that stock is in the
    catalog and the section has pages, and the full cover spread (two pages
    and the spine, by the page height) fits the sheet of the cover stock of
    a job with a cover.  Conversely a job that is not saddle stitched and
    fits in this sense is never rejected. *)
Theorem accepted_jobs_fit (paperData : list Cost.PaperStock) (d : Cost.JobDetails) :
  Fit.positiveSheets paperData ->
  let w := Cost.finishedWidth d in
  let h := Cost.finishedHeight d in
  let fits :=
    (forall p, Cost.bwPaper paperData d = Some p -> 0 < Cost.bwPages d ->
               Fit.fitsSheet p w h)
    /\ (forall p, Cost.colorPaper paperData d = Some p -> 0 < Cost.colorPages d ->
                  Fit.fitsSheet p w h)
    /\ (forall cp, Cost.hasCover d = true -> Cost.coverPaper paperData d = Some cp ->
                   Fit.fitsSheet cp (w * 2 + Cost.spineWidth paperData d) h) in
  (Cost.error (Cost.calculateCosts paperData d) = None -> fits)
  /\ (Cost.bindingMethod d <> Cost.saddleStitch -> fits ->
      Cost.error (Cost.calculateCosts paperData d) = None).
Proof.
  intros Hsheets w h fits. split.
  - intros Herr. pose proof (no_error_validation paperData d Herr) as Hval.
    destruct (accepted_guards paperData d Hval) as (Gbw & Gcol & Gcov).
    split; [|split].
    + intros p Ep Hpages. unfold Cost.bwImpositionOf in Gbw.
      exact (proj2 (accepted_interior paperData d Hsheets _ (Cost.bwPages d) p
                      Gbw Ep (findPaper_in paperData _ p Ep) Hpages)).
    + intros p Ep Hpages. unfold Cost.colorImpositionOf in Gcol.
      exact (proj2 (accepted_interior paperData d Hsheets _ (Cost.colorPages d) p
                      Gcol Ep (findPaper_in paperData _ p Ep) Hpages)).
    + intros cp Hcover Ecp.
      destruct (Hsheets cp (findPaper_in paperData _ cp Ecp)) as (HW & HH).
      rewrite Hcover, Ecp in Gcov. cbn [Cost.isSome andb] in Gcov.
      unfold Cost.coverImpositionOf in Gcov. rewrite Hcover, Ecp in Gcov.
      cbv zeta in Gcov.
      destruct (Num.Qleb 1 _) eqn:E in Gcov; [|discriminate]. qbool.
      now apply calculateImposition_fits in E.
  - intros Hbind (Fbw & Fcol & Fcov).
    assert (Hval : Cost.validationError paperData d = None).
    { unfold Cost.validationError.
      replace (match Cost.bindingMethod d with
               | Cost.saddleStitch => true
               | _ => false
               end) with false by (destruct (Cost.bindingMethod d); congruence).
      cbn [andb].
      assert (Hint : forall paper pages,
                (forall p, paper = Some p -> In p paperData) ->
                (forall p, paper = Some p -> 0 < pages -> Fit.fitsSheet p w h) ->
                Cost.isSome paper && Num.Qeqb (Cost.paperImposition d paper) 0
                && Num.Qltb 0 pages = false).
      { intros [p|] pages Hin Hfit; [|reflexivity]. cbn [Cost.isSome andb].
        destruct (Num.Qltb 0 pages) eqn:E; [|apply andb_false_r]. qbool.
        rewrite andb_true_r. apply Qeqb_false.
        destruct (Hsheets p (Hin p eq_refl)) as (HW & HH).
        pose proof (proj2 (calculateImposition_fits _ _ _ _ HW HH)
                      (Hfit p eq_refl E)) as H1.
        cbn [Cost.paperImposition]. fold w h. intros H0. lra. }
      unfold Cost.bwImpositionOf, Cost.colorImpositionOf.
      rewrite (Hint (Cost.bwPaper paperData d) (Cost.bwPages d)
                 (findPaper_in paperData _) Fbw).
      rewrite (Hint (Cost.colorPaper paperData d) (Cost.colorPages d)
                 (findPaper_in paperData _) Fcol).
      destruct (Cost.hasCover d) eqn:Hcover; [|reflexivity].
      destruct (Cost.coverPaper paperData d) as [cp|] eqn:Ecp; [|reflexivity].
      cbn [Cost.isSome andb].
      destruct (Hsheets cp (findPaper_in paperData _ cp Ecp)) as (HW & HH).
      pose proof (proj2 (calculateImposition_fits _ _ _ _ HW HH)
                    (Fcov cp eq_refl eq_refl)) as H1.
      unfold Cost.coverImpositionOf. rewrite Hcover, Ecp. cbv zeta.
      fold w h. rewrite (proj2 (Qleb_true _ _) H1). reflexivity. }
    unfold Cost.calculateCosts. now rewrite Hval.
Qed.

Lemma accepted_jobs_fit_witness :
  Cost.error (Cost.calculateCosts Examples.catalog (Examples.textBlock 100 200)) = None.
Proof.
  assert (Hpos : Fit.positiveSheets Examples.catalog)
    by (intros p [<-|[]]; split; reflexivity).
  apply (proj2 (accepted_jobs_fit Examples.catalog (Examples.textBlock 100 200) Hpos)).
  - discriminate.
  - split; [|split].
    + intros p Ep _. vm_compute in Ep. injection Ep as <-.
      unfold Fit.fitsSheet. cbn. repeat split; try reflexivity.
      left. split; discriminate.
    + intros p Ep. vm_compute in Ep. discriminate.
    + intros cp Hcover. discriminate.
Defined.

(** ** The calculator's form against the estimator and the packer *)

Local Open Scope Q_scope.

Lemma remQ_compat (x y : Q) : x == y -> Num.remQ x 4 == Num.remQ y 4.
Proof.
  intros E. unfold Num.remQ, Num.truncQ.
  assert (Elt : Num.Qltb (x / 4) 0 = Num.Qltb (y / 4) 0).
  { destruct (Num.Qltb (x / 4) 0) eqn:E1, (Num.Qltb (y / 4) 0) eqn:E2;
      try reflexivity; qbool; rewrite E in E1; lra. }
  rewrite Elt.
  assert (Efl : Qfloor (x / 4) = Qfloor (y / 4)) by now rewrite E.
  assert (Ece : Qceiling (x / 4) = Qceiling (y / 4)) by now rewrite E.
  rewrite Efl, Ece, E. reflexivity.
Qed.

Lemma Qeqb_compat (x y : Q) : x == y -> Num.Qeqb x 0 = Num.Qeqb y 0.
Proof.
  intros E. destruct (Num.Qeqb x 0) eqn:E1, (Num.Qeqb y 0) eqn:E2;
    try reflexivity; qbool; exfalso; [apply E2|apply E1]; lra.
Qed.

Lemma Qltb_compat (c x y : Q) : x == y -> Num.Qltb c x = Num.Qltb c y.
Proof.
  intros E. destruct (Num.Qltb c x) eqn:E1, (Num.Qltb c y) eqn:E2;
    try reflexivity; qbool; lra.
Qed.

Lemma positivePart_id (x : Q) : 0 <= x -> Cost.positivePart x == x.
Proof.
  intros H. unfold Cost.positivePart. destruct (Num.Qltb 0 x) eqn:E; qbool; lra.
Qed.

(** X24. The form and the estimator agree on saddle stitching.  For page
    counts that are not negative, the form shows its multiple-of-four
    warning exactly when [calculateCosts], on any catalog, rejects the job
    with the saddle-stitch error; a job bound otherwise gets neither. *)
Theorem binding_warning_matches_estimator
  (paperData : list Cost.PaperStock) (d : Cost.JobDetails) :
  0 <= Cost.bwPages d -> 0 <= Cost.colorPages d ->
  (Calculator.bindingWarning d = Some Calculator.multipleOfFourWarning
   <-> Cost.error (Cost.calculateCosts paperData d) = Some Cost.saddleStitchError).
Proof.
  intros Hbw Hcol.
  assert (Etotal : Cost.totalInteriorPages d == Cost.bwPages d + Cost.colorPages d).
  { unfold Cost.totalInteriorPages. now rewrite !positivePart_id. }
  assert (Eguard : Num.Qltb 0 (Cost.totalInteriorPages d)
                   && negb (Num.Qeqb (Num.remQ (Cost.totalInteriorPages d) 4) 0)
                   = Num.Qltb 0 (Cost.bwPages d + Cost.colorPages d)
                     && negb (Num.Qeqb (Num.remQ (Cost.bwPages d + Cost.colorPages d) 4) 0)).
  { rewrite (Qltb_compat 0 _ _ Etotal).
    now rewrite (Qeqb_compat _ _ (remQ_compat _ _ Etotal)). }
  unfold Calculator.bindingWarning, Cost.calculateCosts, Cost.validationError.
  destruct (Cost.bindingMethod d); cbn [andb].
  1, 3: split; [discriminate|];
    repeat match goal with
      | |- context [if ?c then Some _ else _] => destruct c
      end; cbn; discriminate.
  rewrite <- andb_assoc. cbn [andb]. rewrite Eguard. cbv zeta.
  destruct (Num.Qltb 0 (Cost.bwPages d + Cost.colorPages d)
            && negb (Num.Qeqb (Num.remQ (Cost.bwPages d + Cost.colorPages d) 4) 0)).
  - split; reflexivity.
  - split.
    + destruct (Num.Qltb 80 (Cost.bwPages d + Cost.colorPages d)); discriminate.
    + repeat match goal with
        | |- context [if ?c then Some _ else _] => destruct c
        end; cbn; discriminate.
Qed.

Lemma binding_warning_matches_estimator_witness :
  Calculator.bindingWarning
    {| Cost.bookTitle := ""; Cost.quantity := 100;
       Cost.finishedWidth := 8; Cost.finishedHeight := 9;
       Cost.bwPages := 10; Cost.bwPaperSku := None;
       Cost.colorPages := 0; Cost.colorPaperSku := None;
       Cost.hasCover := false; Cost.coverPaperSku := None;
       Cost.coverPrintColor := Cost.BW; Cost.coverPrintsOnBothSides := false;
       Cost.laminationType := Cost.noLamination;
       Cost.bindingMethod := Cost.saddleStitch;
       Cost.laborRate := 30; Cost.markupPercent := 20; Cost.spoilagePercent := 5;
       Cost.calculateShipping := false; Cost.overrideShippingBoxName := None |}
  = Some Calculator.multipleOfFourWarning
  <-> Cost.error
        (Cost.calculateCosts Examples.catalog
           {| Cost.bookTitle := ""; Cost.quantity := 100;
              Cost.finishedWidth := 8; Cost.finishedHeight := 9;
              Cost.bwPages := 10; Cost.bwPaperSku := None;
              Cost.colorPages := 0; Cost.colorPaperSku := None;
              Cost.hasCover := false; Cost.coverPaperSku := None;
              Cost.coverPrintColor := Cost.BW; Cost.coverPrintsOnBothSides := false;
              Cost.laminationType := Cost.noLamination;
              Cost.bindingMethod := Cost.saddleStitch;
              Cost.laborRate := 30; Cost.markupPercent := 20; Cost.spoilagePercent := 5;
              Cost.calculateShipping := false; Cost.overrideShippingBoxName := None |})
      = Some Cost.saddleStitchError.
Proof.
  apply binding_warning_matches_estimator; discriminate.
Defined.

Lemma boxOptions_flatten (box : Shipping.ShippingBox) :
  Calculator.boxOptions box = map Shipping.flatName (Shipping.flatten box).
Proof.
  unfold Calculator.boxOptions, Shipping.flatten.
  destruct (Shipping.height box) as [h|hs]; [reflexivity|].
  rewrite map_map. reflexivity.
Qed.

(** X25. The box drop-down and the packer name the same boxes.  For every
    catalog entry the option names the form builds are the names of the
    boxes the packer flattens it into, in the same order; so every option of
    the drop-down restricts the packer to exactly one box, the one of that
    name, and the option [automatic] leaves it the whole catalog. *)
Theorem box_options_select_one_box :
  (forall box, Calculator.boxOptions box
               = map Shipping.flatName (Shipping.flatten box))
  /\ Calculator.allBoxOptions = map Shipping.flatName Shipping.flatBoxes
  /\ (forall value, In value Calculator.allBoxOptions ->
        exists box,
          Shipping.boxesToConsider (Calculator.overrideOfOption value) = [box]
          /\ Shipping.flatName box = value)
  /\ Shipping.boxesToConsider (Calculator.overrideOfOption "automatic")
     = Shipping.flatBoxes.
Proof.
  split; [exact boxOptions_flatten|]. split; [|split].
  - unfold Calculator.allBoxOptions, Shipping.flatBoxes.
    induction Shipping.shippingBoxes as [|box boxes IH]; [reflexivity|].
    cbn [flat_map]. now rewrite map_app, IH, boxOptions_flatten.
  - intros value Hin. vm_compute in Hin.
    repeat (destruct Hin as [<-|Hin]; [eexists; split; vm_compute; reflexivity|]).
    contradiction.
  - reflexivity.
Qed.

Lemma box_options_select_one_box_witness :
  exists box,
    Shipping.boxesToConsider
      (Calculator.overrideOfOption "Standard Large Box (12x9x10)") = [box]
    /\ Shipping.flatName box = "Standard Large Box (12x9x10)"%string.
Proof.
  apply (proj1 (proj2 (proj2 box_options_select_one_box))).
  vm_compute. right. right. left. reflexivity.
Defined.

(** ** The cover template *)




(** ** Saved presets *)

Section PresetFacts.
Variable Settings : Type.
Variable lower : string -> string.

Local Abbreviation preset := (Presets.ImpositionPreset Settings).
Local Abbreviation delete := (Presets.deletePreset Settings lower).
Local Abbreviation same := (Presets.sameName Settings lower).
Local Abbreviation findPreset := (Presets.findPreset Settings).
Local Abbreviation key := (fun p : preset => lower (Presets.name Settings p)).

Let stored (n : string) (s : Settings) (l : list preset) : list preset :=
  match Presets.findIndex Settings (same n) l with
  | Some existingIndex =>
      Presets.replaceAt Settings l existingIndex
        {| Presets.settings := s; Presets.name := n |}
  | None => l ++ [{| Presets.settings := s; Presets.name := n |}]
  end.

Lemma stored_cons n s p l :
  stored n s (p :: l)
  = if same n p then {| Presets.settings := s; Presets.name := n |} :: l
    else p :: stored n s l.
Proof.
  unfold stored. cbn [Presets.findIndex].
  destruct (same n p); [reflexivity|].
  destruct (Presets.findIndex Settings (same n) l); reflexivity.
Qed.

Lemma same_refl n s :
  same n {| Presets.settings := s; Presets.name := n |} = true.
Proof. unfold Presets.sameName. cbn. apply String.eqb_refl. Qed.

Lemma same_exact n p : Presets.name Settings p = n -> same n p = true.
Proof. intros <-. unfold Presets.sameName. apply String.eqb_refl. Qed.

Lemma stored_find n s l :
  findPreset n (stored n s l) = Some {| Presets.settings := s; Presets.name := n |}.
Proof.
  induction l as [|p l IH].
  - unfold stored. cbn. now rewrite String.eqb_refl.
  - rewrite stored_cons. destruct (same n p) eqn:E.
    + unfold Presets.findPreset. cbn. now rewrite String.eqb_refl.
    + unfold Presets.findPreset in *. cbn [find].
      destruct (String.eqb (Presets.name Settings p) n) eqn:E'; [|exact IH].
      apply String.eqb_eq in E'. rewrite (same_exact n p E') in E. discriminate.
Qed.

Lemma stored_find_other n s m l :
  lower m <> lower n -> findPreset m (stored n s l) = findPreset m l.
Proof.
  intros Hne.
  assert (Hnew : String.eqb n m = false).
  { apply String.eqb_neq. intros ->. now apply Hne. }
  induction l as [|p l IH].
  - unfold stored, Presets.findPreset. cbn. now rewrite Hnew.
  - rewrite stored_cons. destruct (same n p) eqn:E.
    + unfold Presets.findPreset. cbn [find Presets.name]. rewrite Hnew.
      replace (String.eqb (Presets.name Settings p) m) with false; [reflexivity|].
      symmetry. apply String.eqb_neq. intros Hp.
      unfold Presets.sameName in E. apply String.eqb_eq in E.
      rewrite Hp in E. now apply Hne.
    + unfold Presets.findPreset in *. cbn [find]. now rewrite IH.
Qed.

Lemma stored_delete n s l : delete n (stored n s l) = delete n l.
Proof.
  induction l as [|p l IH].
  - unfold stored, Presets.deletePreset. cbn. now rewrite same_refl.
  - rewrite stored_cons. destruct (same n p) eqn:E.
    + unfold Presets.deletePreset. cbn [filter]. now rewrite same_refl, E.
    + unfold Presets.deletePreset in *. cbn [filter]. now rewrite E, IH.
Qed.

Lemma stored_keys n s l x :
  In x (map key (stored n s l)) <-> In x (map key l) \/ x = lower n.
Proof.
  induction l as [|p l IH].
  - unfold stored. cbn. intuition.
  - rewrite stored_cons. destruct (same n p) eqn:E.
    + unfold Presets.sameName in E. apply String.eqb_eq in E.
      cbn. rewrite E. intuition.
    + cbn [map In]. rewrite IH. intuition.
Qed.

Lemma stored_unique n s l :
  NoDup (map key l) -> NoDup (map key (stored n s l)).
Proof.
  induction l as [|p l IH]; intros Hnd.
  - unfold stored. cbn. constructor; [intros []|constructor].
  - rewrite stored_cons. inversion Hnd as [|k ks Hnot Hrest]; subst.
    destruct (same n p) eqn:E.
    + unfold Presets.sameName in E. apply String.eqb_eq in E.
      cbn [map Presets.name]. rewrite <- E. now constructor.
    + cbn [map]. constructor; [|now apply IH].
      intros Hin. apply stored_keys in Hin. destruct Hin as [Hin|Heq]; [contradiction|].
      unfold Presets.sameName in E. apply String.eqb_neq in E. contradiction.
Qed.

Lemma stored_length n s l :
  (List.length l <= List.length (stored n s l) <= List.length l + 1)%nat.
Proof.
  induction l as [|p l IH].
  - unfold stored. cbn. lia.
  - rewrite stored_cons. destruct (same n p); cbn [List.length]; lia.
Qed.

Lemma delete_find n m l :
  findPreset m (delete n l)
  = if String.eqb (lower m) (lower n) then None else findPreset m l.
Proof.
  unfold Presets.deletePreset, Presets.findPreset.
  induction l as [|p l IH]; cbn [filter find].
  - now destruct (String.eqb (lower m) (lower n)).
  - destruct (same n p) eqn:E; cbn [negb find].
    + rewrite IH. destruct (String.eqb (lower m) (lower n)) eqn:Em; [reflexivity|].
      replace (String.eqb (Presets.name Settings p) m) with false; [reflexivity|].
      symmetry. apply String.eqb_neq. intros Hp.
      unfold Presets.sameName in E. apply String.eqb_eq in E.
      apply String.eqb_neq in Em. rewrite Hp in E. now apply Em.
    + destruct (String.eqb (Presets.name Settings p) m) eqn:Ep; [|exact IH].
      apply String.eqb_eq in Ep.
      replace (String.eqb (lower m) (lower n)) with false; [reflexivity|].
      symmetry. apply String.eqb_neq. intros Hm.
      unfold Presets.sameName in E. apply String.eqb_neq in E.
      rewrite Ep in E. contradiction.
Qed.
End PresetFacts.

(** X27. Saving, loading and deleting presets, for any settings and
    whatever [toLowerCase] and [trim] compute.  Saving under a name that is
    not blank and is not [custom] makes that name load the saved settings; a
    preset saved under the name [custom] is stored but never loaded, since
    loading returns early for that name.  Saving changes the preset no other
    name loads (names compared without case); it keeps the names of the list
    distinct up to case when they were, adding at most one entry; and
    deleting the name afterwards gives the list the deletion alone would
    give.  Saving under a blank name changes nothing.  After a deletion the
    deleted name, in any case, loads nothing, and every other name loads
    what it did; while the active name is [custom] the delete button
    deletes nothing. *)
Theorem presets_save_and_delete
  (Settings : Type) (lower trim : string -> string)
  (n : string) (s : Settings) (l : list (Presets.ImpositionPreset Settings)) :
  let save := Presets.savePreset Settings lower trim in
  let delete := Presets.deletePreset Settings lower in
  let load := Presets.handleLoadPreset Settings in
  let key := fun p => lower (Presets.name Settings p) in
  (trim n <> EmptyString ->
   (n <> "custom"%string ->
    load n (save n s l) = Some {| Presets.settings := s; Presets.name := n |})
   /\ (n = "custom"%string ->
       In {| Presets.settings := s; Presets.name := n |} (save n s l)
       /\ load n (save n s l) = None)
   /\ (forall m, lower m <> lower n -> load m (save n s l) = load m l)
   /\ (NoDup (map key l) -> NoDup (map key (save n s l)))
   /\ (List.length l <= List.length (save n s l) <= List.length l + 1)%nat
   /\ delete n (save n s l) = delete n l)
  /\ (trim n = EmptyString -> save n s l = l)
  /\ (forall m, lower m = lower n -> load m (delete n l) = None)
  /\ (forall m, lower m <> lower n -> load m (delete n l) = load m l)
  /\ Presets.handleDeletePreset Settings lower "custom" l = l
  /\ (n <> "custom"%string ->
      Presets.handleDeletePreset Settings lower n l = delete n l).
Proof.
  cbv zeta. split; [|split; [|split; [|split; [|split]]]].
  - intros Hname. apply String.eqb_neq in Hname.
    unfold Presets.savePreset. rewrite Hname.
    split; [|split; [|split]].
    + intros Hc. apply String.eqb_neq in Hc.
      unfold Presets.handleLoadPreset. rewrite Hc.
      apply (stored_find Settings lower).
    + intros ->. split; [|reflexivity].
      pose proof (stored_find Settings lower "custom" s l) as H.
      unfold Presets.findPreset in H. now apply find_some in H.
    + intros m Hm. unfold Presets.handleLoadPreset.
      destruct (String.eqb m "custom"); [reflexivity|].
      now apply (stored_find_other Settings lower).
    + split; [exact (stored_unique Settings lower n s l)|].
      split; [apply (stored_length Settings lower)|apply (stored_delete Settings lower)].
  - intros Hname. unfold Presets.savePreset. rewrite Hname. reflexivity.
  - intros m Hm. unfold Presets.handleLoadPreset.
    destruct (String.eqb m "custom"); [reflexivity|].
    rewrite delete_find, Hm, String.eqb_refl. reflexivity.
  - intros m Hm. unfold Presets.handleLoadPreset.
    destruct (String.eqb m "custom"); [reflexivity|].
    rewrite delete_find.
    now replace (String.eqb (lower m) (lower n)) with false
      by (symmetry; now apply String.eqb_neq).
  - reflexivity.
  - intros Hc. apply String.eqb_neq in Hc.
    unfold Presets.handleDeletePreset. now rewrite Hc.
Qed.

Lemma presets_save_and_delete_witness :
  Presets.handleLoadPreset nat "Booklet A5"
    (Presets.savePreset nat (fun x => x) (fun x => x) "Booklet A5" 2%nat
       [ {| Presets.settings := 1%nat; Presets.name := "Booklet A5" |};
         {| Presets.settings := 7%nat; Presets.name := "Cards" |} ])
  = Some {| Presets.settings := 2%nat; Presets.name := "Booklet A5" |}.
Proof.
  exact (proj1 (proj1 (presets_save_and_delete nat (fun x => x) (fun x => x)
                         "Booklet A5" 2%nat
                         [ {| Presets.settings := 1%nat; Presets.name := "Booklet A5" |};
                           {| Presets.settings := 7%nat; Presets.name := "Cards" |} ])
                  ltac:(discriminate))
           ltac:(discriminate)).
Defined.

(** ** Crop marks *)

Local Open Scope Q_scope.

Section CropMarks.
Variables (pw ph : Q) (columns rows : Z) (hG vG : Q)
          (off : Layout.RowOffsetType) (t : ImpositionType) (W H : Q).
Hypotheses (Hpw : 0 <= pw) (Hph : 0 <= ph) (HhG : 0 <= hG) (HvG : 0 <= vG).

Let C := Layout.currentColumnsForLayout columns t.

End CropMarks.



(** ** The cache of rendered pages *)

Lemma has_in keys k : PageCache.has keys k = true <-> In k keys.
Proof.
  unfold PageCache.has. rewrite existsb_exists. split.
  - intros (x & Hx & E). apply Z.eqb_eq in E. now subst.
  - intros H. exists k. split; [exact H|apply Z.eqb_refl].
Qed.

Lemma add_spec keys k :
  NoDup keys ->
  NoDup (PageCache.add keys k)
  /\ (forall q, In q (PageCache.add keys k) <-> In q keys \/ q = k)
  /\ (List.length (PageCache.add keys k) <= S (List.length keys))%nat.
Proof.
  intros Hnd. unfold PageCache.add. destruct (PageCache.has keys k) eqn:E.
  - apply has_in in E. split; [exact Hnd|]. split; [|lia].
    intros q. split; [auto|]. intros [H| ->]; assumption.
  - assert (Hnot : ~ In k keys)
      by (intros Hin; apply has_in in Hin; congruence).
    split; [|split].
    + apply NoDup_app; [exact Hnd|repeat constructor; intros []|].
      intros x Hx [<-|[]]. contradiction.
    + intros q. rewrite in_app_iff. cbn. intuition.
    + rewrite length_app. cbn. lia.
Qed.

Lemma delete_spec keys k :
  NoDup keys ->
  NoDup (PageCache.delete keys k)
  /\ (forall q, In q (PageCache.delete keys k) <-> In q keys /\ q <> k)
  /\ (List.length (PageCache.delete keys k) <= List.length keys)%nat.
Proof.
  intros Hnd. unfold PageCache.delete. split; [now apply NoDup_filter|].
  split; [|apply filter_length_le].
  intros q. rewrite filter_In, negb_true_iff, Z.eqb_neq. reflexivity.
Qed.

Lemma removeFirst_keeps arr k q :
  q <> k -> In q arr -> In q (PageCache.removeFirst arr k).
Proof.
  intros Hne. induction arr as [|a arr IH]; cbn; [auto|].
  destruct (Z.eqb_spec a k) as [->|Ha].
  - intros [->|H]; [contradiction|exact H].
  - intros [->|H]; [now left|right; auto].
Qed.

Lemma touch_keeps arr k q : In q arr -> In q (PageCache.touch arr k).
Proof.
  intros H. unfold PageCache.touch. apply in_or_app.
  destruct (Z.eq_dec q k) as [->|Hne]; [right; now left|left].
  now apply removeFirst_keeps.
Qed.

Lemma evictUnpinned_keeps pinned lru v lru' q :
  PageCache.evictUnpinned pinned lru = Some (v, lru') ->
  q <> v -> In q lru -> In q lru'.
Proof.
  revert lru'. induction lru as [|a lru IH]; intros lru' E Hne Hin; [discriminate|].
  cbn in E. destruct (PageCache.has pinned a).
  - destruct (PageCache.evictUnpinned pinned lru) as [[w tl']|]; [|discriminate].
    injection E as <- <-.
    destruct Hin as [->|Hin]; [now left|right]. now apply IH.
  - injection E as <- <-. destruct Hin as [->|Hin]; [contradiction|exact Hin].
Qed.

Lemma evictUnpinned_unpinned pinned lru v lru' :
  PageCache.evictUnpinned pinned lru = Some (v, lru') ->
  In v lru /\ ~ In v pinned.
Proof.
  revert lru'. induction lru as [|a lru IH]; intros lru' E; [discriminate|].
  cbn in E. destruct (PageCache.has pinned a) eqn:Ea.
  - destruct (PageCache.evictUnpinned pinned lru) as [[w tl']|]; [|discriminate].
    injection E as <- <-. destruct (IH _ eq_refl) as (H1 & H2). split; [now right|exact H2].
  - injection E as <- <-. split; [now left|].
    intros Hin. apply has_in in Hin. congruence.
Qed.

Section CacheInvariant.

Let good (st : PageCache.State) : Prop :=
  (List.length (PageCache.pageRenderCache st) <= PageCache.MAX_PAGE_CACHE_SIZE)%nat
  /\ NoDup (PageCache.pageRenderCache st)
  /\ NoDup (PageCache.pinnedPages st)
  /\ forall q, In q (PageCache.pageRenderCache st) -> In q (PageCache.pageRenderLru st).

Lemma good_makeRoom st :
  good st ->
  good (PageCache.makeRoom st)
  /\ (List.length (PageCache.pageRenderCache (PageCache.makeRoom st))
      <= List.length (PageCache.pageRenderCache st))%nat.
Proof.
  intros (Hsize & Hnd & Hpin & Hsub). unfold PageCache.makeRoom.
  destruct (PageCache.MAX_PAGE_CACHE_SIZE <=? _)%nat; [|split; [repeat split; auto|lia]].
  destruct (PageCache.evictUnpinned (PageCache.pinnedPages st)
              (PageCache.pageRenderLru st)) as [[v lru']|] eqn:E.
  - destruct (delete_spec (PageCache.pageRenderCache st) v Hnd) as (H1 & H2 & H3).
    split; [|exact H3]. unfold good. cbn.
    split; [lia|]. split; [exact H1|]. split; [exact Hpin|].
    intros q Hq. apply H2 in Hq. destruct Hq as (Hq & Hne).
    exact (evictUnpinned_keeps _ _ _ _ q E Hne (Hsub q Hq)).
  - destruct (PageCache.pageRenderLru st) as [|oldest rest] eqn:El.
    + split; [repeat split; auto|lia]. now rewrite El.
    + destruct (delete_spec (PageCache.pageRenderCache st) oldest Hnd) as (H1 & H2 & H3).
      destruct (delete_spec (PageCache.pinnedPages st) oldest Hpin) as (P1 & _ & _).
      split; [|exact H3]. unfold good. cbn.
      split; [lia|]. split; [exact H1|]. split; [exact P1|].
      intros q Hq. apply H2 in Hq. destruct Hq as (Hq & Hne).
      destruct (Hsub q Hq) as [->|Hin]; [contradiction|exact Hin].
Qed.

Lemma good_store st p : good st -> good (PageCache.store st p).
Proof.
  intros Hgood. destruct (good_makeRoom st Hgood) as ((Hsize & Hnd & Hpin & Hsub) & _).
  unfold PageCache.store. cbv zeta.
  destruct (Nat.ltb_spec (List.length (PageCache.pageRenderCache (PageCache.makeRoom st)))
              PageCache.MAX_PAGE_CACHE_SIZE) as [Hlt|Hge];
    [|repeat split; auto].
  destruct (add_spec (PageCache.pageRenderCache (PageCache.makeRoom st)) p Hnd)
    as (H1 & H2 & H3).
  unfold good. cbn. split; [lia|]. split; [exact H1|]. split; [exact Hpin|].
  intros q Hq. apply H2 in Hq. apply in_or_app.
  destruct Hq as [Hq| ->]; [left; auto|right; now left].
Qed.

Lemma good_hit st p : good st -> good (PageCache.hit st p).
Proof.
  intros (Hsize & Hnd & Hpin & Hsub). unfold good. cbn.
  repeat split; auto. intros q Hq. apply touch_keeps. auto.
Qed.

Lemma good_pin st p : good st -> good (PageCache.pin st p).
Proof.
  intros (Hsize & Hnd & Hpin & Hsub). unfold good. cbn.
  repeat split; auto. now apply add_spec.
Qed.

Lemma good_unpin st p : good st -> good (PageCache.unpin st p).
Proof.
  intros (Hsize & Hnd & Hpin & Hsub). unfold good. cbn.
  repeat split; auto. now apply delete_spec.
Qed.

Lemma good_reachable st : PageCache.reachable st -> good st.
Proof.
  induction 1 as [|st st' Hreach IH Hstep].
  - unfold good. cbn. repeat split; try constructor. apply Nat.le_0_l.
    intros q [].
  - destruct Hstep.
    + now apply good_hit.
    + now apply good_store.
    + now apply good_pin.
    + now apply good_unpin.
    + apply good_hit. now apply good_pin.
    + unfold good. cbn. repeat split; try constructor. apply Nat.le_0_l.
      intros q [].
Qed.

Lemma store_caches st p :
  good st ->
  (List.length (PageCache.pageRenderCache st) < PageCache.MAX_PAGE_CACHE_SIZE)%nat
  \/ (exists q, In q (PageCache.pageRenderLru st) /\ In q (PageCache.pageRenderCache st)
                /\ ~ In q (PageCache.pinnedPages st)
                /\ forall q', In q' (PageCache.pageRenderLru st) ->
                     In q' (PageCache.pageRenderCache st)) ->
  In p (PageCache.pageRenderCache (PageCache.store st p)).
Proof.
  intros (Hsize & Hnd & Hpin & Hsub) Hroom.
  assert (Hless : (List.length (PageCache.pageRenderCache (PageCache.makeRoom st))
                   < PageCache.MAX_PAGE_CACHE_SIZE)%nat).
  { unfold PageCache.makeRoom.
    destruct (Nat.leb_spec PageCache.MAX_PAGE_CACHE_SIZE
                (List.length (PageCache.pageRenderCache st))) as [Hfull|Hfree];
      [|exact Hfree].
    destruct Hroom as [Hfree|(q & Hq & Hqc & Hqp & Hfresh)]; [lia|].
    assert (Hdrop : forall v, In v (PageCache.pageRenderCache st) ->
              (List.length (PageCache.delete (PageCache.pageRenderCache st) v)
               < List.length (PageCache.pageRenderCache st))%nat).
    { intros v Hv. unfold PageCache.delete.
      clear - Hv. induction (PageCache.pageRenderCache st) as [|a l IH]; [contradiction|].
      cbn. destruct (Z.eqb_spec a v) as [->|Hne]; cbn.
      - pose proof (filter_length_le (fun q => negb (q =? v)%Z) l). lia.
      - destruct Hv as [->|Hv]; [contradiction|]. specialize (IH Hv). lia. }
    destruct (PageCache.evictUnpinned (PageCache.pinnedPages st)
                (PageCache.pageRenderLru st)) as [[v lru']|] eqn:E.
    - cbn. destruct (evictUnpinned_unpinned _ _ _ _ E) as (Hv & _).
      specialize (Hdrop v (Hfresh v Hv)). lia.
    - exfalso. clear - E Hq Hqp.
      induction (PageCache.pageRenderLru st) as [|a l IH]; [contradiction|].
      cbn in E. destruct (PageCache.has (PageCache.pinnedPages st) a) eqn:Ea;
        [|discriminate].
      destruct Hq as [->|Hq].
      + apply has_in in Ea. contradiction.
      + destruct (PageCache.evictUnpinned (PageCache.pinnedPages st) l) as [[w tl']|];
          [discriminate|]. now apply IH. }
  unfold PageCache.store. cbv zeta.
  apply Nat.ltb_lt in Hless. rewrite Hless. cbn.
  destruct (good_makeRoom st (conj Hsize (conj Hnd (conj Hpin Hsub))))
    as ((_ & Hnd' & _) & _).
  apply (add_spec _ p Hnd'). now right.
Qed.
End CacheInvariant.

Lemma reachable_stores (pages : list Z) (st : PageCache.State) :
  PageCache.reachable st ->
  PageCache.reachable (fold_left PageCache.store pages st).
Proof.
  revert st. induction pages as [|p pages IH]; intros st Hreach; [exact Hreach|].
  cbn. apply IH. eapply PageCache.reachable_step; [exact Hreach|].
  apply PageCache.step_store.
Qed.

(** X29. Whatever the preview does with its cache of rendered pages
    (serving a cached page, storing a page whose rendering has completed,
    pinning, unpinning, clearing), the cache never holds more than
    [MAX_PAGE_CACHE_SIZE] pages, and every page it holds is in the LRU
    array, where the eviction loop can find it. *)
Theorem page_cache_is_bounded (st : PageCache.State) :
  PageCache.reachable st ->
  (List.length (PageCache.pageRenderCache st) <= PageCache.MAX_PAGE_CACHE_SIZE)%nat
  /\ NoDup (PageCache.pageRenderCache st)
  /\ forall q, In q (PageCache.pageRenderCache st) ->
       In q (PageCache.pageRenderLru st).
Proof.
  intros Hreach. destruct (good_reachable st Hreach) as (H1 & H2 & _ & H4).
  repeat split; assumption.
Qed.

Lemma page_cache_is_bounded_witness :
  let st := PageCache.store (PageCache.pin (PageCache.store PageCache.empty 4) 4) 7 in
  (List.length (PageCache.pageRenderCache st) <= PageCache.MAX_PAGE_CACHE_SIZE)%nat
  /\ NoDup (PageCache.pageRenderCache st)
  /\ forall q, In q (PageCache.pageRenderCache st) ->
       In q (PageCache.pageRenderLru st).
Proof.
  apply page_cache_is_bounded.
  eapply PageCache.reachable_step; [|apply PageCache.step_store].
  eapply PageCache.reachable_step; [|apply PageCache.step_pin].
  eapply PageCache.reachable_step; [|apply PageCache.step_store].
  apply PageCache.reachable_empty.
Defined.

(** Two overlapping renderings of page 0 leave two entries for it in the LRU
    array.  Once the cache is full, the first eviction removes page 0 and
    one of the entries; the second eviction picks the entry that is left,
    evicts nothing, and the page just rendered is not stored. *)
Example stale_entry_blocks_store :
  let st := fold_left PageCache.store
              (0 :: 0 :: map Z.of_nat (seq 1 19) ++ [50])%Z PageCache.empty in
  PageCache.reachable st
  /\ In 0%Z (PageCache.pageRenderLru st)
  /\ ~ In 0%Z (PageCache.pageRenderCache st)
  /\ PageCache.pinnedPages st = []
  /\ ~ In 51%Z (PageCache.pageRenderCache (PageCache.store st 51)).
Proof.
  split; [apply reachable_stores; apply PageCache.reachable_empty|].
  vm_compute. split; [now left|]. split; [|split; [reflexivity|]];
    intros H; repeat (destruct H as [H|H]; [discriminate H|]); exact H.
Qed.

(** X30. A page whose rendering has completed is in the cache afterwards
    when the cache is not full, and also when it is full, provided the LRU
    array lists cached pages only and one of them is not pinned: then one
    page is evicted for it.  (Overlapping renderings of one page can leave
    an entry in the array for a page that has been evicted; the loop may
    then pick that entry, and the new page is not stored.) *)
Theorem rendered_page_is_cached (st : PageCache.State) (pageIndex : Z) :
  PageCache.reachable st ->
  (List.length (PageCache.pageRenderCache st) < PageCache.MAX_PAGE_CACHE_SIZE)%nat
  \/ (exists q, In q (PageCache.pageRenderLru st)
                /\ In q (PageCache.pageRenderCache st)
                /\ ~ In q (PageCache.pinnedPages st)
                /\ forall q', In q' (PageCache.pageRenderLru st) ->
                     In q' (PageCache.pageRenderCache st)) ->
  In pageIndex (PageCache.pageRenderCache (PageCache.store st pageIndex))
  /\ (List.length (PageCache.pageRenderCache (PageCache.store st pageIndex))
      <= PageCache.MAX_PAGE_CACHE_SIZE)%nat.
Proof.
  intros Hreach Hroom. split.
  - apply store_caches; [now apply good_reachable|exact Hroom].
  - apply (good_store st pageIndex (good_reachable st Hreach)).
Qed.

Lemma rendered_page_is_cached_witness :
  let full := fold_left PageCache.store (map Z.of_nat (seq 0 20)) PageCache.empty in
  In 99%Z (PageCache.pageRenderCache (PageCache.store full 99))
  /\ (List.length (PageCache.pageRenderCache (PageCache.store full 99))
      <= PageCache.MAX_PAGE_CACHE_SIZE)%nat.
Proof.
  apply rendered_page_is_cached.
  - apply reachable_stores. apply PageCache.reachable_empty.
  - right. exists 0%Z. vm_compute.
    split; [now left|]. split; [now left|]. split; [intros []|].
    intros q' Hq'. exact Hq'.
Defined.
